(** * The Markdown renderer of the dashboard (Dashboard.js), embedded in Rocq

    The renderer is the component [MarkdownRenderer]: a chain of
    [String.prototype.replace] calls over one string.  JavaScript strings
    are sequences of UTF-16 code units; a code unit is modelled as an [N]
    and a string as a list of them, so that every test of the source (pipe,
    white space, digit, the range [ -:]) is a test on numbers.

    The file has three layers:
    - [JS]: the string primitives the source calls (trim, split, startsWith,
      includes, toLowerCase, number to string);
    - [Regex]: a backtracking matcher for the regular-expression operators
      that occur in the source, with [test] and the global [replace];
    - [Dashboard]: [MarkdownRenderer] and [getYouTubeEmbedUrl], pass by pass.

    Conventions: a function that can throw returns an [option], [None] being
    the exception; the object [rowGroups] is a finite map from property names
    to groups; the platform's URL constructor is a parameter of the mapper. *)

From Stdlib Require Import NArith List String Ascii Lia Bool DecimalString.
From stdpp Require Import base option list gmap.

Local Open Scope N_scope.
Local Open Scope nat_scope.

Abbreviation jstring := (list N).

(* ===================================================================== *)
(** ** String primitives *)
(* ===================================================================== *)

Module JS.

(** A literal of the source.  All literals of the renderer are ASCII. *)
Definition lit (s : string) : jstring :=
  map N_of_ascii (list_ascii_of_string s).

(** The HTML templates of the source are full of double quotes and hold no
    apostrophe; [tpl] reads an apostrophe as a double quote (code 34). *)
Definition tpl (s : string) : jstring :=
  map (fun c => if N.eqb c 39 then 34%N else c) (lit s).

Definition pipe : N := 124.
Definition LF : N := 10.
Definition CR : N := 13.

Definition N_in (lo hi c : N) : bool := N.leb lo c && N.leb c hi.

(** LineTerminator: LF, CR, U+2028, U+2029. *)
Definition isLineTerminator (c : N) : bool :=
  N.eqb c 10 || N.eqb c 13 || N.eqb c 8232 || N.eqb c 8233.

(** WhiteSpace and LineTerminator, the set that [trim] strips and that [\s]
    matches: TAB, LF, VT, FF, CR, SP, NBSP, U+1680, U+2000..U+200A, U+2028,
    U+2029, U+202F, U+205F, U+3000, U+FEFF. *)
Definition isSpace (c : N) : bool :=
  N_in 9 13 c || N.eqb c 32 || N.eqb c 160 || N.eqb c 5760
  || N_in 8192 8202 c || N.eqb c 8232 || N.eqb c 8233 || N.eqb c 8239
  || N.eqb c 8287 || N.eqb c 12288 || N.eqb c 65279.

Fixpoint trimStart (s : jstring) : jstring :=
  match s with
  | c :: s' => if isSpace c then trimStart s' else s
  | [] => []
  end.

Definition trimEnd (s : jstring) : jstring := rev (trimStart (rev s)).

Definition trim (s : jstring) : jstring := trimEnd (trimStart s).

Fixpoint startsWith (p s : jstring) : bool :=
  match p, s with
  | [], _ => true
  | a :: p', b :: s' => N.eqb a b && startsWith p' s'
  | _ :: _, [] => false
  end.

Fixpoint includes (p s : jstring) : bool :=
  startsWith p s ||
  match s with
  | _ :: s' => includes p s'
  | [] => false
  end.

Definition eqs (a b : jstring) : bool := bool_decide (a = b).

(** [s.split(sep)] for a separator of one code unit: never empty, the empty
    string gives one empty piece. *)
Fixpoint split (sep : N) (s : jstring) : list jstring :=
  match s with
  | [] => [[]]
  | c :: s' =>
      if N.eqb c sep then [] :: split sep s'
      else match split sep s' with
           | w :: ws => (c :: w) :: ws
           | [] => [[c]]
           end
  end.

(** [a.filter((x, i) => f(x, i))]. *)
Fixpoint filteri_from {A} (i : nat) (f : A -> nat -> bool) (l : list A) : list A :=
  match l with
  | [] => []
  | x :: l' => if f x i then x :: filteri_from (S i) f l' else filteri_from (S i) f l'
  end.
Definition filteri {A} (f : A -> nat -> bool) (l : list A) : list A :=
  filteri_from 0 f l.

(** [a.map((x, i) => f(x, i))]. *)
Fixpoint mapi_from {A B} (i : nat) (f : A -> nat -> B) (l : list A) : list B :=
  match l with
  | [] => []
  | x :: l' => f x i :: mapi_from (S i) f l'
  end.
Definition mapi {A B} (f : A -> nat -> B) (l : list A) : list B := mapi_from 0 f l.

(** [a.join('')]. *)
Definition join (l : list jstring) : jstring := concat l.

(** A string is truthy when it is not empty. *)
Definition truthy (s : jstring) : bool :=
  match s with [] => false | _ :: _ => true end.

(** [toLowerCase], on the letters A-Z.  The source only compares the result
    with 'day'; no character outside A-Z has a lower case that is d, a or y,
    so that comparison does not see the rest of the Unicode case table. *)
Definition lowerChar (c : N) : N := if N_in 65 90 c then (c + 32)%N else c.
Definition toLowerCase (s : jstring) : jstring := map lowerChar s.

(** Number to string, for the non-negative integers the source prints. *)
Definition ofNat (n : nat) : jstring := lit (NilZero.string_of_uint (Nat.to_uint n)).

(** [s.substring(1)]. *)
Definition substring1 (s : jstring) : jstring := tail s.

End JS.

(* ===================================================================== *)
(** ** Regular expressions *)
(* ===================================================================== *)

Module Regex.
Import JS.

(** The operators the regular expressions of the source are made of.
    Quantifiers only ever apply to one character class there. *)
Inductive re : Type :=
| Chr (c : N)                  (* one literal character *)
| Cls (p : N -> bool)          (* a class, or the dot *)
| Star (p : N -> bool)         (* class*  , greedy *)
| StarLazy (p : N -> bool)     (* class*? , reluctant *)
| Plus (p : N -> bool)         (* class+  , greedy *)
| Seq (a b : re)
| Alt (a b : re)
| Group (i : nat) (r : re)     (* the i-th capturing parenthesis *)
| Ahead (r : re)               (* (?=r) *)
| Bol                          (* ^ *)
| Eol.                         (* $ *)

Fixpoint str (s : jstring) : re :=
  match s with
  | [] => Star (fun _ => false)
  | [c] => Chr c
  | c :: s' => Seq (Chr c) (str s')
  end.

(** The dot without the s flag, and with it. *)
Definition dot (c : N) : bool := negb (isLineTerminator c).
Definition any (c : N) : bool := true.

Record flags := { multiline : bool }.

(** A position in the subject: the character before it (for ^), the text
    after it, and the captures made so far (latest first). *)
Record pos := { before : option N; rest : jstring; caps : list (nat * jstring) }.

Definition capture (i : nat) (cs : list (nat * jstring)) : jstring :=
  match find (fun e => Nat.eqb (fst e) i) cs with
  | Some e => snd e
  | None => []
  end.

(** The text between two positions of the same subject. *)
Definition between (from to : jstring) : jstring :=
  take (length from - length to) from.

Section Matcher.
Context {A : Type}.

(** Greedy class*: take as many as possible, give back one at a time. *)
Fixpoint greedy (p : N -> bool) (k : option N -> jstring -> option A)
    (b : option N) (s : jstring) : option A :=
  match s with
  | c :: s' =>
      if p c then
        match greedy p k (Some c) s' with
        | Some r => Some r
        | None => k b s
        end
      else k b s
  | [] => k b s
  end.

(** Lazy class*?: take as few as possible, one more on failure. *)
Fixpoint reluctant (p : N -> bool) (k : option N -> jstring -> option A)
    (b : option N) (s : jstring) : option A :=
  match k b s with
  | Some r => Some r
  | None =>
      match s with
      | c :: s' => if p c then reluctant p k (Some c) s' else None
      | [] => None
      end
  end.
End Matcher.

Definition atBol (f : flags) (b : option N) : bool :=
  match b with
  | None => true
  | Some c => multiline f && isLineTerminator c
  end.

Definition atEol (f : flags) (s : jstring) : bool :=
  match s with
  | [] => true
  | c :: _ => multiline f && isLineTerminator c
  end.

(** Backtracking matcher in continuation-passing style: [run f r x k] matches
    [r] at [x] and hands every way of doing so, in priority order, to [k]
    until [k] accepts one. *)
Fixpoint run (f : flags) (r : re) (x : pos) (k : pos -> option pos) : option pos :=
  match r with
  | Chr c =>
      match rest x with
      | d :: s' => if N.eqb d c then k {| before := Some d; rest := s'; caps := caps x |} else None
      | [] => None
      end
  | Cls p =>
      match rest x with
      | d :: s' => if p d then k {| before := Some d; rest := s'; caps := caps x |} else None
      | [] => None
      end
  | Star p =>
      greedy p (fun b s => k {| before := b; rest := s; caps := caps x |}) (before x) (rest x)
  | StarLazy p =>
      reluctant p (fun b s => k {| before := b; rest := s; caps := caps x |}) (before x) (rest x)
  | Plus p =>
      match rest x with
      | d :: s' =>
          if p d then
            greedy p (fun b s => k {| before := b; rest := s; caps := caps x |}) (Some d) s'
          else None
      | [] => None
      end
  | Seq a b => run f a x (fun y => run f b y k)
  | Alt a b =>
      match run f a x k with
      | Some y => Some y
      | None => run f b x k
      end
  | Group i a =>
      run f a x (fun y =>
        k {| before := before y; rest := rest y;
             caps := (i, between (rest x) (rest y)) :: caps y |})
  | Ahead a =>
      match run f a x Some with
      | Some y => k {| before := before x; rest := rest x; caps := caps y |}
      | None => None
      end
  | Bol => if atBol f (before x) then k x else None
  | Eol => if atEol f (rest x) then k x else None
  end.

(** One match attempt at a given position. *)
Definition matchAt (f : flags) (r : re) (b : option N) (s : jstring) : option pos :=
  run f r {| before := b; rest := s; caps := [] |} Some.

(** [s.match(r)] for a regular expression without the g flag, as a truth
    value: is there a match starting anywhere in [s]? *)
Fixpoint searchFrom (f : flags) (r : re) (b : option N) (s : jstring) : bool :=
  match matchAt f r b s with
  | Some _ => true
  | None =>
      match s with
      | c :: s' => searchFrom f r (Some c) s'
      | [] => false
      end
  end.

Definition test (f : flags) (r : re) (s : jstring) : bool := searchFrom f r None s.

(** [s.replace(r, fn)] for a regular expression with the g flag: matches are
    looked for from left to right in the original string, each is replaced
    by [fn match captures], the search resumes after the match (one
    character further after an empty match).  [fn] may fail (throw), which
    aborts the replacement.  [skip] counts the characters of the current
    match still to be passed over. *)
Fixpoint replaceFrom (f : flags) (r : re)
    (fn : jstring -> list (nat * jstring) -> option jstring)
    (skip : nat) (b : option N) (s : jstring) : option jstring :=
  match skip with
  | S n =>
      match s with
      | c :: s' => replaceFrom f r fn n (Some c) s'
      | [] => Some []
      end
  | O =>
      match matchAt f r b s with
      | Some y =>
          let m := between s (rest y) in
          out ← fn m (caps y);
          match s with
          | c :: s' =>
              match length m with
              | O => tl ← replaceFrom f r fn 0 (Some c) s'; Some (out ++ c :: tl)
              | S n => tl ← replaceFrom f r fn n (Some c) s'; Some (out ++ tl)
              end
          | [] => Some out
          end
      | None =>
          match s with
          | c :: s' => tl ← replaceFrom f r fn 0 (Some c) s'; Some (c :: tl)
          | [] => Some []
          end
      end
  end.

Definition replaceWith (f : flags) (r : re)
    (fn : jstring -> list (nat * jstring) -> option jstring) (s : jstring) : option jstring :=
  replaceFrom f r fn 0 None s.

(** [s.replace(r, 'text with $1')]: the replacement never fails. *)
Fixpoint replacePure (f : flags) (r : re)
    (fn : list (nat * jstring) -> jstring)
    (skip : nat) (b : option N) (s : jstring) : jstring :=
  match skip with
  | S n =>
      match s with
      | c :: s' => replacePure f r fn n (Some c) s'
      | [] => []
      end
  | O =>
      match matchAt f r b s with
      | Some y =>
          let out := fn (caps y) in
          match s with
          | c :: s' =>
              match length (between s (rest y)) with
              | O => out ++ c :: replacePure f r fn 0 (Some c) s'
              | S n => out ++ replacePure f r fn n (Some c) s'
              end
          | [] => out
          end
      | None =>
          match s with
          | c :: s' => c :: replacePure f r fn 0 (Some c) s'
          | [] => []
          end
      end
  end.

Definition replace (f : flags) (r : re) (fn : list (nat * jstring) -> jstring)
    (s : jstring) : jstring :=
  replacePure f r fn 0 None s.

End Regex.

(* ===================================================================== *)
(** ** Dashboard.js: MarkdownRenderer and getYouTubeEmbedUrl *)
(* ===================================================================== *)

Module Dashboard.
Import JS Regex.

Definition noflags : flags := {| multiline := false |}.
Definition mflag : flags := {| multiline := true |}.

(** *** The regular expressions of the source, in order of appearance *)

(** [/```([\s\S]*?)```/gs] *)
Definition fenceRegex : re :=
  Seq (str (lit "```")) (Seq (Group 1 (StarLazy any)) (str (lit "```"))).

(** [/(\|.*?\|[\r\n]+)([\s\S]*?)(?=\n[ \t]*[^|]|$)/g] *)
Definition tableRegex : re :=
  Seq (Group 1 (Seq (Chr pipe) (Seq (StarLazy dot) (Seq (Chr pipe)
                 (Plus (fun c => N.eqb c CR || N.eqb c LF))))))
      (Seq (Group 2 (StarLazy any))
           (Ahead (Alt (Seq (Chr LF)
                            (Seq (Star (fun c => N.eqb c 32 || N.eqb c 9))
                                 (Cls (fun c => negb (N.eqb c pipe)))))
                       Eol))).

(** [/^[-: ]+$/]: the class holds the dash, the colon and the space. *)
Definition headerSeparatorRegex : re :=
  Seq Bol (Seq (Plus (fun c => N.eqb c 45 || N.eqb c 58 || N.eqb c 32)) Eol).

(** [/^\|[ -:]*\|[ -:]*\|/]: here the dash stands between the space and the
    colon, so the class is the range from the space (32) to the colon (58):
    the space, the punctuation from ! to /, the digits and the colon. *)
Definition rowSeparatorRegex : re :=
  Seq Bol (Seq (Chr pipe) (Seq (Star (N_in 32 58)) (Seq (Chr pipe)
      (Seq (Star (N_in 32 58)) (Chr pipe))))).

(** [/^[0-9.]*$/] *)
Definition digitsRegex : re :=
  Seq Bol (Seq (Star (fun c => N_in 48 57 c || N.eqb c 46)) Eol).

(** [/## (R)/g] and [/# (R)/g] where R is the greedy [.*]. *)
Definition h4Regex : re := Seq (str (lit "## ")) (Group 1 (Star dot)).
Definition h3Regex : re := Seq (str (lit "# ")) (Group 1 (Star dot)).
(** [/\*\*(.*?)\*\*/g], [/\*(.*?)\*/g] *)
Definition boldRegex : re :=
  Seq (str (lit "**")) (Seq (Group 1 (StarLazy dot)) (str (lit "**"))).
Definition italicRegex : re :=
  Seq (Chr 42) (Seq (Group 1 (StarLazy dot)) (Chr 42)).
(** [/---/g] *)
Definition ruleRegex : re := str (lit "---").
(** [/^\* (R)/gm] where R is the greedy [.*]. *)
Definition bulletRegex : re := Seq Bol (Seq (str (lit "* ")) (Group 1 (Star dot))).
(** [/(<li>.*?<\/li>)/gs], [/<\/ul><ul>/gs] *)
Definition liRegex : re :=
  Group 1 (Seq (str (lit "<li>")) (Seq (StarLazy any) (str (lit "</li>")))).
Definition ulJoinRegex : re := str (lit "</ul><ul>").
(** [/\n\n/g], [/\n/g] *)
Definition paragraphRegex : re := Seq (Chr LF) (Chr LF).
Definition newlineRegex : re := Chr LF.

(** *** Pass 1: fenced code blocks *)

Definition spaces (n : nat) : jstring := replicate n 32%N.

Definition fenceReplacer (codeContent : jstring) : jstring :=
  let cleanedCode := trim codeContent in
  [LF] ++ spaces 12 ++
  tpl "<div style='background-color: #f8f9fa; border: 1px solid #e9ecef; border-radius: 0.25rem; padding: 1rem; overflow-x: auto; margin-top: 1rem; margin-bottom: 1rem;'>"
  ++ [LF] ++ spaces 16 ++
  tpl "<pre style='margin: 0; white-space: pre-wrap; word-wrap: break-word;'><code>"
  ++ cleanedCode ++ lit "</code></pre>"
  ++ [LF] ++ spaces 12 ++ lit "</div>"
  ++ [LF] ++ spaces 8.

Definition fencePass (html : jstring) : jstring :=
  replace noflags fenceRegex (fun cs => fenceReplacer (capture 1 cs)) html.

(** *** Pass 2: tables *)

Definition parseHeaders (headerLine : jstring) : list jstring :=
  List.filter (fun h => truthy h && negb (test noflags headerSeparatorRegex h))
         (map trim (split pipe headerLine)).

Definition isTimetable (headers : list jstring) : bool :=
  (4 <=? length headers) && eqs (toLowerCase (nth 0 headers [])) (lit "day").

Definition th (h : jstring) : jstring :=
  tpl "<th style='text-align: left; font-weight: bold; background-color: #f2f2f2;'>"
  ++ h ++ lit "</th>".

Definition td (c : jstring) : jstring :=
  tpl "<td style='text-align: left;'>" ++ c ++ lit "</td>".

Definition tableOpen : jstring :=
  tpl "<table class='table table-bordered table-striped mt-3'><thead>".

(** The test both row loops start with:
    [row.trim().startsWith('|') && !row.trim().match(/^\|[ -:]*\|[ -:]*\|/)]. *)
Definition isContentRow (row : jstring) : bool :=
  startsWith [pipe] (trim row) && negb (test noflags rowSeparatorRegex (trim row)).

(** Simple tables. *)
Definition simpleCells (row : jstring) : list jstring :=
  List.filter (fun c => truthy c) (map trim (split pipe row)).

Definition simpleRow (simpleTableHtml row : jstring) : jstring :=
  if isContentRow row then
    let cells := simpleCells row in
    if 0 <? length cells then
      simpleTableHtml ++ lit "<tr>" ++ join (map td cells) ++ lit "</tr>"
    else simpleTableHtml
  else simpleTableHtml.

Definition renderSimple (headers : list jstring) (contentBlock : jstring) : jstring :=
  let simpleTableHtml := tableOpen in
  let simpleTableHtml := simpleTableHtml ++ (lit "<tr>" ++ join (map th headers) ++ lit "</tr>") in
  let simpleTableHtml := simpleTableHtml ++ lit "</thead><tbody>" in
  let simpleTableHtml := fold_left simpleRow (split LF (trim contentBlock)) simpleTableHtml in
  simpleTableHtml ++ lit "</tbody></table>".

(** Timetables.  [day] is [None] for the JavaScript [null]. *)
Record rowObject := { day : option jstring; subjectCells : list jstring }.
Record group := { count : nat; firstRowIndex : nat }.

(** The three variables of the parse loop.  [rowGroups] is a plain object:
    its keys are property names, so a [null] day is filed under 'null'.
    Every key is 'null' or starts with 'Day'; no property inherited from
    Object.prototype has such a name, so a key that was never written reads
    as undefined, here [None]. *)
Record parser := {
  tableData : list rowObject;
  rowGroups : gmap (list N) group;
  currentDay : option jstring
}.

Definition initial : parser :=
  {| tableData := []; rowGroups := ∅; currentDay := None |}.

(** [String(day)], as a property name and inside a template. *)
Definition dayText (d : option jstring) : jstring :=
  match d with Some s => s | None => lit "null" end.

Definition rawCellsOf (row : jstring) : list jstring :=
  let cells := map trim (split pipe row) in
  filteri (fun _ i => (0 <? i) && (i <? length cells - 1)) cells.

(** [while (rawCells.length < 4) rawCells.push('')] *)
Definition pad4 (rawCells : list jstring) : list jstring :=
  rawCells ++ replicate (4 - length rawCells) [].

(** The shift correction, on (subject, chapters, time). *)
Definition shiftApplies (cell_Day cell_Subject cell_Chapters cell_Time : jstring) : bool :=
  negb (startsWith (lit "Day") cell_Day) && test noflags digitsRegex cell_Subject
  && truthy cell_Chapters && negb (truthy cell_Time).

Definition correctShift (cell_Day cell_Subject cell_Chapters cell_Time : jstring)
  : list jstring :=
  if shiftApplies cell_Day cell_Subject cell_Chapters cell_Time
  then [ []; cell_Subject; cell_Chapters ]
  else [ cell_Subject; cell_Chapters; cell_Time ].

(** The body of the loop for a row that passed [rawCells.length >= 3]. *)
Definition addRow (st : parser) (rawCells : list jstring) : parser :=
  let rawCells := pad4 rawCells in
  let cell_Day := nth 0 rawCells [] in
  let cell_Subject := nth 1 rawCells [] in
  let cell_Chapters := nth 2 rawCells [] in
  let cell_Time := nth 3 rawCells [] in
  let cells := correctShift cell_Day cell_Subject cell_Chapters cell_Time in
  let currentDay' :=
    if startsWith (lit "Day") cell_Day then Some cell_Day else currentDay st in
  let cell_Day' :=
    if startsWith (lit "Day") cell_Day then Some cell_Day else currentDay' in
  let rowObject := {| day := cell_Day'; subjectCells := cells |} in
  let tableData' := tableData st ++ [rowObject] in
  let rowGroups' :=
    match rowGroups st !! dayText cell_Day' with
    | Some g =>
        <[ dayText cell_Day' := {| count := S (count g); firstRowIndex := firstRowIndex g |} ]>
          (rowGroups st)
    | None =>
        <[ dayText cell_Day' := {| count := 1; firstRowIndex := length tableData' - 1 |} ]>
          (rowGroups st)
    end in
  {| tableData := tableData'; rowGroups := rowGroups'; currentDay := currentDay' |}.

Definition parseRow (st : parser) (row : jstring) : parser :=
  if isContentRow row then
    let rawCells := rawCellsOf row in
    if 3 <=? length rawCells then addRow st rawCells else st
  else st.

Definition parseContent (contentBlock : jstring) : parser :=
  fold_left parseRow (split LF (trim contentBlock)) initial.

Definition dayCell (g : group) (d : option jstring) : jstring :=
  tpl "<td rowspan='" ++ ofNat (count g)
  ++ tpl "' style='text-align: left; font-weight: bold; background-color: #e9e9e9;'>"
  ++ dayText d ++ lit "</td>".

(** One turn of [tableData.forEach]: the text appended to [tableHtml].
    [None] is the TypeError of reading [group.firstRowIndex] when
    [rowGroups[day]] is undefined. *)
Definition renderRow (groups : gmap (list N) group) (rowData : rowObject) (index : nat)
  : option jstring :=
  g ← groups !! dayText (day rowData);
  Some (lit "<tr>"
        ++ (if index =? firstRowIndex g then dayCell g (day rowData) else [])
        ++ join (map td (subjectCells rowData))
        ++ lit "</tr>").

Fixpoint forEachRow (groups : gmap (list N) group) (index : nat) (rows : list rowObject)
    (tableHtml : jstring) : option jstring :=
  match rows with
  | [] => Some tableHtml
  | rowData :: rows' =>
      r ← renderRow groups rowData index;
      forEachRow groups (S index) rows' (tableHtml ++ r)
  end.

Definition renderTimetable (headers : list jstring) (contentBlock : jstring)
  : option jstring :=
  let st := parseContent contentBlock in
  let tableHtml := tableOpen in
  let tableHtml := tableHtml ++ (lit "<tr>" ++ join (map th headers) ++ lit "</tr>") in
  let tableHtml := tableHtml ++ lit "</thead><tbody>" in
  tableHtml ← forEachRow (rowGroups st) 0 (tableData st) tableHtml;
  Some (tableHtml ++ lit "</tbody></table>").

Definition tableReplacer (headerLine contentBlock : jstring) : option jstring :=
  let headers := parseHeaders headerLine in
  if negb (isTimetable headers) then Some (renderSimple headers contentBlock)
  else renderTimetable headers contentBlock.

Definition tablePass (html : jstring) : option jstring :=
  replaceWith noflags tableRegex
    (fun _ cs => tableReplacer (capture 1 cs) (capture 2 cs)) html.

(** *** Passes 3 to 5: headings, emphasis, rule, lists, newlines *)

Definition wrap (open close : string) (cs : list (nat * jstring)) : jstring :=
  lit open ++ capture 1 cs ++ lit close.

Definition listPass (html : jstring) : jstring :=
  let html := replace mflag bulletRegex (wrap "<li>" "</li>") html in
  if includes (lit "<li>") html then
    replace noflags ulJoinRegex (fun _ => [])
      (replace noflags liRegex (wrap "<ul>" "</ul>") html)
  else html.

Definition inlinePasses (html : jstring) : jstring :=
  let html := replace noflags h4Regex (wrap "<h4>" "</h4>") html in
  let html := replace noflags h3Regex (wrap "<h3>" "</h3>") html in
  let html := replace noflags boldRegex (wrap "<strong>" "</strong>") html in
  let html := replace noflags italicRegex (wrap "<em>" "</em>") html in
  let html := replace noflags ruleRegex (fun _ => lit "<hr>") html in
  let html := listPass html in
  let html := replace noflags paragraphRegex (fun _ => lit "<p></p>") html in
  let html := replace noflags newlineRegex (fun _ => lit "<br>") html in
  html.

(** The prop [content]: a string, or any other value. *)
Inductive jsvalue : Type :=
| JString (s : jstring)
| NotAString.

(** The inner HTML of the div that the component returns: empty when
    [content] is not a string, else the string after all the passes.  [None]
    stands for an exception thrown by a replacer. *)
Definition MarkdownRenderer (content : jsvalue) : option jstring :=
  match content with
  | NotAString => Some []
  | JString html =>
      let html := fencePass html in
      html ← tablePass html;
      Some (inlinePasses html)
  end.

(** *** getYouTubeEmbedUrl *)

(** What the source reads of a URL object. [searchParams] lists the
    name/value pairs of the query in order. *)
Record URL := {
  hostname : jstring;
  pathname : jstring;
  searchParams : list (jstring * jstring)
}.

Definition searchParams_has (name : jstring) (u : URL) : bool :=
  existsb (fun p => eqs (fst p) name) (searchParams u).

Definition searchParams_get (name : jstring) (u : URL) : jstring :=
  match find (fun p => eqs (fst p) name) (searchParams u) with
  | Some p => snd p
  | None => lit "null"
  end.

Definition embedPrefix : jstring := lit "https://www.youtube.com/embed/".
Definition fallbackUrl : jstring := lit "https://www.youtube.com/embed/dQw4w9WgXcQ".

Section Embed.
(** [new URL(url)] belongs to the platform; [None] stands for the
    TypeError it throws on a string that is not a valid URL. *)
Variable newURL : jstring -> option URL.

Definition getYouTubeEmbedUrl (url : jstring) : jstring :=
  match newURL url with
  | Some urlObj =>
      if includes (lit "youtube.com") (hostname urlObj) && searchParams_has (lit "v") urlObj
      then let videoId := searchParams_get (lit "v") urlObj in embedPrefix ++ videoId
      else if eqs (hostname urlObj) (lit "youtu.be")
      then let videoId := substring1 (pathname urlObj) in embedPrefix ++ videoId
      else fallbackUrl
  | None => fallbackUrl
  end.
End Embed.

End Dashboard.

Import JS Regex Dashboard.

(* ===================================================================== *)
(** ** Notions used to state the properties *)
(* ===================================================================== *)

(** The cells that [addRow] stores for a row, as a function of its tokens. *)
Definition rowCells (rawCells : list jstring) : list jstring :=
  correctShift (nth 0 rawCells []) (nth 1 rawCells []) (nth 2 rawCells [])
               (nth 3 rawCells []).

(** The day that [addRow] stores, given the key carried so far. *)
Definition rowDay (carried : option jstring) (rawCells : list jstring) : option jstring :=
  if startsWith (lit "Day") (nth 0 rawCells []) then Some (nth 0 rawCells []) else carried.

(** The tokens of a content line when the parse loop accepts it. *)
Definition acceptedCells (row : jstring) : option (list jstring) :=
  if isContentRow row && (3 <=? length (rawCellsOf row)) then Some (rawCellsOf row)
  else None.

Definition validRows (contentBlock : jstring) : list (list jstring) :=
  omap acceptedCells (split LF (trim contentBlock)).

(** Position of the first occurrence of a key and number of its
    occurrences in the sequence of the rows' keys. *)
Fixpoint firstIndex (k : list N) (ks : list (list N)) : option nat :=
  match ks with
  | [] => None
  | k' :: ks' => if decide (k' = k) then Some 0 else S <$> firstIndex k ks'
  end.

Definition occurrences (k : list N) (ks : list (list N)) : nat :=
  length (filter (fun k' => k' = k) ks).

Definition keys (rows : list rowObject) : list (list N) :=
  map (fun r => dayText (day r)) rows.

(** The rows of [tableData.forEach], one string per row. *)
Fixpoint rowStrings (groups : gmap (list N) group) (index : nat) (rows : list rowObject)
  : option (list jstring) :=
  match rows with
  | [] => Some []
  | rowData :: rows' =>
      r ← renderRow groups rowData index;
      rs ← rowStrings groups (S index) rows';
      Some (r :: rs)
  end.

Definition isDashColonSpace (c : N) : bool := N.eqb c 45 || N.eqb c 58 || N.eqb c 32.

(** Equality of two strings up to the case of the letters A-Z. *)
Fixpoint equalsIgnoreCase (a b : jstring) : bool :=
  match a, b with
  | [], [] => true
  | x :: a', y :: b' => N.eqb (lowerChar x) (lowerChar y) && equalsIgnoreCase a' b'
  | _, _ => false
  end.

(** The rows the parse loop stores for a sequence of accepted rows, the
    carried key being threaded from row to row. *)
Fixpoint records (carried : option jstring) (rows : list (list jstring)) : list rowObject :=
  match rows with
  | [] => []
  | rawCells :: rows' =>
      {| day := rowDay carried rawCells; subjectCells := rowCells rawCells |}
      :: records (rowDay carried rawCells) rows'
  end.

(** The leading cell of a group. *)
Definition spanCell (span : nat) (text : jstring) : jstring :=
  tpl "<td rowspan='" ++ ofNat span
  ++ tpl "' style='text-align: left; font-weight: bold; background-color: #e9e9e9;'>"
  ++ text ++ lit "</td>".

Definition dataCells (cells : list jstring) : jstring := join (map td cells).

(** The table row written for the record at position [j], [ks] being the
    keys of all the records of the table. *)
Definition rowHtml (ks : list (list N)) (r : rowObject) (j : nat) : jstring :=
  lit "<tr>"
  ++ (if decide (firstIndex (dayText (day r)) ks = Some j)
      then spanCell (occurrences (dayText (day r)) ks) (dayText (day r)) else [])
  ++ dataCells (subjectCells r) ++ lit "</tr>".

(** A rendered table: the header cells, then the body rows. *)
Definition tableFrame (headers : list jstring) (body : list jstring) : jstring :=
  (((tableOpen ++ (lit "<tr>" ++ join (map th headers) ++ lit "</tr>"))
    ++ lit "</thead><tbody>") ++ join body) ++ lit "</tbody></table>".

(** The rows' groups agree with the keys of the rows stored so far. *)
Definition groupsAgree (groups : gmap (list N) group) (ks : list (list N)) : Prop :=
  forall k, groups !! k =
    (fun i => {| count := occurrences k ks; firstRowIndex := i |}) <$> firstIndex k ks.

(** Simple tables: the lines that give a body row, and the row they give. *)
Definition simpleKept (row : jstring) : bool :=
  isContentRow row && (0 <? length (simpleCells row)).

Definition simpleRowHtml (row : jstring) : jstring :=
  lit "<tr>" ++ dataCells (simpleCells row) ++ lit "</tr>".

(** Does the day token of a row name a day, that is start with [Day]? *)
Definition namesDay (rawCells : list jstring) : bool :=
  startsWith (lit "Day") (nth 0 rawCells []).

(** A stored day that was taken from a row: a string starting with [Day]. *)
Definition isDayKey (d : option jstring) : Prop :=
  exists s, d = Some s /\ startsWith (lit "Day") s = true.

(** *** The specification's wording, where it differs from the code *)


(** A separator line as the specification words it: a line made only of
    dashes, colons, pipes and spaces. *)
Definition specSeparatorLine (row : jstring) : bool :=
  forallb (fun c => isDashColonSpace c || N.eqb c pipe) (trim row).

(** The cells of a simple row as the specification words them: the tokens
    without the empty ones at both ends. *)
Fixpoint dropEmptyFront (tokens : list jstring) : list jstring :=
  match tokens with
  | [] :: tokens' => dropEmptyFront tokens'
  | _ => tokens
  end.
Definition specSimpleCells (row : jstring) : list jstring :=
  rev (dropEmptyFront (rev (dropEmptyFront (map trim (split pipe row))))).

(** The URL objects of the strings used as examples, as the URL Standard
    parses them (a special scheme gets the path / when it has none).  The
    table says nothing of other strings; the statements that hold for every
    parser do not use it. *)
Definition exampleURL (url : jstring) : option URL :=
  if eqs url (lit "https://example.com") then
    Some {| hostname := lit "example.com"; pathname := lit "/"; searchParams := [] |}
  else if eqs url (lit "https://youtu.be/") then
    Some {| hostname := lit "youtu.be"; pathname := lit "/"; searchParams := [] |}
  else if eqs url (lit "https://youtu.be/abc123") then
    Some {| hostname := lit "youtu.be"; pathname := lit "/abc123"; searchParams := [] |}
  else if eqs url (lit "https://www.youtube.com/watch?v=abc123") then
    Some {| hostname := lit "www.youtube.com"; pathname := lit "/watch";
            searchParams := [ (lit "v", lit "abc123") ] |}
  else None.

(** *** Inputs used as examples *)

Fixpoint unlines (ls : list string) : jstring :=
  match ls with
  | [] => []
  | [l] => lit l
  | l :: ls' => lit l ++ [LF] ++ unlines ls'
  end.

Definition timetableHeaders : list jstring :=
  [lit "Day"; lit "Subject"; lit "Chapters"; lit "Time"].

(** A whole document: the header line of a timetable, its separator line
    and a block of rows. *)
Definition timetableDocument (block : jstring) : jstring :=
  unlines ["| Day | Subject | Chapters | Time |"; "|---|---|---|---|"]%string
  ++ [LF] ++ block.

Definition carryForwardBlock : jstring :=
  unlines ["| Day 1 | Math | 1-2 | 9am |"; "| | Science | 3 | 10am |"]%string.

Definition recurringBlock : jstring :=
  unlines ["| Day 1 | Math | 1 | 9am |"; "| Day 2 | Art | 2 | 10am |";
           "| Day 1 | Music | 3 | 11am |"]%string.

Definition numericBlock : jstring :=
  unlines ["| Day 1 | Math | 1-2 | 9am |"; "| | 3 | Chapter 1-3 | |"]%string.

Definition leadingBlock : jstring :=
  unlines ["| | Science | 3 | 10am |"; "| Mon | Art | 4 | 11am |";
           "| Day 1 | Math | 1-2 | 9am |"; "| | Music | 5 | 1pm |"]%string.

(** [a.join(sep)]: the texts with the separator between them. *)
Fixpoint joinWith (sep : jstring) (ls : list jstring) : jstring :=
  match ls with
  | [] => []
  | l :: ls' =>
      match ls' with
      | [] => l
      | _ :: _ => l ++ sep ++ joinWith sep ls'
      end
  end.

(* ===================================================================== *)
(** ** App.js: AuthProvider and PrivateRoute *)
(* ===================================================================== *)

Module App.

(** The provider holds the state variable [token], which is a string or
    [null] ([None]), and works on the local storage of the page, a map from
    keys to strings. *)
Record provider := {
  token : option jstring;
  localStorage : gmap (list N) jstring
}.

(** [!!token]: [null] and the empty string are falsy. *)
Definition isAuthenticated (p : provider) : bool :=
  match token p with
  | Some t => truthy t
  | None => false
  end.

(** The effect, which runs after the first render and after a render in
    which [token] has changed: a truthy token is stored, else the entry is
    removed. *)
Definition effect (p : provider) : provider :=
  match token p with
  | Some t =>
      if truthy t
      then {| token := token p; localStorage := <[ lit "token" := t ]> (localStorage p) |}
      else {| token := token p; localStorage := delete (lit "token") (localStorage p) |}
  | None => {| token := token p; localStorage := delete (lit "token") (localStorage p) |}
  end.

(** The first render: [useState(localStorage.getItem('token'))], then the
    effect. *)
Definition AuthProvider (storage : gmap (list N) jstring) : provider :=
  effect {| token := storage !! lit "token"; localStorage := storage |}.

(** [setToken]: a value other than the current one gives a new render,
    after which the effect runs; the current value gives none. *)
Definition setToken (newToken : option jstring) (p : provider) : provider :=
  if decide (token p = newToken) then p
  else effect {| token := newToken; localStorage := localStorage p |}.

Definition login (newToken : option jstring) (p : provider) : provider :=
  setToken newToken p.

Definition logout (p : provider) : provider := setToken None p.

(** What a private route shows: its element, or the redirection to the
    given path. *)
Inductive shown (E : Type) : Type :=
| Element (element : E)
| Navigate (to : jstring).
Arguments Element {E} element.
Arguments Navigate {E} to.

Definition PrivateRoute {E} (p : provider) (element : E) : shown E :=
  if isAuthenticated p then Element element else Navigate (lit "/login").

End App.

(* ===================================================================== *)
(** ** Dashboard.js: AgriTechHub *)
(* ===================================================================== *)

Module AgriTechHub.

(** [v || d] for a field of the answer that is a string or is missing
    ([None]): the empty string is falsy. *)
Definition orElse (v : option jstring) (d : jstring) : jstring :=
  match v with
  | Some s => if truthy s then s else d
  | None => d
  end.

(** The leaf U+1F33F, a surrogate pair. *)
Definition leaf : jstring := [55356%N; 57151%N].

(** handleDetect: the text handed to [setResult] when the response is ok.
    [disease], [cure_localized] and [language_] are the fields of the
    answer, [language] is the state of the component; the first character
    is the check mark U+2705. *)
Definition diagnosisResult (disease cure_localized language_ : option jstring)
    (language : jstring) : jstring :=
  let diseaseName := orElse disease (lit "N/A") in
  let cureText := orElse cure_localized (lit "No cure information available.") in
  let responseLang := orElse language_ language in
  [9989%N] ++ lit " **Diagnosis Complete**" ++ [LF; LF]
  ++ lit "**Disease Detected:** " ++ diseaseName ++ [LF; LF]
  ++ lit "--- " ++ leaf ++ lit " CURE (Generated by ai in " ++ responseLang ++ lit ") "
  ++ leaf ++ lit " ---" ++ [LF; LF]
  ++ cureText.

End AgriTechHub.

(* ===================================================================== *)
(** ** Dashboard.js: TimetableGenerator *)
(* ===================================================================== *)

Module TimetableGenerator.

(** The numbers that [parseInt] gives: NaN, an integer, or an infinity for
    a run of digits too long. *)
Inductive number : Type :=
| NaN
| Finite (z : Z)
| Infinite (positive : bool).

(** [!n], [n > 0] and [n < 1]. *)
Definition falsy (n : number) : bool :=
  match n with
  | NaN => true
  | Finite z => Z.eqb z 0
  | Infinite _ => false
  end.

Definition gt0 (n : number) : bool :=
  match n with
  | NaN => false
  | Finite z => Z.ltb 0 z
  | Infinite positive => positive
  end.

Definition lt1 (n : number) : bool :=
  match n with
  | NaN => false
  | Finite z => Z.ltb z 1
  | Infinite positive => negb positive
  end.

(** An entry of the state [subjects]. *)
Record entry := { subject : jstring; chapters : number }.

(** The two fields that the form changes. *)
Inductive field : Type := subject_field | chapters_field.

Definition handleAddSubject (subjects : list entry) : list entry :=
  subjects ++ [ {| subject := []; chapters := Finite 1 |} ].

Definition handleRemoveSubject (index : nat) (subjects : list entry) : list entry :=
  filteri (fun _ i => negb (i =? index)) subjects.

Section Handlers.
(** [parseInt] belongs to the platform. *)
Variable parseInt : jstring -> number.

(** The state after the call.  The source copies the array and writes the
    field of the entry at [index] in place; the state that React keeps is
    the copy, with the changed entry at [index].  [None] is the TypeError
    of writing a property of [undefined] when [index] is not an index of
    [subjects]. *)
Definition handleSubjectChange (index : nat) (f : field) (value : jstring)
    (subjects : list entry) : option (list entry) :=
  match subjects !! index with
  | None => None
  | Some e =>
      let e' :=
        match f with
        | chapters_field =>
            {| subject := subject e;
               chapters := if falsy (parseInt value) then Finite 0 else parseInt value |}
        | subject_field => {| subject := value; chapters := chapters e |}
        end in
      Some (<[ index := e' ]> subjects)
  end.
End Handlers.

(** What [handleGenerate] does before it waits for the server: it sets an
    error and returns, or sends a request. *)
Inductive outcome : Type :=
| Rejected (error : jstring)
| Request (subjects : list entry) (total_days : number).

Definition isValid (s : entry) : bool :=
  negb (eqs (trim (subject s)) []) && gt0 (chapters s).

Definition handleGenerate (subjects : list entry) (totalDays : number) : outcome :=
  if (length subjects =? 0) || lt1 totalDays then
    Rejected (lit "Please add at least one subject and specify total days.")
  else
    let validSubjects := List.filter isValid subjects in
    if length validSubjects =? 0 then
      Rejected (lit "Please ensure all subjects have a name and positive number of chapters.")
    else Request validSubjects totalDays.

(** The text handed to [setResult] when the response is ok.  The two
    arguments are the texts that the template puts in place of the number
    [totalDays] and of [data.timetable_markdown]; the first character is
    the check mark U+2705. *)
Definition generatedResult (totalDays timetable_markdown : jstring) : jstring :=
  [9989%N] ++ lit " **Timetable Generated Successfully!**" ++ [LF; LF]
  ++ lit "**Study Period:** " ++ totalDays ++ lit " days." ++ [LF; LF]
  ++ timetable_markdown.






End TimetableGenerator.

(* ===================================================================== *)
(** ** Notions used to state the further properties *)
(* ===================================================================== *)

(** The literal text every match of a regular expression starts with. *)
Fixpoint headLit (r : re) : jstring :=
  match r with
  | Chr c => [c]
  | Seq a b =>
      match a with
      | Chr c => c :: headLit b
      | Bol => headLit b
      | _ => headLit a
      end
  | Group _ a => headLit a
  | _ => []
  end.

(** A regular expression without [^]: its matches do not depend on what
    stands before the position they start at. *)
Fixpoint noBol (r : re) : bool :=
  match r with
  | Bol => false
  | Seq a b | Alt a b => noBol a && noBol b
  | Group _ a | Ahead a => noBol a
  | _ => true
  end.

(** Two positions, or two outcomes of a match, that differ at most in the
    character before. *)
Definition samePos (x y : pos) : Prop := rest x = rest y /\ caps x = caps y.
Definition sameOutcome (o o' : option pos) : Prop :=
  match o, o' with
  | Some x, Some y => samePos x y
  | None, None => True
  | _, _ => False
  end.

(** The last two passes as one scan: two line feeds give a paragraph break,
    a single one a line break. *)
Fixpoint normalizeNewlines (s : jstring) : jstring :=
  match s with
  | [] => []
  | c :: s' =>
      if N.eqb c LF then
        match s' with
        | d :: s'' =>
            if N.eqb d LF then lit "<p></p>" ++ normalizeNewlines s''
            else lit "<br>" ++ normalizeNewlines s'
        | [] => lit "<br>"
        end
      else c :: normalizeNewlines s'
  end.

(** The characters a pass other than the last two looks for first: the
    backtick, the pipe, the hash, the star and the dash. *)
Definition isMarkup (c : N) : bool :=
  N.eqb c 96 || N.eqb c 124 || N.eqb c 35 || N.eqb c 42 || N.eqb c 45.

(** The character before the position reached after the text [u]. *)
Fixpoint lastBefore (b : option N) (u : jstring) : option N :=
  match u with
  | [] => b
  | c :: u' => lastBefore (Some c) u'
  end.

(** A fence starts at the head of [s]: three backticks, and three more
    somewhere after them. *)
Definition fenceAt (s : jstring) : bool :=
  startsWith (lit "```") s && includes (lit "```") (drop 3 s).

(** No fence starts anywhere in [s]. *)
Fixpoint noFenceIn (s : jstring) : bool :=
  negb (fenceAt s) && match s with [] => true | _ :: s' => noFenceIn s' end.

(** The sum of the row spans written for the groups of a timetable. *)
Definition spanTotal (groups : gmap (list N) group) : nat :=
  map_fold (fun _ g acc => count g + acc) 0 groups.

(** The characters of the line break after the header line of a table. *)
Definition isBreak (c : N) : bool := N.eqb c CR || N.eqb c LF.

(** The block of a table ends at the end of the text, or before a line
    feed that is followed by a character other than the pipe. *)
Definition blockEndsAt (s : jstring) : bool :=
  match s with
  | [] => true
  | c :: s' =>
      N.eqb c LF && match s' with d :: _ => negb (N.eqb d pipe) | [] => false end
  end.

(** The text up to the first place where the block ends, and the text from
    there on. *)
Fixpoint splitBlock (s : jstring) : jstring * jstring :=
  match s with
  | [] => ([], [])
  | c :: s' =>
      if blockEndsAt s then ([], s)
      else (c :: fst (splitBlock s'), snd (splitBlock s'))
  end.

(** Two positions that the matcher cannot tell apart: the same text ahead,
    the same captures, and both or neither at the start of a line. *)
Definition samePosAt (f : flags) (x y : pos) : Prop :=
  atBol f (before x) = atBol f (before y) /\ rest x = rest y /\ caps x = caps y.

(** The characters of a plain line: no markup character, no opening angle
    bracket and no line feed. *)
Definition isPlain (c : N) : bool :=
  negb (isMarkup c) && negb (N.eqb c 60) && negb (N.eqb c LF).

(** The calls made on the provider between two renders of the page. *)
Inductive call : Type :=
| Login (newToken : option jstring)
| Logout.

Definition perform (p : App.provider) (c : call) : App.provider :=
  match c with
  | Login newToken => App.login newToken p
  | Logout => App.logout p
  end.

(** The stored token mirrors the state: it is the token when the user is
    authenticated, and there is none when not. *)
Definition mirrored (p : App.provider) : Prop :=
  App.localStorage p !! lit "token" =
  if App.isAuthenticated p then App.token p else None.

(** The literal [p] differs from the text [s] at a position that both
    have: no text that starts with [s] starts with [p]. *)
Fixpoint mismatch (p s : jstring) : bool :=
  match p, s with
  | c :: p', d :: s' => if N.eqb c d then mismatch p' s' else true
  | _, _ => false
  end.

(** At no position of [s] can the literal [p] start, whatever follows [s]. *)
Fixpoint noStart (p s : jstring) : bool :=
  match s with
  | [] => true
  | _ :: s' => mismatch p s && noStart p s'
  end.

(* ===================================================================== *)
(** ** Regular expressions anchored at both ends *)
(* ===================================================================== *)

Section Anchored.

Lemma searchFrom_Bol_inside (r : re) (c : N) (s : jstring) :
  searchFrom noflags (Seq Bol r) (Some c) s = false.
Proof.
  revert c. induction s as [|d s IH]; intros c; [reflexivity|].
  change (searchFrom noflags (Seq Bol r) (Some d) s = false). apply IH.
Qed.

Lemma test_Bol (r : re) (s : jstring) :
  test noflags (Seq Bol r) s =
  match matchAt noflags (Seq Bol r) None s with Some _ => true | None => false end.
Proof.
  unfold test. destruct s as [|c s]; simpl; [reflexivity|].
  destruct (matchAt noflags (Seq Bol r) None (c :: s)); [reflexivity|].
  apply searchFrom_Bol_inside.
Qed.

(** A greedy star followed by [$] succeeds exactly on the strings of the
    class. *)
Lemma greedy_Eol (p : N -> bool) (cs : list (nat * jstring)) (b : option N) (s : jstring) :
  match greedy p (fun b' s' => run noflags Eol
                                 {| before := b'; rest := s'; caps := cs |} Some) b s with
  | Some _ => true
  | None => false
  end = forallb p s.
Proof.
  revert b. induction s as [|c s IH]; intros b; simpl; [reflexivity|].
  destruct (p c) eqn:Hp; simpl; [|reflexivity].
  specialize (IH (Some c)).
  destruct (greedy p _ (Some c) s); simpl in *; [exact IH|]. exact IH.
Qed.


Lemma test_headerSeparatorRegex (h : jstring) :
  test noflags headerSeparatorRegex h = truthy h && forallb isDashColonSpace h.
Proof.
  unfold headerSeparatorRegex. rewrite test_Bol. unfold matchAt. simpl.
  destruct h as [|c h]; simpl; [reflexivity|].
  fold (isDashColonSpace c).
  destruct (isDashColonSpace c); simpl; [|reflexivity].
  apply (greedy_Eol isDashColonSpace [] (Some c) h).
Qed.

End Anchored.

(* ===================================================================== *)
(** ** The two forms of replace *)
(* ===================================================================== *)

Section Replace.

(** Replacing with a text is replacing with a function that cannot fail. *)
Lemma replaceFrom_pure (f : flags) (r : re) (fn : list (nat * jstring) -> jstring)
    (s : jstring) :
  forall skip b,
    replaceFrom f r (fun _ cs => Some (fn cs)) skip b s = Some (replacePure f r fn skip b s).
Proof.
  induction s as [|c s IH]; intros skip b.
  - destruct skip; cbn [replaceFrom replacePure]; [|reflexivity].
    destruct (matchAt f r b []); reflexivity.
  - destruct skip as [|n]; cbn [replaceFrom replacePure]; [|apply IH].
    destruct (matchAt f r b (c :: s)) as [y|]; cbn [mbind option_bind].
    + destruct (length (between (c :: s) (rest y))); rewrite IH; reflexivity.
    + rewrite IH. reflexivity.
Qed.

Lemma replaceWith_pure (f : flags) (r : re) (fn : list (nat * jstring) -> jstring)
    (s : jstring) :
  replaceWith f r (fun _ cs => Some (fn cs)) s = Some (replace f r fn s).
Proof. apply replaceFrom_pure. Qed.

End Replace.

(* ===================================================================== *)
(** ** The row test of the two loops *)
(* ===================================================================== *)

Section RowTest.

(** A greedy star stops at the first character outside its class; if the
    rest of the pattern matches from there, the whole does. *)
Lemma greedy_stop {A} (p : N -> bool) (k : option N -> jstring -> option A)
    (a : jstring) (x : N) (s : jstring) :
  forallb p a = true -> p x = false ->
  (forall b, is_Some (k b (x :: s))) ->
  forall b, is_Some (greedy p k b (a ++ x :: s)).
Proof.
  intros Ha Hx Hk. induction a as [|c a IH]; intros b; cbn [app greedy].
  - rewrite Hx. apply Hk.
  - cbn [forallb] in Ha. apply andb_prop in Ha as [Hc Ha]. rewrite Hc.
    destruct (IH Ha (Some c)) as [r ->]. eauto.
Qed.

(** The separator pattern accepts every row whose first two cells are made
    of characters between the space and the colon: blanks, digits, periods,
    dashes and the like. *)
Lemma rowSeparatorRegex_range (a b c : jstring) :
  forallb (N_in 32 58) a = true -> forallb (N_in 32 58) b = true ->
  test noflags rowSeparatorRegex (pipe :: a ++ pipe :: b ++ pipe :: c) = true.
Proof.
  intros Ha Hb. unfold rowSeparatorRegex. rewrite test_Bol. unfold matchAt.
  cbn [run atBol before rest caps N.eqb pipe Pos.eqb].
  match goal with
  | |- match ?g with Some _ => true | None => false end = true =>
      assert (Hg : is_Some g); [|destruct Hg as [r ->]; reflexivity]
  end.
  apply (greedy_stop (N_in 32 58)); [exact Ha|reflexivity|].
  intros b1. cbn [run rest before caps N.eqb pipe Pos.eqb].
  apply (greedy_stop (N_in 32 58)); [exact Hb|reflexivity|].
  intros b2. cbn [run rest before caps N.eqb pipe Pos.eqb]. eauto.
Qed.

Lemma trimStart_app (u : jstring) (x : N) (v : jstring) :
  isSpace x = false -> trimStart (u ++ x :: v) = trimStart u ++ x :: v.
Proof.
  intros Hx. induction u as [|c u IH]; cbn [app trimStart].
  - rewrite Hx. reflexivity.
  - destruct (isSpace c); [exact IH|reflexivity].
Qed.

Lemma trimEnd_app (l : jstring) (x : N) (c : jstring) :
  isSpace x = false -> trimEnd (l ++ x :: c) = l ++ x :: trimEnd c.
Proof.
  intros Hx. unfold trimEnd. rewrite rev_app_distr. cbn [rev].
  rewrite <- app_assoc. cbn [app]. rewrite (trimStart_app _ _ _ Hx).
  rewrite rev_app_distr. cbn [rev]. rewrite rev_involutive, <- app_assoc. reflexivity.
Qed.

Lemma trim_row (a b c : jstring) :
  trim (pipe :: a ++ pipe :: b ++ pipe :: c) = pipe :: a ++ pipe :: b ++ pipe :: trimEnd c.
Proof.
  assert (Hassoc : forall d, pipe :: a ++ pipe :: b ++ pipe :: d
                             = (pipe :: a ++ pipe :: b) ++ pipe :: d).
  { intros d. cbn [app]. rewrite <- app_assoc. reflexivity. }
  unfold trim. cbn [trimStart]. change (isSpace pipe) with false. cbv iota.
  rewrite (Hassoc c), trimEnd_app by reflexivity. symmetry. apply Hassoc.
Qed.

(** Such a row is taken for a separator and gives no record. *)
Lemma row_in_range_is_rejected (a b c : jstring) :
  forallb (N_in 32 58) a = true -> forallb (N_in 32 58) b = true ->
  isContentRow (pipe :: a ++ pipe :: b ++ pipe :: c) = false.
Proof.
  intros Ha Hb. unfold isContentRow. rewrite trim_row.
  rewrite (rowSeparatorRegex_range a b (trimEnd c) Ha Hb). apply andb_false_r.
Qed.

End RowTest.

(* ===================================================================== *)
(** ** The parse loop of the timetable *)
(* ===================================================================== *)

Section ParseLoop.

Lemma nth_pad4 (i : nat) (rawCells : list jstring) :
  nth i (pad4 rawCells) [] = nth i rawCells [].
Proof.
  unfold pad4. destruct (Nat.lt_ge_cases i (length rawCells)) as [Hlt|Hge].
  - apply app_nth1. exact Hlt.
  - rewrite app_nth2 by exact Hge. rewrite (nth_overflow rawCells) by exact Hge.
    generalize (i - length rawCells) as j. generalize (4 - length rawCells) as n.
    induction n as [|n IH]; intros [|j]; simpl; auto.
Qed.

Lemma addRow_currentDay (st : parser) (rawCells : list jstring) :
  currentDay (addRow st rawCells) = rowDay (currentDay st) rawCells.
Proof. unfold addRow, rowDay. cbn [currentDay]. rewrite nth_pad4. reflexivity. Qed.

Lemma addRow_tableData (st : parser) (rawCells : list jstring) :
  tableData (addRow st rawCells) =
  tableData st ++ [ {| day := rowDay (currentDay st) rawCells;
                       subjectCells := rowCells rawCells |} ].
Proof.
  unfold addRow, rowDay, rowCells. cbn [tableData]. rewrite !nth_pad4.
  destruct (startsWith (lit "Day") (nth 0 rawCells [])); reflexivity.
Qed.

Lemma addRow_rowGroups (st : parser) (rawCells : list jstring) :
  rowGroups (addRow st rawCells) =
  let k := dayText (rowDay (currentDay st) rawCells) in
  match rowGroups st !! k with
  | Some g => <[ k := {| count := S (count g); firstRowIndex := firstRowIndex g |} ]> (rowGroups st)
  | None => <[ k := {| count := 1; firstRowIndex := length (tableData st) |} ]> (rowGroups st)
  end.
Proof.
  unfold addRow, rowDay. cbn [rowGroups tableData]. rewrite !nth_pad4.
  rewrite length_app. cbn [length]. replace (length (tableData st) + 1 - 1) with (length (tableData st)) by lia.
  destruct (startsWith (lit "Day") (nth 0 rawCells [])); reflexivity.
Qed.

Lemma fold_addRow_tableData (rows : list (list jstring)) (st : parser) :
  tableData (fold_left addRow rows st) = tableData st ++ records (currentDay st) rows.
Proof.
  revert st. induction rows as [|rawCells rows IH]; intros st; simpl.
  - rewrite app_nil_r. reflexivity.
  - rewrite IH, addRow_tableData, addRow_currentDay, <- app_assoc. reflexivity.
Qed.

(** *** Keys, first positions and counts *)

Lemma firstIndex_snoc (k k0 : list N) (ks : list (list N)) :
  firstIndex k (ks ++ [k0]) =
  match firstIndex k ks with
  | Some i => Some i
  | None => if decide (k0 = k) then Some (length ks) else None
  end.
Proof.
  induction ks as [|k' ks IH]; simpl.
  - destruct (decide (k0 = k)); reflexivity.
  - destruct (decide (k' = k)); [reflexivity|]. rewrite IH.
    destruct (firstIndex k ks); simpl; [reflexivity|].
    destruct (decide (k0 = k)); reflexivity.
Qed.

Lemma occurrences_snoc (k k0 : list N) (ks : list (list N)) :
  occurrences k (ks ++ [k0]) = occurrences k ks + (if decide (k0 = k) then 1 else 0).
Proof.
  unfold occurrences. rewrite filter_app, length_app. f_equal.
  rewrite filter_cons, filter_nil. destruct (decide (k0 = k)); reflexivity.
Qed.

Lemma firstIndex_None (k : list N) (ks : list (list N)) :
  firstIndex k ks = None -> occurrences k ks = 0.
Proof.
  unfold occurrences. induction ks as [|k' ks IH]; simpl; [reflexivity|].
  rewrite filter_cons. destruct (decide (k' = k)); [discriminate|].
  destruct (firstIndex k ks); [discriminate|]. intros _. apply IH. reflexivity.
Qed.

Lemma firstIndex_elem (k : list N) (ks : list (list N)) :
  In k ks -> is_Some (firstIndex k ks).
Proof.
  induction ks as [|k' ks IH]; simpl; [tauto|].
  intros [->|Hin]; destruct (decide _) as [|Hne]; eauto; try congruence.
  destruct (IH Hin) as [i ->]. eauto.
Qed.

Lemma groupsAgree_initial : groupsAgree (rowGroups initial) (keys (tableData initial)).
Proof. intros k. simpl. apply lookup_empty. Qed.

Lemma keys_snoc (rows : list rowObject) (r : rowObject) :
  keys (rows ++ [r]) = keys rows ++ [dayText (day r)].
Proof. unfold keys. rewrite map_app. reflexivity. Qed.

Lemma length_keys (rows : list rowObject) : length (keys rows) = length rows.
Proof. unfold keys. apply length_map. Qed.

Lemma groupsAgree_addRow (st : parser) (rawCells : list jstring) :
  groupsAgree (rowGroups st) (keys (tableData st)) ->
  groupsAgree (rowGroups (addRow st rawCells)) (keys (tableData (addRow st rawCells))).
Proof.
  intros Hst k. rewrite addRow_rowGroups, addRow_tableData, keys_snoc. cbn [day].
  set (k0 := dayText (rowDay (currentDay st) rawCells)).
  rewrite firstIndex_snoc, occurrences_snoc, length_keys.
  pose proof (Hst k0) as H0. pose proof (Hst k) as Hk.
  destruct (decide (k0 = k)) as [->|Hne].
  - destruct (firstIndex k (keys (tableData st))) as [i|] eqn:Hi; simpl in *.
    + rewrite Hk. rewrite lookup_insert_eq. simpl. f_equal. f_equal. lia.
    + rewrite Hk. rewrite lookup_insert_eq. simpl.
      rewrite (firstIndex_None _ _ Hi). reflexivity.
  - assert (Hother : forall g, <[k0:=g]> (rowGroups st) !! k = rowGroups st !! k)
      by (intros g; apply lookup_insert_ne; exact Hne).
    destruct (rowGroups st !! k0); rewrite Hother, Hk;
      destruct (firstIndex k (keys (tableData st))); simpl;
      rewrite ?Nat.add_0_r; reflexivity.
Qed.

Lemma groupsAgree_fold (rows : list (list jstring)) (st : parser) :
  groupsAgree (rowGroups st) (keys (tableData st)) ->
  groupsAgree (rowGroups (fold_left addRow rows st))
              (keys (tableData (fold_left addRow rows st))).
Proof.
  revert st. induction rows as [|rawCells rows IH]; intros st Hst; simpl; [exact Hst|].
  apply IH, groupsAgree_addRow, Hst.
Qed.

(** *** From lines to accepted rows *)

Lemma parseRow_acceptedCells (st : parser) (row : jstring) :
  parseRow st row =
  match acceptedCells row with Some rawCells => addRow st rawCells | None => st end.
Proof.
  unfold parseRow, acceptedCells. destruct (isContentRow row); cbn [andb]; [|reflexivity].
  destruct (3 <=? length (rawCellsOf row)); reflexivity.
Qed.

Lemma fold_parseRow (lines : list jstring) (st : parser) :
  fold_left parseRow lines st = fold_left addRow (omap acceptedCells lines) st.
Proof.
  revert st. induction lines as [|row lines IH]; intros st; simpl; [reflexivity|].
  rewrite IH, parseRow_acceptedCells. destruct (acceptedCells row); reflexivity.
Qed.

Lemma parseContent_validRows (contentBlock : jstring) :
  parseContent contentBlock = fold_left addRow (validRows contentBlock) initial.
Proof. apply fold_parseRow. Qed.

Lemma tableData_parseContent (contentBlock : jstring) :
  tableData (parseContent contentBlock) = records None (validRows contentBlock).
Proof. rewrite parseContent_validRows, fold_addRow_tableData. reflexivity. Qed.

Lemma groupsAgree_parseContent (contentBlock : jstring) :
  groupsAgree (rowGroups (parseContent contentBlock))
              (keys (records None (validRows contentBlock))).
Proof.
  rewrite <- tableData_parseContent, parseContent_validRows.
  apply groupsAgree_fold, groupsAgree_initial.
Qed.


End ParseLoop.

(* ===================================================================== *)
(** ** Carrying the key forward *)
(* ===================================================================== *)

Section CarryForward.

Lemma fold_addRow_currentDay (rows : list (list jstring)) (st : parser) :
  currentDay (fold_left addRow rows st) = fold_left rowDay rows (currentDay st).
Proof.
  revert st. induction rows as [|rawCells rows IH]; intros st; cbn [fold_left]; [reflexivity|].
  rewrite IH, addRow_currentDay. reflexivity.
Qed.

Lemma records_app (a b : list (list jstring)) :
  forall carried,
    records carried (a ++ b) = records carried a ++ records (fold_left rowDay a carried) b.
Proof.
  induction a as [|rawCells a IH]; intros carried; cbn [records app fold_left]; [reflexivity|].
  rewrite IH. reflexivity.
Qed.

Lemma length_records (rows : list (list jstring)) :
  forall carried, length (records carried rows) = length rows.
Proof.
  induction rows as [|rawCells rows IH]; intros carried; cbn [records length]; [reflexivity|].
  rewrite IH. reflexivity.
Qed.

Lemma rowDay_inherit (carried : option jstring) (rawCells : list jstring) :
  namesDay rawCells = false -> rowDay carried rawCells = carried.
Proof. unfold namesDay, rowDay. intros ->. reflexivity. Qed.

Lemma rowDay_names (carried : option jstring) (rawCells : list jstring) :
  namesDay rawCells = true -> rowDay carried rawCells = Some (nth 0 rawCells []).
Proof. unfold namesDay, rowDay. intros ->. reflexivity. Qed.

Lemma records_inherit (rows : list (list jstring)) (carried : option jstring) :
  Forall (fun rawCells => namesDay rawCells = false) rows ->
  records carried rows =
    map (fun rawCells => {| day := carried; subjectCells := rowCells rawCells |}) rows
  /\ fold_left rowDay rows carried = carried.
Proof.
  induction 1 as [|rawCells rows Hrow _ IH]; cbn [records map fold_left]; [split; reflexivity|].
  rewrite (rowDay_inherit _ _ Hrow). destruct IH as [-> ->]. split; reflexivity.
Qed.

Lemma isDayKey_rowDay (carried : option jstring) (rawCells : list jstring) :
  isDayKey carried \/ namesDay rawCells = true -> isDayKey (rowDay carried rawCells).
Proof.
  unfold rowDay, namesDay. destruct (startsWith (lit "Day") (nth 0 rawCells [])) eqn:Hd.
  - intros _. exists (nth 0 rawCells []). split; [reflexivity|exact Hd].
  - intros [H|H]; [exact H|discriminate H].
Qed.

Lemma records_isDayKey (rows : list (list jstring)) :
  forall carried,
    isDayKey carried \/ (forall rawCells, head rows = Some rawCells -> namesDay rawCells = true) ->
    Forall (fun r => isDayKey (day r)) (records carried rows).
Proof.
  induction rows as [|rawCells rows IH]; intros carried Hc; cbn [records]; constructor.
  - cbn [day]. apply isDayKey_rowDay. destruct Hc as [Hc|Hc]; [left; exact Hc|].
    right. apply Hc. reflexivity.
  - apply IH. left. apply isDayKey_rowDay. destruct Hc as [Hc|Hc]; [left; exact Hc|].
    right. apply Hc. reflexivity.
Qed.

Lemma isDayKey_not_null (d : option jstring) : isDayKey d -> dayText d <> lit "null".
Proof.
  intros (s & -> & Hs) Heq. cbn [dayText] in Heq. rewrite Heq in Hs.
  vm_compute in Hs. discriminate Hs.
Qed.

Lemma occurrences_app (k : list N) (a b : list (list N)) :
  occurrences k (a ++ b) = occurrences k a + occurrences k b.
Proof. unfold occurrences. rewrite filter_app, length_app. reflexivity. Qed.

Lemma occurrences_none (k : list N) (ks : list (list N)) :
  Forall (fun k' => k' <> k) ks -> occurrences k ks = 0.
Proof.
  unfold occurrences. induction 1 as [|k' ks Hk' _ IH]; [reflexivity|].
  rewrite filter_cons. destruct (decide (k' = k)); [contradiction|exact IH].
Qed.

Lemma occurrences_all (k : list N) (ks : list (list N)) :
  Forall (fun k' => k' = k) ks -> occurrences k ks = length ks.
Proof.
  unfold occurrences. induction 1 as [|k' ks Hk' _ IH]; [reflexivity|].
  rewrite filter_cons. destruct (decide (k' = k)); [|contradiction].
  cbn [length]. rewrite IH. reflexivity.
Qed.

Lemma keys_app (a b : list rowObject) : keys (a ++ b) = keys a ++ keys b.
Proof. unfold keys. apply map_app. Qed.

Lemma keys_inherited (carried : option jstring) (rows : list (list jstring)) :
  Forall (fun k' => k' = dayText carried)
    (keys (map (fun rawCells => {| day := carried; subjectCells := rowCells rawCells |}) rows)).
Proof. induction rows as [|rawCells rows IH]; cbn; constructor; [reflexivity|exact IH]. Qed.

Lemma keys_not_null (rows : list rowObject) :
  Forall (fun r => isDayKey (day r)) rows ->
  Forall (fun k' => k' <> lit "null") (keys rows).
Proof.
  induction 1 as [|r rows Hr _ IH]; cbn; constructor; [|exact IH].
  apply isDayKey_not_null, Hr.
Qed.

(** A line with fewer than three tokens between its outer pipes leaves the
    state of the loop as it was. *)
Lemma short_row_is_skipped (st : parser) (row : jstring) :
  length (rawCellsOf row) < 3 -> parseRow st row = st.
Proof.
  intros Hshort. unfold parseRow. destruct (isContentRow row); [|reflexivity].
  destruct (Nat.leb_spec 3 (length (rawCellsOf row))) as [Hge|_]; [lia|reflexivity].
Qed.

(** One record per line that the loop accepts. *)
Lemma accepted_rows_are_conserved (contentBlock : jstring) :
  length (tableData (parseContent contentBlock)) = length (validRows contentBlock).
Proof. rewrite tableData_parseContent. apply length_records. Qed.

End CarryForward.

(* ===================================================================== *)
(** ** Rendering of the two kinds of table *)
(* ===================================================================== *)

Section Rendering.

Lemma forEachRow_rowStrings (groups : gmap (list N) group) (rows : list rowObject) :
  forall index tableHtml,
    forEachRow groups index rows tableHtml =
    (fun rs => tableHtml ++ join rs) <$> rowStrings groups index rows.
Proof.
  induction rows as [|r rows IH]; intros index tableHtml; cbn [forEachRow rowStrings].
  - cbn. rewrite app_nil_r. reflexivity.
  - destruct (renderRow groups r index) as [x|]; cbn [mbind option_bind]; [|reflexivity].
    rewrite IH. destruct (rowStrings groups (S index) rows) as [rs|]; cbn; [|reflexivity].
    rewrite <- app_assoc. reflexivity.
Qed.

Lemma dayCell_spanCell (g : group) (d : option jstring) :
  dayCell g d = spanCell (count g) (dayText d).
Proof. reflexivity. Qed.

Lemma renderRow_agree (groups : gmap (list N) group) (ks : list (list N))
    (r : rowObject) (j : nat) :
  groupsAgree groups ks -> In (dayText (day r)) ks ->
  renderRow groups r j = Some (rowHtml ks r j).
Proof.
  intros Hg Hin. unfold renderRow, rowHtml. rewrite (Hg (dayText (day r))).
  destruct (firstIndex_elem _ _ Hin) as [i Hi]. rewrite Hi. cbn [fmap option_fmap option_map mbind option_bind firstRowIndex].
  rewrite dayCell_spanCell. cbn [count]. unfold dataCells.
  destruct (Nat.eqb_spec j i) as [->|Hne].
  - destruct (decide (Some i = Some i)); [reflexivity|congruence].
  - destruct (decide (Some i = Some j)) as [Heq|]; [|reflexivity]. congruence.
Qed.

Lemma rowStrings_agree (groups : gmap (list N) group) (ks : list (list N))
    (rows : list rowObject) :
  groupsAgree groups ks ->
  (forall r, In r rows -> In (dayText (day r)) ks) ->
  forall index, rowStrings groups index rows = Some (mapi_from index (rowHtml ks) rows).
Proof.
  intros Hg. induction rows as [|r rows IH]; intros Hin index; cbn [rowStrings mapi_from].
  - reflexivity.
  - rewrite (renderRow_agree groups ks r index Hg) by (apply Hin; left; reflexivity).
    cbn [mbind option_bind]. rewrite IH by (intros r' Hr'; apply Hin; right; exact Hr').
    reflexivity.
Qed.

(** The timetable renderer never throws, and writes one row per record. *)
Lemma renderTimetable_rows (headers : list jstring) (contentBlock : jstring) :
  renderTimetable headers contentBlock =
  Some (tableFrame headers
          (mapi (rowHtml (keys (records None (validRows contentBlock))))
                (records None (validRows contentBlock)))).
Proof.
  unfold renderTimetable. cbv zeta. rewrite forEachRow_rowStrings.
  rewrite tableData_parseContent.
  rewrite (rowStrings_agree _ _ _ (groupsAgree_parseContent contentBlock)).
  - reflexivity.
  - intros r Hr. unfold keys. apply in_map_iff. exists r. split; [reflexivity|exact Hr].
Qed.

Lemma mapi_from_lookup {A B} (f : A -> nat -> B) (l : list A) :
  forall i j x, l !! j = Some x -> mapi_from i f l !! j = Some (f x (i + j)).
Proof.
  induction l as [|y l IH]; intros i j x Hj; [discriminate|].
  destruct j as [|j]; cbn [mapi_from].
  - injection Hj as ->. rewrite Nat.add_0_r. reflexivity.
  - change (mapi_from (S i) f l !! j = Some (f x (i + S j))).
    rewrite (IH (S i) j x Hj). f_equal. f_equal. lia.
Qed.

Lemma length_mapi_from {A B} (f : A -> nat -> B) (l : list A) :
  forall i, length (mapi_from i f l) = length l.
Proof. induction l as [|y l IH]; intros i; cbn; [reflexivity|]. rewrite IH. reflexivity. Qed.

Lemma fold_simpleRow (lines : list jstring) :
  forall html,
    fold_left simpleRow lines html =
    html ++ join (map simpleRowHtml (List.filter simpleKept lines)).
Proof.
  induction lines as [|row lines IH]; intros html; cbn [fold_left List.filter map].
  - cbn. rewrite app_nil_r. reflexivity.
  - rewrite IH. unfold simpleRow, simpleKept at 2.
    destruct (isContentRow row); cbn [andb]; [|reflexivity].
    destruct (0 <? length (simpleCells row)); [|reflexivity].
    cbn [map join concat]. unfold simpleRowHtml at 2, dataCells.
    rewrite <- !app_assoc. reflexivity.
Qed.

Lemma renderSimple_rows (headers : list jstring) (contentBlock : jstring) :
  renderSimple headers contentBlock =
  tableFrame headers
    (map simpleRowHtml (List.filter simpleKept (split LF (trim contentBlock)))).
Proof. unfold renderSimple. cbv zeta. rewrite fold_simpleRow. reflexivity. Qed.

(** *** No pass throws *)

Lemma replaceFrom_total (f : flags) (r : re)
    (fn : jstring -> list (nat * jstring) -> option jstring) (s : jstring) :
  (forall m cs, is_Some (fn m cs)) ->
  forall skip b, is_Some (replaceFrom f r fn skip b s).
Proof.
  intros Hfn. induction s as [|c s IH]; intros skip b.
  - destruct skip; cbn [replaceFrom]; [|eauto].
    destruct (matchAt f r b []) as [y|]; [|eauto].
    destruct (Hfn (between [] (rest y)) (caps y)) as [out ->]. cbn. eauto.
  - destruct skip as [|n]; cbn [replaceFrom]; [|apply IH].
    destruct (matchAt f r b (c :: s)) as [y|].
    + destruct (Hfn (between (c :: s) (rest y)) (caps y)) as [out ->].
      cbn [mbind option_bind].
      destruct (length (between (c :: s) (rest y))) as [|n].
      * destruct (IH 0 (Some c)) as [tl ->]. cbn. eauto.
      * destruct (IH n (Some c)) as [tl ->]. cbn. eauto.
    + destruct (IH 0 (Some c)) as [tl ->]. cbn. eauto.
Qed.

Lemma tableReplacer_total (headerLine contentBlock : jstring) :
  is_Some (tableReplacer headerLine contentBlock).
Proof.
  unfold tableReplacer. destruct (negb (isTimetable (parseHeaders headerLine))); [eauto|].
  rewrite renderTimetable_rows. eauto.
Qed.

(** The component returns a fragment for every value of [content]. *)
Lemma MarkdownRenderer_total (content : jsvalue) : is_Some (MarkdownRenderer content).
Proof.
  destruct content as [html|]; cbn [MarkdownRenderer]; [|eauto].
  unfold tablePass, replaceWith.
  destruct (replaceFrom_total noflags tableRegex
              (fun _ cs => tableReplacer (capture 1 cs) (capture 2 cs)) (fencePass html)
              (fun _ cs => tableReplacer_total _ _) 0 None) as [out ->].
  cbn. eauto.
Qed.

End Rendering.

(* ===================================================================== *)
(** ** Simple tables *)
(* ===================================================================== *)

Section SimpleTable.

Lemma toLowerCase_equalsIgnoreCase (b : jstring) :
  toLowerCase b = b ->
  forall a, eqs (toLowerCase a) b = equalsIgnoreCase a b.
Proof.
  unfold eqs. induction b as [|y b IH]; intros Hb a.
  - destruct a; reflexivity.
  - destruct a as [|x a]; [reflexivity|].
    cbn [toLowerCase map equalsIgnoreCase] in *.
    injection Hb as Hy Hb. rewrite Hy. specialize (IH Hb a).
    destruct (N.eqb_spec (lowerChar x) y) as [->|Hne]; cbn [andb].
    + rewrite <- IH. apply bool_decide_ext. unfold toLowerCase. split; congruence.
    + apply bool_decide_eq_false. congruence.
Qed.

Lemma isTimetable_spec (headers : list jstring) :
  isTimetable headers =
  (4 <=? length headers) &&
  match headers with h :: _ => equalsIgnoreCase h (lit "day") | [] => false end.
Proof.
  unfold isTimetable. destruct headers as [|h headers]; [reflexivity|].
  cbn [nth]. rewrite toLowerCase_equalsIgnoreCase by reflexivity. reflexivity.
Qed.

Lemma parseHeaders_spec (headerLine : jstring) :
  parseHeaders headerLine =
  List.filter (fun h => truthy h && negb (forallb isDashColonSpace h))
              (map trim (split pipe headerLine)).
Proof.
  unfold parseHeaders. apply List.filter_ext. intros h.
  rewrite test_headerSeparatorRegex. destruct (truthy h); reflexivity.
Qed.

Lemma filter_all {A} (f : A -> bool) (l : list A) :
  forallb f l = true -> List.filter f l = l.
Proof.
  induction l as [|x l IH]; cbn [forallb List.filter]; [reflexivity|].
  destruct (f x); [|discriminate]. cbn [andb]. intros H. rewrite (IH H). reflexivity.
Qed.

End SimpleTable.

(* ===================================================================== *)
(** ** The video URL mapper *)
(* ===================================================================== *)

Section Mapper.

Lemma params_first (name v : jstring) (before after : list (jstring * jstring)) :
  Forall (fun p => fst p <> name) before ->
  existsb (fun p => eqs (fst p) name) (before ++ (name, v) :: after) = true /\
  find (fun p => eqs (fst p) name) (before ++ (name, v) :: after) = Some (name, v).
Proof.
  unfold eqs. induction 1 as [|p before Hp _ IH]; cbn [app existsb find fst].
  - rewrite bool_decide_eq_true_2 by reflexivity. split; reflexivity.
  - rewrite bool_decide_eq_false_2 by exact Hp. exact IH.
Qed.

Lemma params_absent (name : jstring) (params : list (jstring * jstring)) :
  Forall (fun p => fst p <> name) params ->
  existsb (fun p => eqs (fst p) name) params = false.
Proof.
  unfold eqs. induction 1 as [|p params Hp _ IH]; cbn [existsb]; [reflexivity|].
  rewrite bool_decide_eq_false_2 by exact Hp. exact IH.
Qed.

End Mapper.

(* ===================================================================== *)
(** ** The claims *)
(* ===================================================================== *)

(** C1.  Rows keyed Day 1, Day 2, Day 1: the groups are filed under the key
    alone, so the third row is counted in the group of the first.  The first
    row carries the Day 1 cell with a row span of 2 although the row under it
    belongs to Day 2, and the third row gets no leading cell. *)
Theorem C1_recurring_key_is_merged :
  rowGroups (parseContent recurringBlock) !! lit "Day 1"
    = Some {| count := 2; firstRowIndex := 0 |} /\
  renderTimetable timetableHeaders recurringBlock =
    Some (tableFrame timetableHeaders
      [ lit "<tr>" ++ spanCell 2 (lit "Day 1")
          ++ dataCells [lit "Math"; lit "1"; lit "9am"] ++ lit "</tr>";
        lit "<tr>" ++ spanCell 1 (lit "Day 2")
          ++ dataCells [lit "Art"; lit "2"; lit "10am"] ++ lit "</tr>";
        lit "<tr>" ++ dataCells [lit "Music"; lit "3"; lit "11am"] ++ lit "</tr>" ]) /\
  MarkdownRenderer (JString (timetableDocument recurringBlock)) =
    renderTimetable timetableHeaders recurringBlock.
Proof. repeat split; vm_compute; reflexivity. Qed.

(** C2.  The fenced-block pass wraps the trimmed interior, but the later
    passes run over the whole string, interior included.  In the fenced block
    [# a] the heading pass rewrites the interior together with the closing
    tags that follow it; in the block of [a], newline, [b] the newline pass
    rewrites the line break; a fenced table, the case the comment of the
    source names, is turned into an HTML table by the table pass, the closing
    tags of the fence ending up in a cell.  The interior is not left
    verbatim. *)
Theorem C2_fenced_interior_is_rewritten :
  let divOpen := tpl "<div style='background-color: #f8f9fa; border: 1px solid #e9ecef; border-radius: 0.25rem; padding: 1rem; overflow-x: auto; margin-top: 1rem; margin-bottom: 1rem;'>" in
  let preOpen := tpl "<pre style='margin: 0; white-space: pre-wrap; word-wrap: break-word;'><code>" in
  let rendered interior :=
    Some (lit "<br>" ++ spaces 12 ++ divOpen ++ lit "<br>" ++ spaces 16 ++ preOpen
          ++ interior
          ++ lit "<br>" ++ spaces 12 ++ lit "</div>" ++ lit "<br>" ++ spaces 8) in
  fencePass (lit "```# a```") = fenceReplacer (lit "# a") /\
  MarkdownRenderer (JString (lit "```# a```")) = rendered (lit "<h3>a</code></pre></h3>") /\
  MarkdownRenderer (JString (lit "```a" ++ [LF] ++ lit "b```")) =
    rendered (lit "a<br>b</code></pre>") /\
  MarkdownRenderer (JString (unlines ["```"; "| a | b |"; "| x | y |"; "```"]%string)) =
    rendered (tableFrame [lit "a"; lit "b"]
                [ lit "<tr>" ++ td (lit "x") ++ td (lit "y") ++ td (lit "</code></pre>")
                  ++ lit "</tr>" ]).
Proof. cbv zeta. repeat split; vm_compute; reflexivity. Qed.



(** C4.  A row whose day starts with Day makes that day the current key, and
    the rows after it whose day does not start with Day are stored under the
    same key.  The two rows (Day 1, Math, 1-2, 9am) and (empty, Science, 3,
    10am) are rendered as one group: the Day 1 cell is written once, on the
    first row, with a row span of 2. *)
Theorem C4_carry_forward (st : parser) (rawCells : list jstring)
    (followers : list (list jstring)) :
  namesDay rawCells = true ->
  Forall (fun follower => namesDay follower = false) followers ->
  tableData (fold_left addRow (rawCells :: followers) st) =
    tableData st ++
    map (fun cells => {| day := Some (nth 0 rawCells []); subjectCells := rowCells cells |})
        (rawCells :: followers) /\
  currentDay (fold_left addRow (rawCells :: followers) st) = Some (nth 0 rawCells []) /\
  validRows carryForwardBlock =
    [ [lit "Day 1"; lit "Math"; lit "1-2"; lit "9am"];
      [ []; lit "Science"; lit "3"; lit "10am"] ] /\
  renderTimetable timetableHeaders carryForwardBlock =
    Some (tableFrame timetableHeaders
      [ lit "<tr>" ++ spanCell 2 (lit "Day 1")
          ++ dataCells [lit "Math"; lit "1-2"; lit "9am"] ++ lit "</tr>";
        lit "<tr>" ++ dataCells [lit "Science"; lit "3"; lit "10am"] ++ lit "</tr>" ]) /\
  MarkdownRenderer (JString (timetableDocument carryForwardBlock)) =
    renderTimetable timetableHeaders carryForwardBlock.
Proof.
  intros Hday Hfollow.
  destruct (records_inherit followers (Some (nth 0 rawCells [])) Hfollow) as [Hrec Hcur].
  split; [|split; [|split; [|split]]].
  - rewrite fold_addRow_tableData. cbn [records map].
    rewrite (rowDay_names _ _ Hday), Hrec. reflexivity.
  - rewrite fold_addRow_currentDay. cbn [fold_left].
    rewrite (rowDay_names _ _ Hday). exact Hcur.
  - vm_compute. reflexivity.
  - vm_compute. reflexivity.
  - vm_compute. reflexivity.
Qed.

Lemma C4_carry_forward_witness :
  let rawCells := [lit "Day 1"; lit "Math"; lit "1-2"; lit "9am"] in
  let followers := [ [ []; lit "Science"; lit "3"; lit "10am"] ] in
  namesDay rawCells = true /\
  Forall (fun follower => namesDay follower = false) followers /\
  tableData (fold_left addRow (rawCells :: followers) initial) =
    [ {| day := Some (lit "Day 1"); subjectCells := [lit "Math"; lit "1-2"; lit "9am"] |};
      {| day := Some (lit "Day 1"); subjectCells := [lit "Science"; lit "3"; lit "10am"] |} ] /\
  currentDay (fold_left addRow (rawCells :: followers) initial) = Some (lit "Day 1") /\
  validRows carryForwardBlock = rawCells :: followers /\
  renderTimetable timetableHeaders carryForwardBlock =
    Some (tableFrame timetableHeaders
      [ lit "<tr>" ++ spanCell 2 (lit "Day 1")
          ++ dataCells [lit "Math"; lit "1-2"; lit "9am"] ++ lit "</tr>";
        lit "<tr>" ++ dataCells [lit "Science"; lit "3"; lit "10am"] ++ lit "</tr>" ]) /\
  MarkdownRenderer (JString (timetableDocument carryForwardBlock)) =
    renderTimetable timetableHeaders carryForwardBlock.
Proof.
  cbv zeta.
  assert (Hday : namesDay [lit "Day 1"; lit "Math"; lit "1-2"; lit "9am"] = true)
    by reflexivity.
  assert (Hfollow : Forall (fun follower => namesDay follower = false)
                           [ [ []; lit "Science"; lit "3"; lit "10am"] ])
    by (repeat constructor).
  split; [exact Hday|]. split; [exact Hfollow|].
  exact (C4_carry_forward initial _ _ Hday Hfollow).
Defined.

(** C5.  The table is rendered as a timetable if and only if its filtered
    headers are at least four and the first one equals day up to the case of
    its letters; then the rows are those of the grouped renderer.  Any other
    table gets the simple rows: one row of plain cells per kept line, no cell
    spanning several rows. *)
Theorem C5_grouped_iff_day_header (headerLine contentBlock : jstring) :
  let headers := parseHeaders headerLine in
  let grouped :=
    (4 <=? length headers) &&
    match headers with h :: _ => equalsIgnoreCase h (lit "day") | [] => false end in
  isTimetable headers = grouped /\
  tableReplacer headerLine contentBlock =
    (if grouped then renderTimetable headers contentBlock
     else Some (renderSimple headers contentBlock)) /\
  renderTimetable headers contentBlock =
    Some (tableFrame headers
            (mapi (rowHtml (keys (records None (validRows contentBlock))))
                  (records None (validRows contentBlock)))) /\
  renderSimple headers contentBlock =
    tableFrame headers
      (map simpleRowHtml (List.filter simpleKept (split LF (trim contentBlock)))).
Proof.
  cbv zeta. split; [apply isTimetable_spec|]. split.
  - unfold tableReplacer. rewrite <- isTimetable_spec.
    destruct (isTimetable (parseHeaders headerLine)); reflexivity.
  - split; [apply renderTimetable_rows | apply renderSimple_rows].
Qed.

(** C6.  For the two bullet lines [* a] and [* b] the list pass wraps each
    item in a container of its own; the newline between the two containers
    keeps the pattern that joins adjacent containers from matching, and the
    final pass turns that newline into a line break.  The output has two
    containers of one item each. *)
Theorem C6_two_bullets_two_containers :
  listPass (lit "* a" ++ [LF] ++ lit "* b") =
    lit "<ul><li>a</li></ul>" ++ [LF] ++ lit "<ul><li>b</li></ul>" /\
  MarkdownRenderer (JString (lit "* a" ++ [LF] ++ lit "* b")) =
    Some (lit "<ul><li>a</li></ul><br><ul><li>b</li></ul>").
Proof. split; vm_compute; reflexivity. Qed.

(** C7, counterexample.  In the row [| x | | z |] the cell between x and z is
    empty.  Dropping only the empty tokens at both ends leaves three cells;
    the simple renderer drops every empty token and writes two. *)
Lemma C7_interior_empty_cell_is_dropped :
  specSimpleCells (lit "| x | | z |") = [lit "x"; []; lit "z"] /\
  simpleCells (lit "| x | | z |") = [lit "x"; lit "z"] /\
  renderSimple [lit "a"; lit "b"; lit "c"] (lit "| x | | z |") =
    tableFrame [lit "a"; lit "b"; lit "c"]
      [ lit "<tr>" ++ td (lit "x") ++ td (lit "z") ++ lit "</tr>" ].
Proof. repeat split; vm_compute; reflexivity. Qed.

(** C7, amended.  For every simple table: the header row has one cell per
    header label that is neither empty nor made of dashes, colons and spaces;
    each content line that passes the row test of the loop and has a
    non-empty token gives one body row, in order, with one cell per non-empty
    trimmed token (every empty token is dropped, the interior ones too), and
    the other lines give nothing; so when each of the N lines passes the test
    and has a non-empty token there are exactly N body rows.  No padding, no
    grouping and no shift correction take place. *)
Theorem C7_simple_table_shape (headerLine contentBlock : jstring) :
  let headers := parseHeaders headerLine in
  let lines := split LF (trim contentBlock) in
  headers = List.filter (fun h => truthy h && negb (forallb isDashColonSpace h))
                        (map trim (split pipe headerLine)) /\
  length (map th headers) = length headers /\
  renderSimple headers contentBlock =
    tableFrame headers (map simpleRowHtml (List.filter simpleKept lines)) /\
  (forall row,
     simpleRowHtml row =
       lit "<tr>" ++ join (map td (List.filter truthy (map trim (split pipe row))))
       ++ lit "</tr>" /\
     simpleKept row =
       isContentRow row && (0 <? length (List.filter truthy (map trim (split pipe row))))) /\
  (forallb simpleKept lines = true ->
     renderSimple headers contentBlock = tableFrame headers (map simpleRowHtml lines) /\
     length (map simpleRowHtml lines) = length lines).
Proof.
  cbv zeta. split; [apply parseHeaders_spec|]. split; [apply length_map|].
  split; [apply renderSimple_rows|]. split; [intros row; split; reflexivity|].
  intros Hall. rewrite renderSimple_rows, (filter_all _ _ Hall).
  split; [reflexivity|apply length_map].
Qed.

Lemma C7_simple_table_shape_witness :
  forallb simpleKept (split LF (trim (lit "| x | y |" ++ [LF] ++ lit "| z | 2 |"))) = true /\
  renderSimple (parseHeaders (lit "| a | b |" ++ [LF]))
               (lit "| x | y |" ++ [LF] ++ lit "| z | 2 |") =
    tableFrame [lit "a"; lit "b"]
      [ lit "<tr>" ++ td (lit "x") ++ td (lit "y") ++ lit "</tr>";
        lit "<tr>" ++ td (lit "z") ++ td (lit "2") ++ lit "</tr>" ] /\
  length (map simpleRowHtml
            (split LF (trim (lit "| x | y |" ++ [LF] ++ lit "| z | 2 |")))) = 2.
Proof.
  cbv zeta.
  assert (Hall : forallb simpleKept
                   (split LF (trim (lit "| x | y |" ++ [LF] ++ lit "| z | 2 |"))) = true)
    by (vm_compute; reflexivity).
  split; [exact Hall|].
  exact (proj2 (proj2 (proj2 (proj2
           (C7_simple_table_shape (lit "| a | b |" ++ [LF])
              (lit "| x | y |" ++ [LF] ++ lit "| z | 2 |"))))) Hall).
Defined.

(** C8.  The block has two data lines; both start with a pipe, both have
    four tokens between the outer pipes, neither is made of dashes, colons,
    pipes and spaces.  The second, whose first two cells are blank and [3],
    matches the separator pattern of the row loop, whose class [ -:] is the
    range from the space to the colon and so holds the digits; it is
    discarded.  One record is stored for two valid lines. *)
Theorem C8_numeric_row_is_dropped :
  let lines := split LF (trim numericBlock) in
  map rawCellsOf lines =
    [ [lit "Day 1"; lit "Math"; lit "1-2"; lit "9am"];
      [ []; lit "3"; lit "Chapter 1-3"; [] ] ] /\
  forallb (fun row => startsWith [pipe] (trim row)) lines = true /\
  forallb (fun row => negb (specSeparatorLine row)) lines = true /\
  map isContentRow lines = [true; false] /\
  tableData (parseContent numericBlock) =
    [ {| day := Some (lit "Day 1"); subjectCells := [lit "Math"; lit "1-2"; lit "9am"] |} ] /\
  MarkdownRenderer (JString (timetableDocument numericBlock)) =
    Some (tableFrame timetableHeaders
      [ lit "<tr>" ++ spanCell 1 (lit "Day 1")
          ++ dataCells [lit "Math"; lit "1-2"; lit "9am"] ++ lit "</tr>" ]).
Proof. repeat split; vm_compute; reflexivity. Qed.

(** C9, counterexample.  The short link https://youtu.be/ has no identifier:
    its path is the single slash.  The mapper does not fall back; it returns
    the embed prefix with an empty identifier. *)
Lemma C9_short_link_without_identifier :
  exampleURL (lit "https://youtu.be/") =
    Some {| hostname := lit "youtu.be"; pathname := lit "/"; searchParams := [] |} /\
  getYouTubeEmbedUrl exampleURL (lit "https://youtu.be/") = embedPrefix /\
  embedPrefix <> fallbackUrl.
Proof.
  split; [|split].
  - vm_compute. reflexivity.
  - vm_compute. reflexivity.
  - intros H. vm_compute in H. discriminate H.
Qed.

(** C9, amended.  The mapper returns a string for every input and every
    outcome of the URL constructor.  It returns the embed prefix followed by
    the value of the first v parameter when the host contains youtube.com and
    a v parameter is present, and the embed prefix followed by the path
    without its first character when the host is youtu.be, whatever that
    value or path is, the empty one included.  It returns the fixed default
    when the string is not a URL, and when the host is not youtu.be and
    either does not contain youtube.com or comes without a v parameter.
    https://example.com is mapped to the default. *)
Theorem C9_embed_url (newURL : jstring -> option URL) (url : jstring) :
  match newURL url with
  | None => getYouTubeEmbedUrl newURL url = fallbackUrl
  | Some u =>
      (forall before v after,
         searchParams u = before ++ (lit "v", v) :: after ->
         Forall (fun p => fst p <> lit "v") before ->
         includes (lit "youtube.com") (hostname u) = true ->
         getYouTubeEmbedUrl newURL url = embedPrefix ++ v) /\
      (hostname u = lit "youtu.be" ->
         getYouTubeEmbedUrl newURL url = embedPrefix ++ substring1 (pathname u)) /\
      (hostname u <> lit "youtu.be" ->
       includes (lit "youtube.com") (hostname u) = false
       \/ Forall (fun p => fst p <> lit "v") (searchParams u) ->
       getYouTubeEmbedUrl newURL url = fallbackUrl)
  end /\
  getYouTubeEmbedUrl exampleURL (lit "https://example.com") = fallbackUrl.
Proof.
  split; [|vm_compute; reflexivity].
  unfold getYouTubeEmbedUrl. destruct (newURL url) as [u|]; [|reflexivity].
  split; [|split].
  - intros before v after Hparams Hbefore Hhost.
    unfold searchParams_has, searchParams_get. rewrite Hhost, Hparams.
    destruct (params_first (lit "v") v before after Hbefore) as [-> ->]. reflexivity.
  - intros Hhost. rewrite Hhost.
    replace (includes (lit "youtube.com") (lit "youtu.be")) with false
      by (vm_compute; reflexivity).
    cbn [andb]. unfold eqs. rewrite bool_decide_eq_true_2 by reflexivity. reflexivity.
  - intros Hhost Hno.
    assert (Hwatch : includes (lit "youtube.com") (hostname u)
                     && searchParams_has (lit "v") u = false).
    { destruct Hno as [-> | Hno]; [reflexivity|].
      unfold searchParams_has. rewrite (params_absent _ _ Hno). apply andb_false_r. }
    rewrite Hwatch. unfold eqs. rewrite bool_decide_eq_false_2 by exact Hhost. reflexivity.
Qed.

Lemma C9_embed_url_witness :
  searchParams {| hostname := lit "www.youtube.com"; pathname := lit "/watch";
                  searchParams := [ (lit "v", lit "abc123") ] |}
    = [] ++ (lit "v", lit "abc123") :: [] /\
  getYouTubeEmbedUrl exampleURL (lit "https://www.youtube.com/watch?v=abc123")
    = embedPrefix ++ lit "abc123" /\
  getYouTubeEmbedUrl exampleURL (lit "https://youtu.be/abc123")
    = embedPrefix ++ lit "abc123".
Proof.
  split; [reflexivity|]. split.
  - exact (proj1 (proj1 (C9_embed_url exampleURL (lit "https://www.youtube.com/watch?v=abc123")))
             [] (lit "abc123") [] eq_refl (List.Forall_nil _) eq_refl).
  - exact (proj1 (proj2 (proj1 (C9_embed_url exampleURL (lit "https://youtu.be/abc123"))))
             eq_refl).
Defined.

(** C10.  When the first accepted rows of a timetable do not name a day,
    they are stored under the initial null key up to the first row that
    names one, and form one group: its leading cell, written on the first
    row, holds the text null and spans as many rows as that leading run. *)
Theorem C10_leading_rows_null_group (headers : list jstring) (contentBlock : jstring)
    (lead rest : list (list jstring)) :
  validRows contentBlock = lead ++ rest ->
  lead <> [] ->
  Forall (fun rawCells => namesDay rawCells = false) lead ->
  (forall rawCells, head rest = Some rawCells -> namesDay rawCells = true) ->
  rowGroups (parseContent contentBlock) !! lit "null"
    = Some {| count := length lead; firstRowIndex := 0 |} /\
  exists body,
    renderTimetable headers contentBlock = Some (tableFrame headers body) /\
    length body = length lead + length rest /\
    forall i rawCells, lead !! i = Some rawCells ->
      body !! i =
        Some (lit "<tr>"
              ++ (if i =? 0 then spanCell (length lead) (lit "null") else [])
              ++ dataCells (rowCells rawCells) ++ lit "</tr>").
Proof.
  intros Hrows Hlead Hnone Hrest.
  pose proof (groupsAgree_parseContent contentBlock) as Hagree.
  pose proof (renderTimetable_rows headers contentBlock) as Hrender.
  rewrite Hrows in Hagree, Hrender.
  rewrite records_app in Hagree, Hrender.
  destruct (records_inherit lead None Hnone) as [Hrec Hcur].
  rewrite Hrec, Hcur in Hagree, Hrender.
  set (leading := map (fun cells => {| day := None; subjectCells := rowCells cells |}) lead)
    in *.
  set (others := records None rest) in *.
  assert (Hothers : Forall (fun k' => k' <> lit "null") (keys others)).
  { apply keys_not_null, records_isDayKey. right. exact Hrest. }
  assert (Hfirst : firstIndex (lit "null") (keys (leading ++ others)) = Some 0).
  { subst leading. destruct lead as [|cells lead]; [contradiction|]. reflexivity. }
  assert (Hcount : occurrences (lit "null") (keys (leading ++ others)) = length lead).
  { rewrite keys_app, occurrences_app, (occurrences_none _ _ Hothers), Nat.add_0_r.
    subst leading. pose proof (occurrences_all _ _ (keys_inherited None lead)) as Hall.
    cbn [dayText] in Hall. rewrite Hall, length_keys, length_map. reflexivity. }
  split.
  - rewrite (Hagree (lit "null")), Hfirst, Hcount. reflexivity.
  - eexists. split; [exact Hrender|]. split.
    + unfold mapi. rewrite length_mapi_from, length_app. subst leading others.
      rewrite length_map, length_records. reflexivity.
    + intros i cells Hi. unfold mapi.
      assert (Hrow : (leading ++ others) !! i
                     = Some {| day := None; subjectCells := rowCells cells |}).
      { rewrite lookup_app_l.
        - subst leading. rewrite list_lookup_fmap, Hi. reflexivity.
        - subst leading. rewrite length_map. apply lookup_lt_Some in Hi. exact Hi. }
      rewrite (mapi_from_lookup _ _ 0 i _ Hrow). cbn [Nat.add].
      unfold rowHtml. cbn [day subjectCells dayText]. rewrite Hfirst, Hcount.
      destruct i as [|i].
      * destruct (decide (Some 0 = Some 0)); [reflexivity|congruence].
      * destruct (decide (Some 0 = Some (S i))) as [Heq|]; [discriminate Heq|reflexivity].
Qed.

Lemma C10_leading_rows_null_group_witness :
  let lead := [ [ []; lit "Science"; lit "3"; lit "10am"];
                [ lit "Mon"; lit "Art"; lit "4"; lit "11am"] ] in
  let rest := [ [ lit "Day 1"; lit "Math"; lit "1-2"; lit "9am"];
                [ []; lit "Music"; lit "5"; lit "1pm"] ] in
  validRows leadingBlock = lead ++ rest /\
  lead <> [] /\
  Forall (fun rawCells => namesDay rawCells = false) lead /\
  (forall rawCells, head rest = Some rawCells -> namesDay rawCells = true) /\
  rowGroups (parseContent leadingBlock) !! lit "null"
    = Some {| count := 2; firstRowIndex := 0 |} /\
  exists body,
    renderTimetable timetableHeaders leadingBlock = Some (tableFrame timetableHeaders body) /\
    length body = 4 /\
    forall i rawCells, lead !! i = Some rawCells ->
      body !! i =
        Some (lit "<tr>"
              ++ (if i =? 0 then spanCell 2 (lit "null") else [])
              ++ dataCells (rowCells rawCells) ++ lit "</tr>").
Proof.
  cbv zeta.
  assert (H1 : validRows leadingBlock =
               [ [ []; lit "Science"; lit "3"; lit "10am"];
                 [ lit "Mon"; lit "Art"; lit "4"; lit "11am"] ]
               ++ [ [ lit "Day 1"; lit "Math"; lit "1-2"; lit "9am"];
                    [ []; lit "Music"; lit "5"; lit "1pm"] ])
    by (vm_compute; reflexivity).
  assert (H2 : [ [ []; lit "Science"; lit "3"; lit "10am"];
                 [ lit "Mon"; lit "Art"; lit "4"; lit "11am"] ] <> [])
    by discriminate.
  assert (H3 : Forall (fun rawCells => namesDay rawCells = false)
                 [ [ []; lit "Science"; lit "3"; lit "10am"];
                   [ lit "Mon"; lit "Art"; lit "4"; lit "11am"] ])
    by (repeat constructor).
  assert (H4 : forall rawCells,
             head [ [ lit "Day 1"; lit "Math"; lit "1-2"; lit "9am"];
                    [ []; lit "Music"; lit "5"; lit "1pm"] ] = Some rawCells ->
             namesDay rawCells = true)
    by (intros rawCells [= <-]; reflexivity).
  split; [exact H1|]. split; [exact H2|]. split; [exact H3|]. split; [exact H4|].
  exact (C10_leading_rows_null_group timetableHeaders leadingBlock _ _ H1 H2 H3 H4).
Defined.

(* ===================================================================== *)
(** ** Further properties: facts on the matcher *)
(* ===================================================================== *)

Section MatcherFacts.

(** A match starts with the literal head of the expression. *)
Lemma run_headLit (f : flags) (r : re) :
  forall x k y, run f r x k = Some y -> startsWith (headLit r) (rest x) = true.
Proof.
  induction r as [c|p|p|p|p|a IHa b IHb|a IHa b IHb|i a IHa|a IHa| |];
    intros x k y Hrun; try reflexivity.
  - cbn [run] in Hrun. cbn [headLit startsWith].
    destruct (rest x) as [|d s']; [discriminate|].
    destruct (N.eqb_spec d c) as [->|]; [|discriminate].
    rewrite N.eqb_refl. reflexivity.
  - cbn [run] in Hrun. destruct a; cbn [headLit]; try exact (IHa _ _ _ Hrun).
    + cbn [run] in Hrun. destruct (rest x) as [|d s'] eqn:Hx; [discriminate|].
      destruct (N.eqb_spec d c) as [->|]; [|discriminate].
      cbn [startsWith]. rewrite N.eqb_refl. exact (IHb _ _ _ Hrun).
    + cbn [run] in Hrun. destruct (atBol f (before x)); [|discriminate].
      exact (IHb _ _ _ Hrun).
  - cbn [run] in Hrun. exact (IHa _ _ _ Hrun).
Qed.

Lemma matchAt_headLit (f : flags) (r : re) (b : option N) (s : jstring) (y : pos) :
  matchAt f r b s = Some y -> startsWith (headLit r) s = true.
Proof. intros H. exact (run_headLit f r _ _ _ H). Qed.

(** Where no match starts, replace copies the text. *)
Lemma replacePure_unmatched (f : flags) (r : re) (fn : list (nat * jstring) -> jstring)
    (s : jstring) :
  (forall b t, t `suffix_of` s -> matchAt f r b t = None) ->
  forall b, replacePure f r fn 0 b s = s.
Proof.
  induction s as [|c s IH]; intros Hno b; cbn [replacePure].
  - rewrite (Hno b []) by reflexivity. reflexivity.
  - rewrite (Hno b (c :: s)) by reflexivity. f_equal. apply IH.
    intros b' t Ht. apply Hno. apply suffix_cons_r. exact Ht.
Qed.

Lemma replaceFrom_unmatched (f : flags) (r : re)
    (fn : jstring -> list (nat * jstring) -> option jstring) (s : jstring) :
  (forall b t, t `suffix_of` s -> matchAt f r b t = None) ->
  forall b, replaceFrom f r fn 0 b s = Some s.
Proof.
  induction s as [|c s IH]; intros Hno b; cbn [replaceFrom].
  - rewrite (Hno b []) by reflexivity. reflexivity.
  - rewrite (Hno b (c :: s)) by reflexivity. rewrite IH; [reflexivity|].
    intros b' t Ht. apply Hno. apply suffix_cons_r. exact Ht.
Qed.

(** No match starts in a text that lacks the first character of the
    literal head. *)
Lemma unmatched_without_head (f : flags) (r : re) (c : N) (lit' : jstring) (s : jstring) :
  headLit r = c :: lit' -> forallb (fun d => negb (N.eqb d c)) s = true ->
  forall b t, t `suffix_of` s -> matchAt f r b t = None.
Proof.
  intros Hhead Hs b t [u ->]. destruct (matchAt f r b t) as [y|] eqn:Hm; [|reflexivity].
  apply matchAt_headLit in Hm. rewrite Hhead in Hm.
  rewrite forallb_app in Hs. apply andb_prop in Hs as [_ Ht].
  destruct t as [|d t]; [discriminate Hm|]. cbn [startsWith forallb] in Hm, Ht.
  apply andb_prop in Hm as [Hcd _]. apply andb_prop in Ht as [Hd _].
  rewrite N.eqb_sym in Hcd. rewrite Hcd in Hd. discriminate Hd.
Qed.

Lemma between_app (u t : jstring) : between (u ++ t) t = u.
Proof.
  unfold between. rewrite length_app.
  replace (length u + length t - length t) with (length u) by lia.
  apply take_app_length.
Qed.

(** After a match, replace passes over the matched text. *)
Lemma replacePure_skip (f : flags) (r : re) (fn : list (nat * jstring) -> jstring)
    (u : jstring) :
  forall b t,
    replacePure f r fn (length u) b (u ++ t) = replacePure f r fn 0 (lastBefore b u) t.
Proof.
  induction u as [|c u IH]; intros b t; [reflexivity|].
  cbn [length app replacePure lastBefore]. apply IH.
Qed.

Lemma replacePure_step (f : flags) (r : re) (fn : list (nat * jstring) -> jstring)
    (b : option N) (c : N) (u t : jstring) (y : pos) :
  matchAt f r b (c :: u ++ t) = Some y -> rest y = t ->
  replacePure f r fn 0 b (c :: u ++ t)
  = fn (caps y) ++ replacePure f r fn 0 (lastBefore (Some c) u) t.
Proof.
  intros Hm Hrest. cbn [replacePure]. rewrite Hm, Hrest.
  change (c :: u ++ t) with ((c :: u) ++ t). rewrite between_app.
  cbn [length]. rewrite replacePure_skip. reflexivity.
Qed.

Lemma replaceFrom_skip (f : flags) (r : re)
    (fn : jstring -> list (nat * jstring) -> option jstring) (u : jstring) :
  forall b t,
    replaceFrom f r fn (length u) b (u ++ t) = replaceFrom f r fn 0 (lastBefore b u) t.
Proof.
  induction u as [|c u IH]; intros b t; [reflexivity|].
  cbn [length app replaceFrom lastBefore]. apply IH.
Qed.

Lemma replaceFrom_step (f : flags) (r : re)
    (fn : jstring -> list (nat * jstring) -> option jstring)
    (b : option N) (c : N) (u t : jstring) (y : pos) :
  matchAt f r b (c :: u ++ t) = Some y -> rest y = t ->
  replaceFrom f r fn 0 b (c :: u ++ t)
  = out ← fn (c :: u) (caps y);
    tl ← replaceFrom f r fn 0 (lastBefore (Some c) u) t;
    Some (out ++ tl).
Proof.
  intros Hm Hrest. cbn [replaceFrom]. rewrite Hm, Hrest.
  change (c :: u ++ t) with ((c :: u) ++ t). rewrite between_app.
  cbn [length]. rewrite replaceFrom_skip. reflexivity.
Qed.

End MatcherFacts.

(* ===================================================================== *)
(** ** Further properties: the last two passes *)
(* ===================================================================== *)

Section Newlines.

Let br : list (nat * jstring) -> jstring := fun _ => lit "<br>".
Let par : list (nat * jstring) -> jstring := fun _ => lit "<p></p>".

Lemma newline_LF (b : option N) (s : jstring) :
  replacePure noflags newlineRegex br 0 b (LF :: s)
  = lit "<br>" ++ replacePure noflags newlineRegex br 0 (Some LF) s.
Proof.
  exact (replacePure_step noflags newlineRegex br b LF [] s
           {| before := Some LF; rest := s; caps := [] |} eq_refl eq_refl).
Qed.

Lemma newline_other (b : option N) (c : N) (s : jstring) :
  N.eqb c LF = false ->
  replacePure noflags newlineRegex br 0 b (c :: s)
  = c :: replacePure noflags newlineRegex br 0 (Some c) s.
Proof.
  intros Hc. cbn [replacePure]. unfold matchAt, newlineRegex. cbn [run rest].
  rewrite Hc. reflexivity.
Qed.

Lemma newline_copy (u : jstring) :
  forallb (fun c => negb (N.eqb c LF)) u = true ->
  forall b t, exists b',
    replacePure noflags newlineRegex br 0 b (u ++ t)
    = u ++ replacePure noflags newlineRegex br 0 b' t.
Proof.
  induction u as [|c u IH]; intros Hu b t; [exists b; reflexivity|].
  cbn [forallb] in Hu. apply andb_prop in Hu as [Hc Hu]. apply negb_true_iff in Hc.
  destruct (IH Hu (Some c) t) as [b' Hb']. exists b'.
  cbn [app]. rewrite (newline_other b c _ Hc), Hb'. reflexivity.
Qed.

Lemma paragraph_LF_LF (b : option N) (s : jstring) :
  replacePure noflags paragraphRegex par 0 b (LF :: LF :: s)
  = lit "<p></p>" ++ replacePure noflags paragraphRegex par 0 (Some LF) s.
Proof.
  exact (replacePure_step noflags paragraphRegex par b LF [LF] s
           {| before := Some LF; rest := s; caps := [] |} eq_refl eq_refl).
Qed.

Lemma paragraph_LF_other (b : option N) (d : N) (s : jstring) :
  N.eqb d LF = false ->
  replacePure noflags paragraphRegex par 0 b (LF :: d :: s)
  = LF :: replacePure noflags paragraphRegex par 0 (Some LF) (d :: s).
Proof.
  intros Hd. cbn [replacePure]. unfold matchAt at 1, paragraphRegex at 1.
  cbn [run rest before caps]. change (N.eqb LF LF) with true. cbv iota.
  rewrite Hd. reflexivity.
Qed.

Lemma paragraph_other (b : option N) (c : N) (s : jstring) :
  N.eqb c LF = false ->
  replacePure noflags paragraphRegex par 0 b (c :: s)
  = c :: replacePure noflags paragraphRegex par 0 (Some c) s.
Proof.
  intros Hc. cbn [replacePure]. unfold matchAt at 1, paragraphRegex at 1.
  cbn [run rest]. rewrite Hc. reflexivity.
Qed.

(** The paragraph pass followed by the newline pass is the single scan. *)
Lemma last_two_passes (n : nat) :
  forall s b b', length s <= n ->
    replacePure noflags newlineRegex br 0 b'
      (replacePure noflags paragraphRegex par 0 b s)
    = normalizeNewlines s.
Proof.
  induction n as [|n IH]; intros s b b' Hlen.
  - destruct s; [reflexivity|cbn in Hlen; lia].
  - destruct s as [|c s]; [reflexivity|]. cbn [length] in Hlen.
    destruct (N.eqb c LF) eqn:Hc.
    + apply N.eqb_eq in Hc. subst c. destruct s as [|d s].
      * reflexivity.
      * cbn [length] in Hlen. cbn [normalizeNewlines]. change (N.eqb LF LF) with true.
        cbv iota. destruct (N.eqb d LF) eqn:Hd.
        -- apply N.eqb_eq in Hd. subst d. rewrite paragraph_LF_LF.
           destruct (newline_copy (lit "<p></p>") eq_refl b'
                       (replacePure noflags paragraphRegex par 0 (Some LF) s)) as [b'' ->].
           rewrite IH by lia. reflexivity.
        -- rewrite (paragraph_LF_other b d s Hd), newline_LF.
           rewrite IH by (cbn [length]; lia).
           cbn [normalizeNewlines]. rewrite ?Hd. reflexivity.
    + rewrite (paragraph_other b c s Hc), (newline_other b' c _ Hc).
      cbn [normalizeNewlines]. rewrite Hc, IH by lia. reflexivity.
Qed.

Lemma includes_single (c : N) (s : jstring) :
  includes [c] s = existsb (N.eqb c) s.
Proof.
  induction s as [|d s IH]; [reflexivity|].
  cbn [includes startsWith existsb]. rewrite IH, andb_true_r. reflexivity.
Qed.

Lemma newline_pass_leaves_none (s : jstring) :
  forall b, existsb (N.eqb LF) (replacePure noflags newlineRegex br 0 b s) = false.
Proof.
  induction s as [|c s IH]; intros b; [reflexivity|].
  destruct (N.eqb c LF) eqn:Hc.
  - apply N.eqb_eq in Hc. subst c. rewrite newline_LF, existsb_app, IH. reflexivity.
  - rewrite (newline_other b c s Hc). cbn [existsb]. rewrite IH, N.eqb_sym, Hc. reflexivity.
Qed.

End Newlines.

(** X1.  The last two passes, taken together, scan the text once from left
    to right: two line feeds in a row become a paragraph break, any other
    line feed becomes a line break, every other character is kept. *)
Theorem X1_newline_passes_are_one_scan (s : jstring) :
  replace noflags newlineRegex (fun _ => lit "<br>")
    (replace noflags paragraphRegex (fun _ => lit "<p></p>") s)
  = normalizeNewlines s.
Proof. apply (last_two_passes (length s) s None None). reflexivity. Qed.

(** X2.  Whatever the content, the component returns a fragment, and that
    fragment holds no line feed: the last pass has replaced every one. *)
Theorem X2_fragment_has_no_line_feed (content : jsvalue) :
  exists html, MarkdownRenderer content = Some html /\ includes [LF] html = false.
Proof.
  destruct (MarkdownRenderer_total content) as [html Hhtml]. exists html.
  split; [exact Hhtml|]. rewrite includes_single.
  destruct content as [s|]; cbn [MarkdownRenderer] in Hhtml.
  - destruct (tablePass (fencePass s)) as [t|]; [|discriminate Hhtml].
    injection Hhtml as <-. unfold inlinePasses, replace at 1.
    apply newline_pass_leaves_none.
  - injection Hhtml as <-. reflexivity.
Qed.

Section PlainText.

Lemma markup_free (c : N) (s : jstring) :
  isMarkup c = true -> forallb (fun d => negb (isMarkup d)) s = true ->
  forallb (fun d => negb (N.eqb d c)) s = true.
Proof.
  intros Hc. induction s as [|d s IH]; [reflexivity|]. cbn [forallb].
  intros Hs. apply andb_prop in Hs as [Hd Hs]. rewrite (IH Hs), andb_true_r.
  destruct (N.eqb_spec d c) as [->|]; [|reflexivity]. rewrite Hc in Hd. discriminate Hd.
Qed.

Lemma replace_without_head (f : flags) (r : re) (fn : list (nat * jstring) -> jstring)
    (c : N) (lit' s : jstring) :
  headLit r = c :: lit' -> isMarkup c = true ->
  forallb (fun d => negb (isMarkup d)) s = true ->
  replace f r fn s = s.
Proof.
  intros Hhead Hc Hs. apply replacePure_unmatched.
  apply (unmatched_without_head f r c lit' s Hhead). apply markup_free; assumption.
Qed.

Lemma plain_text_normalized (s : jstring) :
  forallb (fun c => negb (isMarkup c)) s = true ->
  includes (lit "<li>") s = false ->
  MarkdownRenderer (JString s) = Some (normalizeNewlines s).
Proof.
  intros Hs Hli. cbn [MarkdownRenderer].
  assert (Hfence : fencePass s = s).
  { unfold fencePass. eapply replace_without_head; [reflexivity|reflexivity|exact Hs]. }
  rewrite Hfence.
  assert (Htable : tablePass s = Some s).
  { unfold tablePass, replaceWith. apply replaceFrom_unmatched.
    apply (unmatched_without_head noflags tableRegex pipe [] s eq_refl).
    apply markup_free; [reflexivity|exact Hs]. }
  rewrite Htable. cbn [mbind option_bind]. f_equal.
  unfold inlinePasses, listPass.
  rewrite (replace_without_head noflags h4Regex _ 35%N _ s eq_refl eq_refl Hs).
  rewrite (replace_without_head noflags h3Regex _ 35%N _ s eq_refl eq_refl Hs).
  rewrite (replace_without_head noflags boldRegex _ 42%N _ s eq_refl eq_refl Hs).
  rewrite (replace_without_head noflags italicRegex _ 42%N _ s eq_refl eq_refl Hs).
  rewrite (replace_without_head noflags ruleRegex _ 45%N _ s eq_refl eq_refl Hs).
  rewrite (replace_without_head mflag bulletRegex _ 42%N _ s eq_refl eq_refl Hs).
  rewrite Hli. apply (last_two_passes (length s) s None None). reflexivity.
Qed.

End PlainText.

(** X3.  A text without backtick, pipe, hash, star and dash, and without the
    four characters of an opening list item tag, goes through every pass but
    the last two untouched: the fragment is the text with its line feeds
    turned into paragraph and line breaks.  Nothing else is rewritten or
    escaped; HTML tags of the input are in the fragment as they came. *)
Theorem X3_plain_text_is_kept (s : jstring) :
  forallb (fun c => negb (isMarkup c)) s = true ->
  includes (lit "<li>") s = false ->
  MarkdownRenderer (JString s) = Some (normalizeNewlines s).
Proof. apply plain_text_normalized. Qed.

Lemma X3_plain_text_is_kept_witness :
  let s := lit "<b>Total:</b> 3 items" ++ [LF; LF] ++ lit "see <a href=x>more</a>" ++ [LF]
           ++ lit "bye" in
  forallb (fun c => negb (isMarkup c)) s = true /\
  includes (lit "<li>") s = false /\
  MarkdownRenderer (JString s) =
    Some (lit "<b>Total:</b> 3 items<p></p>see <a href=x>more</a><br>bye").
Proof.
  cbv zeta.
  set (s := lit "<b>Total:</b> 3 items" ++ [LF; LF] ++ lit "see <a href=x>more</a>" ++ [LF]
            ++ lit "bye").
  assert (Hs : forallb (fun c => negb (isMarkup c)) s = true) by (vm_compute; reflexivity).
  assert (Hli : includes (lit "<li>") s = false) by (vm_compute; reflexivity).
  split; [exact Hs|]. split; [exact Hli|].
  exact (X3_plain_text_is_kept s Hs Hli).
Defined.

(* ===================================================================== *)
(** ** Further properties: matches that do not look behind *)
(* ===================================================================== *)

Section LookBehind.

Lemma greedy_same (p : N -> bool) (k k' : option N -> jstring -> option pos) :
  (forall b b' s, sameOutcome (k b s) (k' b' s)) ->
  forall s b b', sameOutcome (greedy p k b s) (greedy p k' b' s).
Proof.
  intros Hk. induction s as [|c s IH]; intros b b'; cbn [greedy]; [apply Hk|].
  destruct (p c); [|apply Hk].
  specialize (IH (Some c) (Some c)).
  destruct (greedy p k (Some c) s), (greedy p k' (Some c) s); cbn in IH;
    try contradiction; [exact IH|apply Hk].
Qed.

Lemma reluctant_same (p : N -> bool) (k k' : option N -> jstring -> option pos) :
  (forall b b' s, sameOutcome (k b s) (k' b' s)) ->
  forall s b b', sameOutcome (reluctant p k b s) (reluctant p k' b' s).
Proof.
  intros Hk. induction s as [|c s IH]; intros b b'; cbn [reluctant].
  - specialize (Hk b b' []). destruct (k b []), (k' b' []); cbn in Hk;
      try contradiction; [exact Hk|exact I].
  - specialize (Hk b b' (c :: s)). destruct (k b (c :: s)), (k' b' (c :: s)); cbn in Hk;
      try contradiction; [exact Hk|].
    destruct (p c); [apply IH|exact I].
Qed.

Lemma run_same (f : flags) (r : re) :
  noBol r = true ->
  forall x x' k k',
    samePos x x' ->
    (forall y y', samePos y y' -> sameOutcome (k y) (k' y')) ->
    sameOutcome (run f r x k) (run f r x' k').
Proof.
  induction r as [c|p|p|p|p|a IHa b IHb|a IHa b IHb|i a IHa|a IHa| |];
    intros Hr x x' k k' [Hrest Hcaps] Hk; cbn [run]; cbn [noBol] in Hr.
  - rewrite <- Hrest, <- Hcaps. destruct (rest x) as [|d s']; [exact I|].
    destruct (N.eqb d c); [|exact I]. apply Hk. split; reflexivity.
  - rewrite <- Hrest, <- Hcaps. destruct (rest x) as [|d s']; [exact I|].
    destruct (p d); [|exact I]. apply Hk. split; reflexivity.
  - rewrite <- Hrest, <- Hcaps. apply greedy_same. intros. apply Hk. split; reflexivity.
  - rewrite <- Hrest, <- Hcaps. apply reluctant_same. intros. apply Hk. split; reflexivity.
  - rewrite <- Hrest, <- Hcaps. destruct (rest x) as [|d s']; [exact I|].
    destruct (p d); [|exact I]. apply greedy_same. intros. apply Hk. split; reflexivity.
  - apply andb_prop in Hr as [Ha Hb]. apply (IHa Ha); [split; assumption|].
    intros y y' Hy. apply (IHb Hb); assumption.
  - apply andb_prop in Hr as [Ha Hb].
    pose proof (IHa Ha x x' k k' (conj Hrest Hcaps) Hk) as H1.
    destruct (run f a x k), (run f a x' k'); cbn in H1; try contradiction; [exact H1|].
    apply (IHb Hb); [split; assumption|exact Hk].
  - apply (IHa Hr); [split; assumption|].
    intros y y' [Hy1 Hy2]. apply Hk. split; cbn [rest caps]; [exact Hy1|].
    rewrite Hrest, Hy1, Hy2. reflexivity.
  - pose proof (IHa Hr x x' Some Some (conj Hrest Hcaps) (fun y y' H => H)) as H1.
    destruct (run f a x Some) as [y|], (run f a x' Some) as [y'|]; cbn in H1;
      try contradiction; [|exact I].
    apply Hk. destruct H1 as [_ H1]. split; cbn [rest caps]; assumption.
  - discriminate Hr.
  - rewrite <- Hrest. destruct (atEol f (rest x)); [|exact I].
    apply Hk. split; assumption.
Qed.

Lemma matchAt_same (f : flags) (r : re) (b b' : option N) (s : jstring) :
  noBol r = true -> sameOutcome (matchAt f r b s) (matchAt f r b' s).
Proof.
  intros Hr. apply (run_same f r Hr); [split; reflexivity|]. intros y y' H. exact H.
Qed.

(** Replacing with an expression that has no [^] does not depend on the
    character before the text. *)
Lemma replacePure_before (f : flags) (r : re) (fn : list (nat * jstring) -> jstring) :
  noBol r = true ->
  forall s skip b b', replacePure f r fn skip b s = replacePure f r fn skip b' s.
Proof.
  intros Hr. induction s as [|c s IH]; intros skip b b'.
  - destruct skip; cbn [replacePure]; [|reflexivity].
    pose proof (matchAt_same f r b b' [] Hr) as H.
    destruct (matchAt f r b []) as [y|], (matchAt f r b' []) as [y'|]; cbn in H;
      try contradiction; [|reflexivity].
    destruct H as [_ ->]. reflexivity.
  - destruct skip as [|n]; cbn [replacePure]; [|apply IH].
    pose proof (matchAt_same f r b b' (c :: s) Hr) as H.
    destruct (matchAt f r b (c :: s)) as [y|], (matchAt f r b' (c :: s)) as [y'|];
      cbn in H; try contradiction; [|reflexivity].
    destruct H as [-> ->]. reflexivity.
Qed.

Lemma replaceFrom_before (f : flags) (r : re)
    (fn : jstring -> list (nat * jstring) -> option jstring) :
  noBol r = true ->
  forall s skip b b', replaceFrom f r fn skip b s = replaceFrom f r fn skip b' s.
Proof.
  intros Hr. induction s as [|c s IH]; intros skip b b'.
  - destruct skip; cbn [replaceFrom]; [|reflexivity].
    pose proof (matchAt_same f r b b' [] Hr) as H.
    destruct (matchAt f r b []) as [y|], (matchAt f r b' []) as [y'|]; cbn in H;
      try contradiction; [|reflexivity].
    destruct H as [-> ->]. reflexivity.
  - destruct skip as [|n]; cbn [replaceFrom]; [|apply IH].
    pose proof (matchAt_same f r b b' (c :: s) Hr) as H.
    destruct (matchAt f r b (c :: s)) as [y|], (matchAt f r b' (c :: s)) as [y'|];
      cbn in H; try contradiction; [|reflexivity].
    destruct H as [-> ->]. reflexivity.
Qed.

(** A literal is matched when the text starts with it. *)
Lemma run_str (f : flags) (p : jstring) :
  p <> [] ->
  forall x k,
    run f (str p) x k =
    if startsWith p (rest x)
    then k {| before := lastBefore (before x) p; rest := drop (length p) (rest x);
              caps := caps x |}
    else None.
Proof.
  induction p as [|c p IH]; [congruence|]. intros _ x k.
  destruct p as [|c' p].
  - cbn [str run startsWith lastBefore length drop]. destruct (rest x) as [|d s']; [reflexivity|].
    rewrite N.eqb_sym, andb_true_r. destruct (N.eqb_spec c d) as [->|]; reflexivity.
  - change (str (c :: c' :: p)) with (Seq (Chr c) (str (c' :: p))). cbn [run].
    destruct (rest x) as [|d s'] eqn:Hx; [reflexivity|].
    cbn [startsWith]. rewrite N.eqb_sym. destruct (N.eqb_spec c d) as [->|]; [|reflexivity].
    rewrite IH by discriminate. cbn [rest before caps andb lastBefore length drop].
    reflexivity.
Qed.

(** The reluctant star passes over the characters at which what follows
    does not match. *)
Lemma reluctant_skip (p : N -> bool) (k : option N -> jstring -> option pos)
    (t : jstring) (a : jstring) :
  forallb p a = true ->
  (forall b' a1 c a2, a = a1 ++ c :: a2 -> k b' (c :: a2 ++ t) = None) ->
  forall b, reluctant p k b (a ++ t) = reluctant p k (lastBefore b a) t.
Proof.
  induction a as [|c a IH]; intros Ha Hk b; [reflexivity|].
  cbn [forallb] in Ha. apply andb_prop in Ha as [Hc Ha].
  cbn [app reluctant lastBefore]. rewrite (Hk b [] c a eq_refl), Hc.
  apply IH; [exact Ha|]. intros b' a1 d a2 ->. apply (Hk b' (c :: a1) d a2). reflexivity.
Qed.

Lemma reluctant_here (p : N -> bool) (k : option N -> jstring -> option pos)
    (b : option N) (t : jstring) (y : pos) :
  k b t = Some y -> reluctant p k b t = Some y.
Proof. intros H. destruct t; cbn [reluctant]; rewrite H; reflexivity. Qed.

Lemma reluctant_Some (p : N -> bool) (k : option N -> jstring -> option pos) (y : pos) :
  forall s b, reluctant p k b s = Some y ->
    exists b' u, u `suffix_of` s /\ k b' u = Some y.
Proof.
  induction s as [|c s IH]; intros b H; cbn [reluctant] in H.
  - destruct (k b []) eqn:Hk; [|discriminate]. injection H as <-. eauto.
  - destruct (k b (c :: s)) eqn:Hk.
    + injection H as <-. eauto.
    + destruct (p c); [|discriminate]. destruct (IH _ H) as (b' & u & Hu & Hku).
      exists b', u. split; [apply suffix_cons_r; exact Hu|exact Hku].
Qed.

Lemma includes_suffix (p u s : jstring) :
  u `suffix_of` s -> startsWith p u = true -> includes p s = true.
Proof.
  intros [v ->] Hu. induction v as [|c v IH]; cbn [app].
  - destruct u; cbn [includes]; rewrite Hu; reflexivity.
  - cbn [includes]. rewrite IH. apply orb_true_r.
Qed.

End LookBehind.

(* ===================================================================== *)
(** ** Further properties: the fence pass *)
(* ===================================================================== *)

Section Fences.

Let fence : jstring := lit "```".
Let backtickFree (s : jstring) : bool := forallb (fun d => negb (N.eqb d 96)) s.

(** What follows the opening backticks of the fence expression. *)
Let closing (f : flags) (origin : jstring) (cs : list (nat * jstring))
    (b : option N) (s : jstring) : option pos :=
  run f (str fence)
    {| before := b; rest := s; caps := (1%nat, between origin s) :: cs |} Some.

Lemma matchAt_fenceRegex (f : flags) (b : option N) (t : jstring) :
  matchAt f fenceRegex b t =
  if startsWith fence t
  then reluctant any (closing f (drop 3 t) []) (lastBefore b fence) (drop 3 t)
  else None.
Proof.
  unfold matchAt, fenceRegex. cbn [run]. rewrite run_str by discriminate.
  cbn [rest before caps]. reflexivity.
Qed.

Lemma closing_spec (f : flags) (origin : jstring) (cs : list (nat * jstring))
    (b : option N) (s : jstring) :
  closing f origin cs b s =
  if startsWith fence s
  then Some {| before := Some 96%N; rest := drop 3 s;
               caps := (1%nat, between origin s) :: cs |}
  else None.
Proof. unfold closing. rewrite run_str by discriminate. reflexivity. Qed.

Lemma matchAt_fenceRegex_Some (f : flags) (b : option N) (t : jstring) (y : pos) :
  matchAt f fenceRegex b t = Some y -> fenceAt t = true.
Proof.
  rewrite matchAt_fenceRegex. unfold fenceAt. fold fence.
  destruct (startsWith fence t); [|discriminate]. intros H.
  apply reluctant_Some in H as (b' & u & Hu & Hk).
  rewrite closing_spec in Hk. destruct (startsWith fence u) eqn:Hfu; [|discriminate].
  apply (includes_suffix fence u _ Hu Hfu).
Qed.

Lemma noFenceIn_suffix (s t : jstring) :
  noFenceIn s = true -> t `suffix_of` s -> fenceAt t = false.
Proof.
  intros Hs [u ->]. induction u as [|c u IH].
  - destruct t; cbn [app noFenceIn] in Hs; apply andb_prop in Hs as [H _];
      apply negb_true_iff in H; exact H.
  - cbn [app noFenceIn] in Hs. apply andb_prop in Hs as [_ H]. exact (IH H).
Qed.

Lemma replacePure_copy (f : flags) (r : re) (fn : list (nat * jstring) -> jstring)
    (c : N) (l u : jstring) :
  headLit r = c :: l -> forallb (fun d => negb (N.eqb d c)) u = true ->
  forall b t, replacePure f r fn 0 b (u ++ t) = u ++ replacePure f r fn 0 (lastBefore b u) t.
Proof.
  intros Hhead. induction u as [|d u IH]; intros Hu b t; [reflexivity|].
  cbn [forallb] in Hu. apply andb_prop in Hu as [Hd Hu].
  cbn [app replacePure lastBefore].
  destruct (matchAt f r b (d :: u ++ t)) as [y|] eqn:Hm.
  - apply matchAt_headLit in Hm. rewrite Hhead in Hm. cbn [startsWith] in Hm.
    apply andb_prop in Hm as [Hcd _]. rewrite N.eqb_sym in Hcd. rewrite Hcd in Hd.
    discriminate Hd.
  - f_equal. apply IH. exact Hu.
Qed.

Lemma startsWith_fence_other (c : N) (s : jstring) :
  negb (N.eqb c 96) = true -> startsWith fence (c :: s) = false.
Proof.
  intros Hc. unfold fence. change (lit "```") with [96%N; 96%N; 96%N].
  cbn [startsWith]. rewrite N.eqb_sym. apply negb_true_iff in Hc. rewrite Hc. reflexivity.
Qed.

Lemma matchAt_fence (f : flags) (b : option N) (interior post : jstring) :
  backtickFree interior = true ->
  matchAt f fenceRegex b (fence ++ interior ++ fence ++ post)
  = Some {| before := Some 96%N; rest := post; caps := [(1%nat, interior)] |}.
Proof.
  intros Hi. rewrite matchAt_fenceRegex.
  change (startsWith fence (fence ++ interior ++ fence ++ post)) with true.
  change (drop 3 (fence ++ interior ++ fence ++ post)) with (interior ++ fence ++ post).
  cbv iota. rewrite reluctant_skip.
  - apply reluctant_here. rewrite closing_spec.
    change (startsWith fence (fence ++ post)) with true. cbv iota.
    rewrite between_app. reflexivity.
  - clear Hi. induction interior as [|c s IH]; [reflexivity|exact IH].
  - intros b' a1 c a2 ->. rewrite closing_spec.
    unfold backtickFree in Hi. rewrite forallb_app in Hi. apply andb_prop in Hi as [_ Hi].
    cbn [forallb] in Hi. apply andb_prop in Hi as [Hc _].
    rewrite (startsWith_fence_other c _ Hc). reflexivity.
Qed.

End Fences.

(** X4. A text in which no fence starts (nowhere three backticks with
    three more after them) is left as it is by the fence pass: an
    unterminated fence is not turned into a code block. *)
Theorem X4_unterminated_fence_is_kept (s : jstring) :
  noFenceIn s = true -> fencePass s = s.
Proof.
  intros Hs. apply replacePure_unmatched. intros b t Ht.
  destruct (matchAt noflags fenceRegex b t) as [y|] eqn:Hm; [|reflexivity].
  apply matchAt_fenceRegex_Some in Hm. rewrite (noFenceIn_suffix s t Hs Ht) in Hm.
  discriminate Hm.
Qed.

Lemma X4_unterminated_fence_is_kept_witness :
  let s := lit "see ```js
let x = 1; `` and `no end`" in
  noFenceIn s = true /\ fencePass s = s.
Proof.
  intros s. assert (Hs : noFenceIn s = true) by (vm_compute; reflexivity).
  split; [exact Hs|exact (X4_unterminated_fence_is_kept s Hs)].
Defined.

(** X5. The first fence of a text: when neither the text before the
    opening backticks nor the interior holds a backtick, the fence pass
    copies the text before, puts the code block of the trimmed interior
    in place of the fence, and goes on with what follows the closing
    backticks. *)
Theorem X5_first_fence_becomes_code_block (pre interior post : jstring) :
  forallb (fun d => negb (N.eqb d 96)) pre = true ->
  forallb (fun d => negb (N.eqb d 96)) interior = true ->
  fencePass (pre ++ lit "```" ++ interior ++ lit "```" ++ post)
  = pre ++ fenceReplacer interior ++ fencePass post.
Proof.
  intros Hpre Hi. unfold fencePass, replace.
  rewrite (replacePure_copy noflags fenceRegex _ 96%N [96%N; 96%N] pre eq_refl Hpre).
  f_equal.
  pose proof (matchAt_fence noflags (lastBefore None pre) interior post Hi) as Hm.
  rewrite (app_assoc interior) in Hm |- *.
  etransitivity;
    [exact (replacePure_step noflags fenceRegex _ (lastBefore None pre) 96%N
              ([96%N; 96%N] ++ interior ++ lit "```") post _ Hm eq_refl)|].
  cbn [caps]. f_equal. apply replacePure_before. reflexivity.
Qed.

Lemma X5_first_fence_becomes_code_block_witness :
  let pre := lit "Run this:
" in
  let interior := lit "python
print(1)
" in
  let post := lit " then ```x``` again" in
  (forallb (fun d => negb (N.eqb d 96)) pre = true /\
   forallb (fun d => negb (N.eqb d 96)) interior = true) /\
  fencePass (pre ++ lit "```" ++ interior ++ lit "```" ++ post)
  = pre ++ fenceReplacer interior ++ fencePass post.
Proof.
  intros pre interior post.
  assert (Hpre : forallb (fun d => negb (N.eqb d 96)) pre = true) by (vm_compute; reflexivity).
  assert (Hi : forallb (fun d => negb (N.eqb d 96)) interior = true) by (vm_compute; reflexivity).
  split; [split; assumption|].
  exact (X5_first_fence_becomes_code_block pre interior post Hpre Hi).
Defined.

(* ===================================================================== *)
(** ** Further properties: the records and groups of a timetable *)
(* ===================================================================== *)

Section Records.

Lemma length_rowCells (rawCells : list jstring) : length (rowCells rawCells) = 3.
Proof.
  unfold rowCells, correctShift.
  destruct (shiftApplies _ _ _ _); reflexivity.
Qed.

Lemma records_three_cells (rows : list (list jstring)) :
  forall carried, Forall (fun r => length (subjectCells r) = 3) (records carried rows).
Proof.
  induction rows as [|rawCells rows IH]; intros carried; cbn [records]; constructor.
  - apply length_rowCells.
  - apply IH.
Qed.

Lemma records_null_first (rows : list (list jstring)) :
  exists n, forall i r, records None rows !! i = Some r ->
    if i <? n then day r = None else isDayKey (day r).
Proof.
  induction rows as [|rawCells rows IH].
  - exists 0. intros i r Hi. discriminate Hi.
  - cbn [records]. destruct (namesDay rawCells) eqn:Hd.
    + exists 0. intros i r Hi. cbn [Nat.ltb Nat.leb].
      pose proof (records_isDayKey (rawCells :: rows) None) as Hall.
      cbn [records] in Hall. rewrite Forall_forall in Hall. apply Hall.
      * right. intros rc Hrc. injection Hrc as <-. exact Hd.
      * apply (list_elem_of_lookup_2 _ i). exact Hi.
    + rewrite (rowDay_inherit _ _ Hd). destruct IH as [n Hn]. exists (S n).
      intros [|i] r Hi.
      * injection Hi as <-. reflexivity.
      * apply (Hn i r Hi).
Qed.

Lemma spanTotal_insert_new (groups : gmap (list N) group) (k : list N) (g : group) :
  groups !! k = None -> spanTotal (<[k := g]> groups) = count g + spanTotal groups.
Proof.
  intros Hk. unfold spanTotal.
  apply (map_fold_insert_L (fun _ g acc => count g + acc)); [|exact Hk].
  intros. lia.
Qed.

Lemma spanTotal_insert_old (groups : gmap (list N) group) (k : list N) (g g' : group) :
  groups !! k = Some g ->
  spanTotal (<[k := g']> groups) + count g = count g' + spanTotal groups.
Proof.
  intros Hk. rewrite <- (insert_delete_eq groups k g') at 1.
  rewrite <- (insert_delete_id groups k g Hk) at 2.
  rewrite !spanTotal_insert_new by apply lookup_delete_eq. lia.
Qed.

Lemma spanTotal_addRow (st : parser) (rawCells : list jstring) :
  spanTotal (rowGroups st) = length (tableData st) ->
  spanTotal (rowGroups (addRow st rawCells)) = length (tableData (addRow st rawCells)).
Proof.
  intros Hst. rewrite addRow_rowGroups, addRow_tableData, length_app. cbn [length]. cbv zeta.
  destruct (rowGroups st !! dayText (rowDay (currentDay st) rawCells)) as [g|] eqn:Hk.
  - pose proof (spanTotal_insert_old (rowGroups st) _ g
                  {| count := S (count g); firstRowIndex := firstRowIndex g |} Hk) as H.
    cbn [count] in H. lia.
  - rewrite spanTotal_insert_new by exact Hk. cbn [count]. lia.
Qed.

Lemma spanTotal_fold (rows : list (list jstring)) :
  forall st, spanTotal (rowGroups st) = length (tableData st) ->
    spanTotal (rowGroups (fold_left addRow rows st))
    = length (tableData (fold_left addRow rows st)).
Proof.
  induction rows as [|rawCells rows IH]; intros st Hst; cbn [fold_left]; [exact Hst|].
  apply IH, spanTotal_addRow, Hst.
Qed.

Lemma firstIndex_lookup (k : list N) (ks : list (list N)) :
  forall i, firstIndex k ks = Some i ->
    ks !! i = Some k /\ forall j, j < i -> ks !! j <> Some k.
Proof.
  induction ks as [|k' ks IH]; intros i Hi; cbn [firstIndex] in Hi; [discriminate|].
  destruct (decide (k' = k)) as [->|Hne].
  - injection Hi as <-. split; [reflexivity|]. intros j Hj. lia.
  - destruct (firstIndex k ks) as [i'|]; [|discriminate]. injection Hi as <-.
    destruct (IH i' eq_refl) as [H1 H2]. split; [exact H1|].
    intros [|j] Hj; cbn; [congruence|]. apply H2. lia.
Qed.

Lemma firstIndex_occurs (k : list N) (ks : list (list N)) (i : nat) :
  firstIndex k ks = Some i -> 1 <= occurrences k ks.
Proof.
  revert i. unfold occurrences. induction ks as [|k' ks IH]; intros i Hi;
    cbn [firstIndex] in Hi; [discriminate|].
  rewrite filter_cons. destruct (decide (k' = k)); [cbn [length]; lia|].
  destruct (firstIndex k ks) as [i'|]; [|discriminate]. apply (IH i' eq_refl).
Qed.

End Records.

(** X6. Every record of a timetable has exactly three data cells, whatever
    the number of tokens of its line: a line with more than four tokens
    loses the ones after the fourth. *)
Theorem X6_records_have_three_cells (contentBlock : jstring) :
  Forall (fun r => length (subjectCells r) = 3) (tableData (parseContent contentBlock)).
Proof. rewrite tableData_parseContent. apply records_three_cells. Qed.

(** X7. The records whose day is null come first: there is a position
    before which every record has the null day and from which on every
    record has a day that starts with Day. *)
Theorem X7_null_days_come_first (contentBlock : jstring) :
  exists n, forall i r, tableData (parseContent contentBlock) !! i = Some r ->
    if i <? n then day r = None else isDayKey (day r).
Proof. rewrite tableData_parseContent. apply records_null_first. Qed.

(** X8. The row spans of a timetable add up to its number of rows: the
    counts of the groups sum to the number of records. *)
Theorem X8_row_spans_add_up (contentBlock : jstring) :
  spanTotal (rowGroups (parseContent contentBlock))
  = length (tableData (parseContent contentBlock)).
Proof.
  rewrite parseContent_validRows. apply spanTotal_fold. reflexivity.
Qed.

(** X9. The groups of a timetable: a key is filed exactly when a record
    has it; its group counts the records with that key, at least one, and
    its first row index is the position of the first of them. *)
Theorem X9_groups_of_the_records (contentBlock : jstring) (k : list N) :
  let st := parseContent contentBlock in
  match rowGroups st !! k with
  | Some g =>
      1 <= count g /\
      count g = occurrences k (keys (tableData st)) /\
      keys (tableData st) !! firstRowIndex g = Some k /\
      forall j, j < firstRowIndex g -> keys (tableData st) !! j <> Some k
  | None => Forall (fun r => dayText (day r) <> k) (tableData st)
  end.
Proof.
  cbv zeta. rewrite tableData_parseContent.
  rewrite (groupsAgree_parseContent contentBlock k).
  destruct (firstIndex k (keys (records None (validRows contentBlock)))) as [i|] eqn:Hi;
    cbn [fmap option_fmap option_map count firstRowIndex].
  - destruct (firstIndex_lookup _ _ _ Hi) as [H1 H2].
    split; [exact (firstIndex_occurs _ _ _ Hi)|]. split; [reflexivity|].
    split; [exact H1|exact H2].
  - apply Forall_forall. intros r Hr Hk.
    assert (Hin : In k (keys (records None (validRows contentBlock)))).
    { unfold keys. apply in_map_iff. exists r. split; [exact Hk|].
      apply list_elem_of_In. exact Hr. }
    destruct (firstIndex_elem _ _ Hin) as [i' Hi']. congruence.
Qed.

Section RowsInRange.

Lemma trimStart_spaces (u v : jstring) :
  forallb isSpace u = true -> trimStart (u ++ v) = trimStart v.
Proof.
  induction u as [|c u IH]; cbn [forallb app]; [reflexivity|].
  intros H. apply andb_prop in H as [Hc Hu]. cbn [trimStart]. rewrite Hc. apply IH, Hu.
Qed.

Lemma isContentRow_indent (indent row : jstring) :
  forallb isSpace indent = true -> isContentRow (indent ++ row) = isContentRow row.
Proof.
  intros H. unfold isContentRow, trim. rewrite (trimStart_spaces _ _ H). reflexivity.
Qed.

End RowsInRange.

(** X10. A line whose first two cells hold only characters between the
    space and the colon (blanks, digits, periods, dashes, slashes and the
    like) is taken for a separator line by both row loops, indented or not:
    the timetable loop stores nothing for it and the simple loop writes no
    row for it, whatever its other cells hold. *)
Theorem X10_row_in_range_is_skipped (st : parser) (html indent a b c : jstring) :
  forallb isSpace indent = true ->
  forallb (N_in 32 58) a = true -> forallb (N_in 32 58) b = true ->
  parseRow st (indent ++ pipe :: a ++ pipe :: b ++ pipe :: c) = st /\
  simpleRow html (indent ++ pipe :: a ++ pipe :: b ++ pipe :: c) = html.
Proof.
  intros Hi Ha Hb. unfold parseRow, simpleRow.
  rewrite (isContentRow_indent _ _ Hi), (row_in_range_is_rejected a b c Ha Hb).
  split; reflexivity.
Qed.

Lemma X10_row_in_range_is_skipped_witness :
  let row := lit " " ++ pipe :: lit " 2.5 " ++ pipe :: lit " 10:30 " ++ pipe :: lit " Algebra | 9am |" in
  (forallb isSpace (lit " ") = true /\
   forallb (N_in 32 58) (lit " 2.5 ") = true /\ forallb (N_in 32 58) (lit " 10:30 ") = true) /\
  parseRow initial row = initial /\ simpleRow tableOpen row = tableOpen.
Proof.
  split; [repeat split; vm_compute; reflexivity|].
  exact (X10_row_in_range_is_skipped initial tableOpen (lit " ") (lit " 2.5 ") (lit " 10:30 ")
           (lit " Algebra | 9am |") eq_refl eq_refl eq_refl).
Defined.

Section Prefix.

Lemma startsWith_app (p s : jstring) : startsWith p (p ++ s) = true.
Proof.
  induction p as [|c p IH]; cbn [app startsWith]; [destruct s; reflexivity|].
  rewrite N.eqb_refl. exact IH.
Qed.

End Prefix.

(** X11. Whatever the string and whatever the URL constructor does with
    it, the address given to the video frame starts with the embed prefix
    of YouTube. *)
Theorem X11_embed_url_has_the_prefix (newURL : jstring -> option URL) (url : jstring) :
  startsWith embedPrefix (getYouTubeEmbedUrl newURL url) = true.
Proof.
  unfold getYouTubeEmbedUrl.
  destruct (newURL url) as [u|]; [|reflexivity].
  destruct (includes (lit "youtube.com") (hostname u) && searchParams_has (lit "v") u);
    [apply startsWith_app|].
  destruct (eqs (hostname u) (lit "youtu.be")); [apply startsWith_app|reflexivity].
Qed.

(* ===================================================================== *)
(** ** Further properties: how the table pass finds a table *)
(* ===================================================================== *)

Section Tables.

(** The lookahead that ends the block. *)
Let blockEnd : re :=
  Ahead (Alt (Seq (Chr LF)
                  (Seq (Star (fun c => N.eqb c 32 || N.eqb c 9))
                       (Cls (fun c => negb (N.eqb c pipe)))))
             Eol).

Lemma greedy_result {A} (p : N -> bool) (k : option N -> jstring -> option A) (y : A) :
  forall s b, greedy p k b s = Some y -> exists b' s', k b' s' = Some y.
Proof.
  induction s as [|c s IH]; intros b H; cbn [greedy] in H; [eauto|].
  destruct (p c); [|eauto].
  destruct (greedy p k (Some c) s) as [r|] eqn:Hg; [|eauto].
  injection H as ->. exact (IH _ Hg).
Qed.

Lemma greedy_then_not_pipe (cs : list (nat * jstring)) (s : jstring) (b : option N) :
  let k := fun b s => run noflags (Cls (fun c => negb (N.eqb c pipe)))
                        {| before := b; rest := s; caps := cs |} Some in
  match greedy (fun c => N.eqb c 32 || N.eqb c 9) k b s with
  | Some y => caps y = cs /\ match s with d :: _ => negb (N.eqb d pipe) = true | [] => False end
  | None => match s with d :: _ => negb (N.eqb d pipe) = false | [] => True end
  end.
Proof.
  intros k. destruct s as [|d s]; [exact I|]. cbn [greedy].
  assert (Hk : forall b', k b' (d :: s) =
            if negb (N.eqb d pipe)
            then Some {| before := Some d; rest := s; caps := cs |} else None) by reflexivity.
  destruct (N.eqb_spec d pipe) as [->|Hd].
  - change (N.eqb pipe 32 || N.eqb pipe 9) with false. cbv iota. rewrite Hk. reflexivity.
  - cbn [negb] in Hk.
    destruct (N.eqb d 32 || N.eqb d 9).
    + destruct (greedy _ k (Some d) s) as [y|] eqn:Hg.
      * split; [|reflexivity]. apply greedy_result in Hg as (b' & s' & Hy).
        unfold k in Hy. cbn [run rest] in Hy. destruct s' as [|e s']; [discriminate|].
        destruct (negb (N.eqb e pipe)); [|discriminate]. injection Hy as <-. reflexivity.
      * rewrite Hk. split; reflexivity.
    + rewrite Hk. split; reflexivity.
Qed.

Lemma run_blockEnd (x : pos) :
  run noflags blockEnd x Some =
  if blockEndsAt (rest x) then Some x else None.
Proof.
  destruct x as [b s cs]. unfold blockEnd. cbn [run rest before caps].
  destruct s as [|c s]; [reflexivity|]. cbn [blockEndsAt atEol multiline noflags andb].
  destruct (N.eqb c LF); cbn [andb]; [|reflexivity].
  pose proof (greedy_then_not_pipe cs s (Some c)) as H. cbv zeta in H.
  cbn [run rest caps] in H.
  match goal with
  | |- context [greedy ?p ?k ?b0 ?s0] => destruct (greedy p k b0 s0) as [y|]
  end.
  - destruct H as [-> H]. destruct s as [|d s]; [contradiction|]. rewrite H. reflexivity.
  - destruct s as [|d s]; [reflexivity|]. rewrite H. reflexivity.
Qed.

Lemma reluctant_splitBlock (g : option N -> jstring -> pos) :
  forall r b,
    reluctant any (fun b s => if blockEndsAt s then Some (g b s) else None) b r
    = Some (g (lastBefore b (fst (splitBlock r))) (snd (splitBlock r))).
Proof.
  induction r as [|c r IH]; intros b; [reflexivity|].
  cbn [reluctant splitBlock]. destruct (blockEndsAt (c :: r)); [reflexivity|].
  cbn [any fst snd lastBefore]. apply IH.
Qed.

Lemma splitBlock_app (r : jstring) : fst (splitBlock r) ++ snd (splitBlock r) = r.
Proof.
  induction r as [|c r IH]; [reflexivity|]. cbn [splitBlock].
  destruct (blockEndsAt (c :: r)); [reflexivity|]. cbn [fst snd app]. rewrite IH. reflexivity.
Qed.

(** A greedy star takes the whole run of its class when what follows
    matches after it. *)
Lemma greedy_max {A} (p : N -> bool) (k : option N -> jstring -> option A)
    (a s : jstring) (y : A) :
  forallb p a = true ->
  forall b, k (lastBefore b a) s = Some y ->
    match s with d :: _ => p d = false | [] => True end ->
    greedy p k b (a ++ s) = Some y.
Proof.
  intros Ha. induction a as [|c a IH]; intros b Hk Hs; cbn [app].
  - cbn [lastBefore] in Hk. destruct s as [|d s]; cbn [greedy]; [exact Hk|].
    rewrite Hs. exact Hk.
  - cbn [forallb] in Ha. apply andb_prop in Ha as [Hc Ha]. cbn [greedy]. rewrite Hc.
    rewrite (IH Ha (Some c) Hk Hs). reflexivity.
Qed.

Lemma replaceFrom_copy (f : flags) (r : re)
    (fn : jstring -> list (nat * jstring) -> option jstring) (c : N) (l u : jstring) :
  headLit r = c :: l -> forallb (fun d => negb (N.eqb d c)) u = true ->
  forall b t,
    replaceFrom f r fn 0 b (u ++ t)
    = tl ← replaceFrom f r fn 0 (lastBefore b u) t; Some (u ++ tl).
Proof.
  intros Hhead. induction u as [|d u IH]; intros Hu b t.
  - cbn [app lastBefore]. destruct (replaceFrom f r fn 0 b t); reflexivity.
  - cbn [forallb] in Hu. apply andb_prop in Hu as [Hd Hu].
    cbn [app replaceFrom lastBefore].
    destruct (matchAt f r b (d :: u ++ t)) as [y|] eqn:Hm.
    + apply matchAt_headLit in Hm. rewrite Hhead in Hm. cbn [startsWith] in Hm.
      apply andb_prop in Hm as [Hcd _]. rewrite N.eqb_sym in Hcd. rewrite Hcd in Hd.
      discriminate Hd.
    + rewrite (IH Hu). destruct (replaceFrom f r fn 0 (lastBefore (Some d) u) t); reflexivity.
Qed.

Lemma reluctant_ext {A} (p : N -> bool) (k k' : option N -> jstring -> option A) :
  (forall b s, k b s = k' b s) ->
  forall s b, reluctant p k b s = reluctant p k' b s.
Proof.
  intros Hk. induction s as [|c s IH]; intros b; cbn [reluctant]; rewrite Hk; [reflexivity|].
  destruct (k' b (c :: s)); [reflexivity|]. destruct (p c); [apply IH|reflexivity].
Qed.

Lemma dot_not_break (d : N) : dot d = true -> N.eqb d CR || N.eqb d LF = false.
Proof.
  unfold dot, isLineTerminator, CR, LF. intros H. apply negb_true_iff in H.
  apply orb_false_elim in H as [H _]. apply orb_false_elim in H as [H _].
  apply orb_false_elim in H as [H1 H2]. rewrite H1, H2. reflexivity.
Qed.

Lemma matchAt_table (b : option N) (h nl r : jstring) :
  forallb dot h = true -> forallb isBreak nl = true -> nl <> [] ->
  match r with d :: _ => isBreak d = false | [] => True end ->
  exists y,
    matchAt noflags tableRegex b (pipe :: h ++ pipe :: nl ++ r) = Some y /\
    rest y = snd (splitBlock r) /\
    caps y = [(2%nat, fst (splitBlock r)); (1%nat, pipe :: h ++ pipe :: nl)].
Proof.
  intros Hh Hnl Hne Hr. unfold matchAt, tableRegex. fold blockEnd.
  cbn [run rest before caps]. rewrite N.eqb_refl.
  match goal with |- exists y, reluctant dot ?k ?b0 ?s0 = _ /\ _ => set (k3 := k) end.
  rewrite (reluctant_skip dot k3 (pipe :: nl ++ r) h Hh).
  2: { intros b' a1 c a2 E. unfold k3. destruct (N.eqb c pipe); [|reflexivity].
       destruct a2 as [|d a2]; cbn [app]; [reflexivity|].
       rewrite E in Hh. rewrite forallb_app in Hh. apply andb_prop in Hh as [_ Hh].
       cbn [forallb] in Hh. apply andb_prop in Hh as [_ Hh]. apply andb_prop in Hh as [Hd _].
       rewrite (dot_not_break d Hd). reflexivity. }
  destruct nl as [|n nl]; [congruence|]. cbn [forallb] in Hnl.
  apply andb_prop in Hnl as [Hn Hnl]. unfold isBreak in Hn.
  eexists. split.
  - apply reluctant_here. unfold k3. rewrite N.eqb_refl. cbn [app]. rewrite Hn.
    apply (greedy_max _ _ nl r); [exact Hnl| |exact Hr].
    cbv beta.
    set (g := fun (b1 : option N) (s1 : jstring) =>
                {| before := b1; rest := s1;
                   caps := [(2%nat, between r s1);
                            (1%nat, between (pipe :: h ++ pipe :: (n :: nl) ++ r) r)] |}).
    transitivity (reluctant any (fun b1 s1 => if blockEndsAt s1 then Some (g b1 s1) else None)
                    (lastBefore (Some n) nl) r).
    + apply reluctant_ext. intros b1 s1. apply (run_blockEnd (g b1 s1)).
    + apply reluctant_splitBlock.
  - cbn [rest caps]. split; [reflexivity|]. clear k3.
    assert (E1 : between r (snd (splitBlock r)) = fst (splitBlock r)).
    { rewrite <- (splitBlock_app r) at 1. apply between_app. }
    assert (E2 : between (pipe :: h ++ pipe :: (n :: nl) ++ r) r = pipe :: h ++ pipe :: n :: nl).
    { replace (pipe :: h ++ pipe :: (n :: nl) ++ r) with ((pipe :: h ++ pipe :: n :: nl) ++ r).
      - apply between_app.
      - cbn [app]. rewrite <- app_assoc. reflexivity. }
    rewrite E1, E2. reflexivity.
Qed.

End Tables.

(** X12. How the table pass finds the first table.  The text before the
    table holds no pipe.  The header line runs from a pipe to a pipe that
    is followed by line breaks, with no line terminator in between, and
    takes all these line breaks.  The block goes on to the end of the text
    or to the first line feed that is followed by a character other than
    the pipe: a blank line, a line of text and an indented row end it.
    The pass copies the text before the table, writes what the replacer
    makes of the header line and the block, and goes on after the block
    in the same way. *)
Theorem X12_first_table_of_the_text (pre h nl r : jstring) :
  forallb (fun d => negb (N.eqb d pipe)) pre = true ->
  forallb dot h = true ->
  forallb isBreak nl = true -> nl <> [] ->
  match r with d :: _ => isBreak d = false | [] => True end ->
  tablePass (pre ++ pipe :: h ++ pipe :: nl ++ r) =
    out ← tableReplacer (pipe :: h ++ pipe :: nl) (fst (splitBlock r));
    tl ← tablePass (snd (splitBlock r));
    Some (pre ++ out ++ tl).
Proof.
  intros Hpre Hh Hnl Hne Hr. unfold tablePass, replaceWith.
  rewrite (replaceFrom_copy noflags tableRegex _ pipe [] pre eq_refl Hpre).
  destruct (matchAt_table (lastBefore None pre) h nl r Hh Hnl Hne Hr) as (y & Hm & Hrest & Hcaps).
  assert (E : pipe :: h ++ pipe :: nl ++ r
              = pipe :: (h ++ pipe :: nl ++ fst (splitBlock r)) ++ snd (splitBlock r)).
  { rewrite <- !app_assoc. cbn [app]. rewrite <- app_assoc, splitBlock_app. reflexivity. }
  rewrite E in Hm |- *.
  rewrite (replaceFrom_step noflags tableRegex _ _ pipe _ _ y Hm Hrest).
  rewrite Hcaps. cbv beta.
  change (capture 1 [(2%nat, fst (splitBlock r)); (1%nat, pipe :: h ++ pipe :: nl)])
    with (pipe :: h ++ pipe :: nl).
  change (capture 2 [(2%nat, fst (splitBlock r)); (1%nat, pipe :: h ++ pipe :: nl)])
    with (fst (splitBlock r)).
  destruct (tableReplacer (pipe :: h ++ pipe :: nl) (fst (splitBlock r))) as [out|];
    cbn [mbind option_bind]; [|reflexivity].
  rewrite (replaceFrom_before noflags tableRegex _ eq_refl (snd (splitBlock r)) 0 _ None).
  destruct (replaceFrom noflags tableRegex _ 0 None (snd (splitBlock r))) as [tl|];
    cbn [mbind option_bind]; reflexivity.
Qed.

Lemma X12_first_table_of_the_text_witness :
  let pre := lit "Plan:" ++ [LF] in
  let h := lit " a | b " in
  let nl := [LF] in
  let r := lit "|---|---|" ++ [LF] ++ lit "| x | y |" ++ [LF; LF] ++ lit "End" in
  (forallb (fun d => negb (N.eqb d pipe)) pre = true /\
   forallb dot h = true /\ forallb isBreak nl = true /\ nl <> [] /\
   match r with d :: _ => isBreak d = false | [] => True end) /\
  splitBlock r = (lit "|---|---|" ++ [LF] ++ lit "| x | y |", [LF; LF] ++ lit "End") /\
  tablePass (pre ++ pipe :: h ++ pipe :: nl ++ r) =
    out ← tableReplacer (pipe :: h ++ pipe :: nl) (fst (splitBlock r));
    tl ← tablePass (snd (splitBlock r));
    Some (pre ++ out ++ tl).
Proof.
  intros pre h nl r.
  assert (Hpre : forallb (fun d => negb (N.eqb d pipe)) pre = true) by (vm_compute; reflexivity).
  assert (Hh : forallb dot h = true) by (vm_compute; reflexivity).
  assert (Hnl : forallb isBreak nl = true) by (vm_compute; reflexivity).
  assert (Hne : nl <> []) by discriminate.
  assert (Hr : match r with d :: _ => isBreak d = false | [] => True end)
    by (vm_compute; reflexivity).
  split; [repeat split; assumption|].
  split; [vm_compute; reflexivity|].
  exact (X12_first_table_of_the_text pre h nl r Hpre Hh Hnl Hne Hr).
Defined.

(* ===================================================================== *)
(** ** Further properties: a plain line before the rest of the text *)
(* ===================================================================== *)

Section PlainLine.

Lemma greedy_sameAt (f : flags) (p : N -> bool) (k k' : option N -> jstring -> option pos) :
  (forall b b' s, atBol f b = atBol f b' -> sameOutcome (k b s) (k' b' s)) ->
  forall s b b', atBol f b = atBol f b' -> sameOutcome (greedy p k b s) (greedy p k' b' s).
Proof.
  intros Hk. induction s as [|c s IH]; intros b b' Hb; cbn [greedy]; [apply Hk, Hb|].
  destruct (p c); [|apply Hk, Hb].
  specialize (IH (Some c) (Some c) eq_refl).
  destruct (greedy p k (Some c) s), (greedy p k' (Some c) s); cbn in IH;
    try contradiction; [exact IH|apply Hk, Hb].
Qed.

Lemma reluctant_sameAt (f : flags) (p : N -> bool) (k k' : option N -> jstring -> option pos) :
  (forall b b' s, atBol f b = atBol f b' -> sameOutcome (k b s) (k' b' s)) ->
  forall s b b', atBol f b = atBol f b' ->
    sameOutcome (reluctant p k b s) (reluctant p k' b' s).
Proof.
  intros Hk. induction s as [|c s IH]; intros b b' Hb; cbn [reluctant].
  - specialize (Hk b b' [] Hb). destruct (k b []), (k' b' []); cbn in Hk;
      try contradiction; [exact Hk|exact I].
  - specialize (Hk b b' (c :: s) Hb). destruct (k b (c :: s)), (k' b' (c :: s)); cbn in Hk;
      try contradiction; [exact Hk|].
    destruct (p c); [apply IH; reflexivity|exact I].
Qed.

Lemma run_sameAt (f : flags) (r : re) :
  forall x x' k k',
    samePosAt f x x' ->
    (forall y y', samePosAt f y y' -> sameOutcome (k y) (k' y')) ->
    sameOutcome (run f r x k) (run f r x' k').
Proof.
  induction r as [c|p|p|p|p|a IHa b IHb|a IHa b IHb|i a IHa|a IHa| |];
    intros x x' k k' (Hbol & Hrest & Hcaps) Hk; cbn [run].
  - rewrite <- Hrest, <- Hcaps. destruct (rest x) as [|d s']; [exact I|].
    destruct (N.eqb d c); [|exact I]. apply Hk. repeat split; reflexivity.
  - rewrite <- Hrest, <- Hcaps. destruct (rest x) as [|d s']; [exact I|].
    destruct (p d); [|exact I]. apply Hk. repeat split; reflexivity.
  - rewrite <- Hrest, <- Hcaps. apply (greedy_sameAt f); [|exact Hbol].
    intros. apply Hk. repeat split; [assumption|reflexivity..].
  - rewrite <- Hrest, <- Hcaps. apply (reluctant_sameAt f); [|exact Hbol].
    intros. apply Hk. repeat split; [assumption|reflexivity..].
  - rewrite <- Hrest, <- Hcaps. destruct (rest x) as [|d s']; [exact I|].
    destruct (p d); [|exact I]. apply (greedy_sameAt f); [|reflexivity].
    intros. apply Hk. repeat split; [assumption|reflexivity..].
  - apply IHa; [repeat split; assumption|].
    intros y y' Hy. apply IHb; assumption.
  - pose proof (IHa x x' k k' (conj Hbol (conj Hrest Hcaps)) Hk) as H1.
    destruct (run f a x k), (run f a x' k'); cbn in H1; try contradiction; [exact H1|].
    apply IHb; [repeat split; assumption|exact Hk].
  - apply IHa; [repeat split; assumption|].
    intros y y' (Hy0 & Hy1 & Hy2). apply Hk. repeat split; cbn [before rest caps];
      [exact Hy0|exact Hy1|]. rewrite Hrest, Hy1, Hy2. reflexivity.
  - pose proof (IHa x x' Some Some (conj Hbol (conj Hrest Hcaps))
                  (fun y y' H => conj (proj1 (proj2 H)) (proj2 (proj2 H)))) as H1.
    destruct (run f a x Some) as [y|], (run f a x' Some) as [y'|]; cbn in H1;
      try contradiction; [|exact I].
    apply Hk. destruct H1 as [_ H1]. repeat split; cbn [before rest caps]; assumption.
  - assert (Hx : samePosAt f x x') by (repeat split; assumption).
    rewrite <- Hbol. destruct (atBol f (before x)); [|exact I]. apply Hk, Hx.
  - rewrite <- Hrest. destruct (atEol f (rest x)); [|exact I].
    apply Hk. repeat split; assumption.
Qed.

(** Replacing does not depend on the character before the text, as long
    as it leaves the text at the start of a line or not. *)
Lemma replacePure_sameAt (f : flags) (r : re) (fn : list (nat * jstring) -> jstring) :
  forall s skip b b', atBol f b = atBol f b' ->
    replacePure f r fn skip b s = replacePure f r fn skip b' s.
Proof.
  assert (Hm : forall b b' s, atBol f b = atBol f b' ->
                 sameOutcome (matchAt f r b s) (matchAt f r b' s)).
  { intros b b' s Hb. apply run_sameAt; [repeat split; exact Hb|].
    intros y y' H. exact (conj (proj1 (proj2 H)) (proj2 (proj2 H))). }
  induction s as [|c s IH]; intros skip b b' Hb.
  - destruct skip; cbn [replacePure]; [|reflexivity].
    specialize (Hm b b' [] Hb).
    destruct (matchAt f r b []) as [y|], (matchAt f r b' []) as [y'|]; cbn in Hm;
      try contradiction; [|reflexivity].
    destruct Hm as [_ ->]. reflexivity.
  - destruct skip as [|n]; cbn [replacePure]; [|apply IH; reflexivity].
    specialize (Hm b b' (c :: s) Hb).
    destruct (matchAt f r b (c :: s)) as [y|], (matchAt f r b' (c :: s)) as [y'|];
      cbn in Hm; try contradiction; [|reflexivity].
    destruct Hm as [-> ->]. reflexivity.
Qed.

(** A pass copies a text that does not hold the first character it looks
    for, and treats what follows as if it came after a line feed. *)
Lemma replace_after_line (f : flags) (r : re) (fn : list (nat * jstring) -> jstring)
    (c : N) (l a m : jstring) :
  headLit r = c :: l -> N.eqb LF c = false ->
  forallb (fun d => negb (N.eqb d c)) a = true ->
  multiline f = true \/ noBol r = true ->
  replace f r fn ((a ++ [LF; LF]) ++ m) = (a ++ [LF; LF]) ++ replace f r fn m.
Proof.
  intros Hhead Hc Ha Hr. unfold replace.
  rewrite (replacePure_copy f r fn c l (a ++ [LF; LF]) Hhead).
  - f_equal. destruct Hr as [Hr|Hr].
    + apply replacePure_sameAt.
      replace (lastBefore None (a ++ [LF; LF])) with (Some LF).
      * cbn [atBol]. rewrite Hr. reflexivity.
      * clear. generalize (@None N). induction a as [|d a IH]; intros b; [reflexivity|].
        cbn [app lastBefore]. apply IH.
    + apply replacePure_before, Hr.
  - rewrite forallb_app, Ha. cbn [forallb]. rewrite Hc. reflexivity.
Qed.

Lemma plain_without (c : N) (a : jstring) :
  isPlain c = false -> forallb isPlain a = true ->
  forallb (fun d => negb (N.eqb d c)) a = true.
Proof.
  intros Hc. induction a as [|d a IH]; [reflexivity|]. cbn [forallb].
  intros Ha. apply andb_prop in Ha as [Hd Ha]. rewrite (IH Ha), andb_true_r.
  destruct (N.eqb_spec d c) as [->|]; [|reflexivity]. rewrite Hc in Hd. discriminate Hd.
Qed.

Lemma includes_copy (c : N) (l u t : jstring) :
  forallb (fun d => negb (N.eqb d c)) u = true ->
  includes (c :: l) (u ++ t) = includes (c :: l) t.
Proof.
  induction u as [|d u IH]; [reflexivity|]. cbn [forallb]. intros Hu.
  apply andb_prop in Hu as [Hd Hu]. cbn [app includes startsWith].
  rewrite N.eqb_sym. apply negb_true_iff in Hd. rewrite Hd. cbn [andb orb]. apply IH, Hu.
Qed.

Lemma normalizeNewlines_line (a t : jstring) :
  forallb (fun d => negb (N.eqb d LF)) a = true ->
  normalizeNewlines ((a ++ [LF; LF]) ++ t) = a ++ lit "<p></p>" ++ normalizeNewlines t.
Proof.
  induction a as [|d a IH]; [reflexivity|]. cbn [forallb]. intros Ha.
  apply andb_prop in Ha as [Hd Ha]. apply negb_true_iff in Hd.
  cbn [app normalizeNewlines]. rewrite Hd. f_equal. apply IH, Ha.
Qed.

Lemma last_passes_scan (s : jstring) :
  replace noflags newlineRegex (fun _ => lit "<br>")
    (replace noflags paragraphRegex (fun _ => lit "<p></p>") s)
  = normalizeNewlines s.
Proof. apply (last_two_passes (length s) s None None). reflexivity. Qed.

End PlainLine.

(** X13. A plain line followed by a blank line: the line is written as it
    is, the blank line becomes a paragraph break, and the text after it is
    rendered as if it stood alone.  Nothing in the line changes how the
    rest is read, and nothing in the rest changes the line. *)
Theorem X13_plain_line_then_rest (a m : jstring) :
  forallb isPlain a = true ->
  MarkdownRenderer (JString (a ++ [LF; LF] ++ m)) =
    html ← MarkdownRenderer (JString m); Some (a ++ lit "<p></p>" ++ html).
Proof.
  intros Ha. rewrite (app_assoc a). cbn [MarkdownRenderer].
  assert (Hfree : forall c, isPlain c = false ->
            forallb (fun d => negb (N.eqb d c)) a = true)
    by (intros c Hc; exact (plain_without c a Hc Ha)).
  unfold fencePass at 1.
  rewrite (replace_after_line noflags fenceRegex _ 96%N _ a m eq_refl eq_refl
             (Hfree 96%N eq_refl) (or_intror eq_refl)).
  fold (fencePass m). set (m1 := fencePass m).
  unfold tablePass, replaceWith.
  rewrite (replaceFrom_copy noflags tableRegex _ pipe [] (a ++ [LF; LF]) eq_refl)
    by (rewrite forallb_app, (Hfree pipe eq_refl); reflexivity).
  rewrite (replaceFrom_before noflags tableRegex _ eq_refl m1 0 _ None).
  destruct (replaceFrom noflags tableRegex _ 0 None m1) as [m2|];
    cbn [mbind option_bind]; [|reflexivity].
  f_equal. unfold inlinePasses. cbv zeta.
  rewrite (replace_after_line noflags h4Regex _ 35%N _ a m2 eq_refl eq_refl
             (Hfree 35%N eq_refl) (or_intror eq_refl)).
  rewrite (replace_after_line noflags h3Regex _ 35%N _ a _ eq_refl eq_refl
             (Hfree 35%N eq_refl) (or_intror eq_refl)).
  rewrite (replace_after_line noflags boldRegex _ 42%N _ a _ eq_refl eq_refl
             (Hfree 42%N eq_refl) (or_intror eq_refl)).
  rewrite (replace_after_line noflags italicRegex _ 42%N _ a _ eq_refl eq_refl
             (Hfree 42%N eq_refl) (or_intror eq_refl)).
  rewrite (replace_after_line noflags ruleRegex _ 45%N _ a _ eq_refl eq_refl
             (Hfree 45%N eq_refl) (or_intror eq_refl)).
  unfold listPass. cbv zeta.
  rewrite (replace_after_line mflag bulletRegex _ 42%N _ a _ eq_refl eq_refl
             (Hfree 42%N eq_refl) (or_introl eq_refl)).
  change (lit "<li>") with (60%N :: lit "li>").
  rewrite (includes_copy 60%N (lit "li>") (a ++ [LF; LF]))
    by (rewrite forallb_app, (Hfree 60%N eq_refl); reflexivity).
  match goal with |- context [includes ?p ?s] => destruct (includes p s) end.
  - rewrite (replace_after_line noflags liRegex _ 60%N _ a _ eq_refl eq_refl
               (Hfree 60%N eq_refl) (or_intror eq_refl)).
    rewrite (replace_after_line noflags ulJoinRegex _ 60%N _ a _ eq_refl eq_refl
               (Hfree 60%N eq_refl) (or_intror eq_refl)).
    rewrite !last_passes_scan. apply normalizeNewlines_line, (Hfree LF eq_refl).
  - rewrite !last_passes_scan. apply normalizeNewlines_line, (Hfree LF eq_refl).
Qed.

Lemma X13_plain_line_then_rest_witness :
  let a := lit "Study plan for 7 days." in
  let m := lit "## Week 1" ++ [LF] ++ lit "* read chapter 2" in
  forallb isPlain a = true /\
  MarkdownRenderer (JString m)
    = Some (lit "<h4>Week 1</h4><br><ul><li>read chapter 2</li></ul>") /\
  MarkdownRenderer (JString (a ++ [LF; LF] ++ m)) =
    html ← MarkdownRenderer (JString m); Some (a ++ lit "<p></p>" ++ html).
Proof.
  intros a m. assert (Ha : forallb isPlain a = true) by (vm_compute; reflexivity).
  split; [exact Ha|]. split; [vm_compute; reflexivity|].
  exact (X13_plain_line_then_rest a m Ha).
Defined.

(* ===================================================================== *)
(** ** Further properties: heading lines *)
(* ===================================================================== *)

Section Headings.

Lemma replacePure_absent (f : flags) (r : re) (fn : list (nat * jstring) -> jstring)
    (c : N) (l s : jstring) :
  headLit r = c :: l -> forallb (fun d => negb (N.eqb d c)) s = true ->
  forall b, replacePure f r fn 0 b s = s.
Proof.
  intros Hhead Hs. apply replacePure_unmatched.
  apply (unmatched_without_head f r c l s Hhead Hs).
Qed.

Lemma replaceFrom_absent (f : flags) (r : re)
    (fn : jstring -> list (nat * jstring) -> option jstring) (c : N) (l s : jstring) :
  headLit r = c :: l -> forallb (fun d => negb (N.eqb d c)) s = true ->
  forall b, replaceFrom f r fn 0 b s = Some s.
Proof.
  intros Hhead Hs. apply replaceFrom_unmatched.
  apply (unmatched_without_head f r c l s Hhead Hs).
Qed.

Lemma replace_absent (f : flags) (r : re) (fn : list (nat * jstring) -> jstring)
    (c : N) (l s : jstring) :
  headLit r = c :: l -> forallb (fun d => negb (N.eqb d c)) s = true ->
  replace f r fn s = s.
Proof. intros Hhead Hs. apply (replacePure_absent f r fn c l s Hhead Hs). Qed.

Lemma normalizeNewlines_id (s : jstring) :
  forallb (fun d => negb (N.eqb d LF)) s = true -> normalizeNewlines s = s.
Proof.
  induction s as [|c s IH]; [reflexivity|]. cbn [forallb]. intros H.
  apply andb_prop in H as [Hc Hs]. apply negb_true_iff in Hc.
  cbn [normalizeNewlines]. rewrite Hc, (IH Hs). reflexivity.
Qed.

Lemma forallb_replicate (p : N -> bool) (c : N) (k : nat) :
  p c = true -> forallb p (replicate k c) = true.
Proof. intros Hc. induction k as [|k IH]; cbn [replicate forallb]; [reflexivity|]. rewrite Hc. exact IH. Qed.

(** The passes after the two heading passes leave alone a text without
    star, dash, list item and line feed. *)
Lemma passes_after_headings (s : jstring) :
  forallb (fun d => negb (N.eqb d 42)) s = true ->
  forallb (fun d => negb (N.eqb d 45)) s = true ->
  forallb (fun d => negb (N.eqb d LF)) s = true ->
  includes (lit "<li>") s = false ->
  replace noflags newlineRegex (fun _ => lit "<br>")
    (replace noflags paragraphRegex (fun _ => lit "<p></p>")
       (listPass
          (replace noflags ruleRegex (fun _ => lit "<hr>")
             (replace noflags italicRegex (wrap "<em>" "</em>")
                (replace noflags boldRegex (wrap "<strong>" "</strong>") s)))))
  = s.
Proof.
  intros Hstar Hdash Hlf Hli.
  rewrite (replace_absent noflags boldRegex _ 42%N _ s eq_refl Hstar).
  rewrite (replace_absent noflags italicRegex _ 42%N _ s eq_refl Hstar).
  rewrite (replace_absent noflags ruleRegex _ 45%N _ s eq_refl Hdash).
  unfold listPass. cbv zeta.
  rewrite (replace_absent mflag bulletRegex _ 42%N _ s eq_refl Hstar).
  rewrite Hli, last_passes_scan. apply normalizeNewlines_id, Hlf.
Qed.

(** A heading marker followed by a text without line terminator: the
    match takes the whole text. *)
Lemma matchAt_heading (marker t : jstring) (b : option N) :
  marker <> [] -> forallb dot t = true ->
  exists y,
    matchAt noflags (Seq (str marker) (Group 1 (Star dot))) b (marker ++ t) = Some y /\
    rest y = [] /\ caps y = [(1%nat, t)].
Proof.
  intros Hm Ht. unfold matchAt. cbn [run]. rewrite (run_str noflags marker Hm).
  cbn [rest before caps]. rewrite startsWith_app, drop_app_length.
  eexists. split.
  - rewrite <- (app_nil_r t) at 1. apply (greedy_max dot _ t []); [exact Ht| |exact I].
    reflexivity.
  - cbn [rest caps]. split; [reflexivity|].
    rewrite <- (app_nil_r t) at 1. rewrite between_app. reflexivity.
Qed.

Lemma includes_skip (p : jstring) (c : N) (s : jstring) :
  startsWith p (c :: s) = false -> includes p (c :: s) = includes p s.
Proof. intros H. cbn [includes]. rewrite H. reflexivity. Qed.

Lemma heading_pass (marker open close : string) (t : jstring) (b : option N) :
  lit marker <> [] -> forallb dot t = true ->
  replacePure noflags (Seq (str (lit marker)) (Group 1 (Star dot))) (wrap open close) 0 b
    (lit marker ++ t)
  = lit open ++ t ++ lit close.
Proof.
  intros Hm Ht. destruct (matchAt_heading (lit marker) t b Hm Ht) as (y & Hy & Hrest & Hcaps).
  destruct (lit marker) as [|c u] eqn:E; [congruence|].
  change ((c :: u) ++ t) with (c :: u ++ t) in *.
  rewrite <- (app_nil_r t) in Hy at 1. rewrite <- (app_nil_r t) at 1.
  rewrite !app_assoc in *.
  rewrite (replacePure_step _ _ _ b c (u ++ t) [] y Hy Hrest), Hcaps.
  assert (Hend : forall b', replacePure noflags (Seq (str (c :: u)) (Group 1 (Star dot)))
                   (wrap open close) 0 b' [] = []).
  { intros b'. cbn [replacePure]. unfold matchAt. cbn [run].
    rewrite run_str by discriminate. reflexivity. }
  rewrite Hend. unfold wrap. rewrite app_nil_r, <- app_assoc. reflexivity.
Qed.

Lemma no_item_in_tags (x : N) (tag1 tag2 t : jstring) :
  N.eqb 108 x = false ->
  forallb (fun d => negb (N.eqb d 60)) (x :: tag1) = true ->
  forallb (fun d => negb (N.eqb d 60)) t = true ->
  includes (lit "<li>") tag2 = false ->
  includes (lit "<li>") (60%N :: x :: tag1 ++ t ++ tag2) = false.
Proof.
  intros Hx H1 Ht H2. change (lit "<li>") with (60%N :: 108%N :: lit "i>").
  rewrite includes_skip by (cbn [startsWith]; rewrite Hx, andb_false_r; reflexivity).
  change (x :: tag1 ++ t ++ tag2) with ((x :: tag1) ++ t ++ tag2). rewrite app_assoc.
  rewrite includes_copy; [exact H2|]. rewrite forallb_app, H1, Ht. reflexivity.
Qed.

Lemma h4_hashes (t : jstring) :
  forallb dot t = true ->
  forall k b,
    replacePure noflags h4Regex (wrap "<h4>" "</h4>") 0 b (replicate k 35%N ++ lit "## " ++ t)
    = replicate k 35%N ++ lit "<h4>" ++ t ++ lit "</h4>".
Proof.
  intros Ht. induction k as [|k IH]; intros b.
  - apply (heading_pass "## " "<h4>" "</h4>" t b); [discriminate|exact Ht].
  - cbn [replicate app replacePure].
    destruct (matchAt noflags h4Regex b (35%N :: replicate k 35%N ++ lit "## " ++ t))
      as [y|] eqn:Hm.
    + apply matchAt_headLit in Hm. exfalso.
      destruct k as [|[|k]]; vm_compute in Hm; discriminate Hm.
    + f_equal. apply IH.
Qed.

Lemma h3_hashes (t : jstring) :
  forallb (fun d => negb (N.eqb d 35)) t = true ->
  forall k b,
    replacePure noflags h3Regex (wrap "<h3>" "</h3>") 0 b
      (replicate k 35%N ++ lit "<h4>" ++ t ++ lit "</h4>")
    = replicate k 35%N ++ lit "<h4>" ++ t ++ lit "</h4>".
Proof.
  intros Ht. induction k as [|k IH]; intros b.
  - apply (replacePure_absent noflags h3Regex _ 35%N _ _ eq_refl).
    cbn [replicate app]. rewrite !forallb_app, Ht. reflexivity.
  - cbn [replicate app replacePure].
    destruct (matchAt noflags h3Regex b
                (35%N :: replicate k 35%N ++ lit "<h4>" ++ t ++ lit "</h4>")) as [y|] eqn:Hm.
    + apply matchAt_headLit in Hm. exfalso.
      destruct k as [|k]; vm_compute in Hm; discriminate Hm.
    + f_equal. apply IH.
Qed.

Lemma h4_single_hash (t : jstring) :
  forallb (fun d => negb (N.eqb d 35)) t = true ->
  replace noflags h4Regex (wrap "<h4>" "</h4>") (lit "# " ++ t) = lit "# " ++ t.
Proof.
  intros Ht. unfold replace. change (lit "# " ++ t) with (35%N :: 32%N :: t).
  cbn [replacePure].
  destruct (matchAt noflags h4Regex None (35%N :: 32%N :: t)) as [y|] eqn:Hm.
  - apply matchAt_headLit in Hm. vm_compute in Hm. discriminate Hm.
  - f_equal.
    exact (replacePure_absent noflags h4Regex (wrap "<h4>" "</h4>") 35%N _ (32%N :: t)
             eq_refl Ht (Some 35%N)).
Qed.

Lemma h3_line (t : jstring) :
  forallb dot t = true ->
  replace noflags h3Regex (wrap "<h3>" "</h3>") (lit "# " ++ t) = lit "<h3>" ++ t ++ lit "</h3>".
Proof.
  intros Ht. apply (heading_pass "# " "<h3>" "</h3>" t None); [discriminate|exact Ht].
Qed.

Lemma h4_line (k : nat) (t : jstring) :
  forallb dot t = true ->
  replace noflags h4Regex (wrap "<h4>" "</h4>") (replicate k 35%N ++ lit "## " ++ t)
  = replicate k 35%N ++ lit "<h4>" ++ t ++ lit "</h4>".
Proof. intros Ht. apply (h4_hashes t Ht k None). Qed.

Lemma h3_after_h4 (k : nat) (t : jstring) :
  forallb (fun d => negb (N.eqb d 35)) t = true ->
  replace noflags h3Regex (wrap "<h3>" "</h3>")
    (replicate k 35%N ++ lit "<h4>" ++ t ++ lit "</h4>")
  = replicate k 35%N ++ lit "<h4>" ++ t ++ lit "</h4>".
Proof. intros Ht. apply (h3_hashes t Ht k None). Qed.

End Headings.

(** X14. Heading lines.  A line that starts with one hash and a space is
    rendered as a heading of level three, and a line that starts with two
    hashes and a space as a heading of level four.  A line with more
    hashes is a heading of level four too, and the hashes before the last
    two stay in front of it as text: deeper levels are not told apart. *)
Theorem X14_heading_lines (k : nat) (t : jstring) :
  forallb isPlain t = true -> forallb dot t = true ->
  MarkdownRenderer (JString (lit "# " ++ t)) = Some (lit "<h3>" ++ t ++ lit "</h3>") /\
  MarkdownRenderer (JString (replicate k 35%N ++ lit "## " ++ t))
    = Some (replicate k 35%N ++ lit "<h4>" ++ t ++ lit "</h4>").
Proof.
  intros Hplain Hdot.
  assert (Hfree : forall c, isPlain c = false ->
            forallb (fun d => negb (N.eqb d c)) t = true)
    by (intros c Hc; exact (plain_without c t Hc Hplain)).
  assert (Hhash : forall c k', N.eqb 35 c = false ->
            forallb (fun d => negb (N.eqb d c)) (replicate k' 35%N) = true).
  { intros c k' Hc. apply forallb_replicate. rewrite Hc. reflexivity. }
  split; cbn [MarkdownRenderer]; unfold fencePass, tablePass, replaceWith.
  - rewrite (replace_absent noflags fenceRegex _ 96%N _ _ eq_refl)
      by (rewrite forallb_app, (Hfree 96%N eq_refl); reflexivity).
    rewrite (replaceFrom_absent noflags tableRegex _ pipe _ _ eq_refl)
      by (rewrite forallb_app, (Hfree pipe eq_refl); reflexivity).
    cbn [mbind option_bind]. f_equal. unfold inlinePasses. cbv zeta.
    rewrite (h4_single_hash t (Hfree 35%N eq_refl)).
    rewrite (h3_line t Hdot).
    apply passes_after_headings.
    + rewrite !forallb_app, (Hfree 42%N eq_refl). reflexivity.
    + rewrite !forallb_app, (Hfree 45%N eq_refl). reflexivity.
    + rewrite !forallb_app, (Hfree LF eq_refl). reflexivity.
    + exact (no_item_in_tags 104%N [51%N; 62%N] (lit "</h3>") t eq_refl eq_refl
               (Hfree 60%N eq_refl) eq_refl).
  - rewrite (replace_absent noflags fenceRegex _ 96%N _ _ eq_refl)
      by (rewrite !forallb_app, (Hhash 96%N k eq_refl), (Hfree 96%N eq_refl); reflexivity).
    rewrite (replaceFrom_absent noflags tableRegex _ pipe _ _ eq_refl)
      by (rewrite !forallb_app, (Hhash pipe k eq_refl), (Hfree pipe eq_refl); reflexivity).
    cbn [mbind option_bind]. f_equal. unfold inlinePasses. cbv zeta.
    rewrite (h4_line k t Hdot), (h3_after_h4 k t (Hfree 35%N eq_refl)).
    apply passes_after_headings.
    + rewrite !forallb_app, (Hhash 42%N k eq_refl), (Hfree 42%N eq_refl). reflexivity.
    + rewrite !forallb_app, (Hhash 45%N k eq_refl), (Hfree 45%N eq_refl). reflexivity.
    + rewrite !forallb_app, (Hhash LF k eq_refl), (Hfree LF eq_refl). reflexivity.
    + change (lit "<li>") with (60%N :: lit "li>").
      rewrite (includes_copy 60%N (lit "li>") _ _ (Hhash 60%N k eq_refl)).
      exact (no_item_in_tags 104%N [52%N; 62%N] (lit "</h4>") t eq_refl eq_refl
               (Hfree 60%N eq_refl) eq_refl).
Qed.

Lemma X14_heading_lines_witness :
  let t := lit "Week 1: algebra" in
  (forallb isPlain t = true /\ forallb dot t = true) /\
  MarkdownRenderer (JString (lit "# Week 1: algebra")) = Some (lit "<h3>Week 1: algebra</h3>") /\
  MarkdownRenderer (JString (lit "### Week 1: algebra"))
    = Some (lit "#<h4>Week 1: algebra</h4>").
Proof.
  intros t. assert (Hp : forallb isPlain t = true) by (vm_compute; reflexivity).
  assert (Hd : forallb dot t = true) by (vm_compute; reflexivity).
  split; [split; assumption|]. exact (X14_heading_lines 1 t Hp Hd).
Defined.

(* ===================================================================== *)
(** ** Further properties: the session and the stored token *)
(* ===================================================================== *)

Section Session.

Lemma effect_token (p : App.provider) : App.token (App.effect p) = App.token p.
Proof. unfold App.effect. destruct (App.token p) as [t|]; [destruct (truthy t)|]; reflexivity. Qed.

Lemma effect_mirrored (p : App.provider) : mirrored (App.effect p).
Proof.
  unfold mirrored, App.isAuthenticated. rewrite effect_token. unfold App.effect.
  destruct (App.token p) as [t|]; [destruct (truthy t)|]; cbn [App.localStorage].
  - apply lookup_insert_eq.
  - apply lookup_delete_eq.
  - apply lookup_delete_eq.
Qed.

Lemma effect_other_keys (p : App.provider) (k : list N) :
  k <> lit "token" -> App.localStorage (App.effect p) !! k = App.localStorage p !! k.
Proof.
  intros Hk. unfold App.effect.
  destruct (App.token p) as [t|]; [destruct (truthy t)|]; cbn [App.localStorage].
  - apply lookup_insert_ne. congruence.
  - apply lookup_delete_ne. congruence.
  - apply lookup_delete_ne. congruence.
Qed.

Lemma perform_mirrored (p : App.provider) (c : call) : mirrored p -> mirrored (perform p c).
Proof.
  intros Hp. destruct c as [newToken|]; cbn [perform]; unfold App.login, App.logout, App.setToken.
  - destruct (decide (App.token p = newToken)); [exact Hp|apply effect_mirrored].
  - destruct (decide (App.token p = None)); [exact Hp|apply effect_mirrored].
Qed.

Lemma perform_other_keys (p : App.provider) (c : call) (k : list N) :
  k <> lit "token" -> App.localStorage (perform p c) !! k = App.localStorage p !! k.
Proof.
  intros Hk. destruct c as [newToken|]; cbn [perform];
    unfold App.login, App.logout, App.setToken.
  - destruct (decide (App.token p = newToken)); [reflexivity|].
    rewrite (effect_other_keys _ k Hk). reflexivity.
  - destruct (decide (App.token p = None)); [reflexivity|].
    rewrite (effect_other_keys _ k Hk). reflexivity.
Qed.

Lemma session_mirrored (calls : list call) :
  forall p, mirrored p -> mirrored (fold_left perform calls p).
Proof.
  induction calls as [|c calls IH]; intros p Hp; cbn [fold_left]; [exact Hp|].
  apply IH, perform_mirrored, Hp.
Qed.

Lemma session_other_keys (calls : list call) (k : list N) :
  k <> lit "token" ->
  forall p, App.localStorage (fold_left perform calls p) !! k = App.localStorage p !! k.
Proof.
  intros Hk. induction calls as [|c calls IH]; intros p; cbn [fold_left]; [reflexivity|].
  rewrite IH. apply perform_other_keys, Hk.
Qed.

(** Mounting the provider on a storage that mirrors a state gives back the
    storage, and the token when there is a session. *)
Lemma reload_mirrored (p : App.provider) :
  mirrored p ->
  App.localStorage (App.AuthProvider (App.localStorage p)) = App.localStorage p /\
  App.token (App.AuthProvider (App.localStorage p))
    = if App.isAuthenticated p then App.token p else None.
Proof.
  unfold mirrored, App.AuthProvider. intros Hp. rewrite effect_token. cbn [App.token].
  split; [|exact Hp]. unfold App.effect. cbn [App.token App.localStorage]. rewrite Hp.
  unfold App.isAuthenticated in *. destruct (App.token p) as [t|]; [destruct (truthy t) eqn:Ht|].
  - rewrite Ht. apply insert_id. exact Hp.
  - apply delete_id. exact Hp.
  - apply delete_id. exact Hp.
Qed.

End Session.

(** X15. Whatever the storage of the page holds when the provider is
    mounted, and whatever calls of login and logout follow, the stored
    token mirrors the state: it is the token when the user is
    authenticated, it is absent when the token is null or the empty
    string, and no other entry of the storage is ever changed. *)
Theorem X15_stored_token_mirrors_the_session (storage : gmap (list N) jstring)
    (calls : list call) :
  let p := fold_left perform calls (App.AuthProvider storage) in
  App.localStorage p !! lit "token" = (if App.isAuthenticated p then App.token p else None) /\
  forall k, k <> lit "token" -> App.localStorage p !! k = storage !! k.
Proof.
  cbv zeta. split.
  - apply session_mirrored, effect_mirrored.
  - intros k Hk. rewrite (session_other_keys calls k Hk). unfold App.AuthProvider.
    rewrite (effect_other_keys _ k Hk). reflexivity.
Qed.

(** X16. A reload keeps the session.  Mounting the provider again on the
    storage left by any sequence of calls gives the same answer to the
    question whether the user is authenticated, the same token when the
    user is, the same storage, and so the same outcome of every private
    route: its element for a user who logged in with a token that is not
    empty, the redirection to /login after a logout. *)
Theorem X16_reload_keeps_the_session (storage : gmap (list N) jstring) (calls : list call)
    (E : Type) (element : E) :
  let p := fold_left perform calls (App.AuthProvider storage) in
  let q := App.AuthProvider (App.localStorage p) in
  App.isAuthenticated q = App.isAuthenticated p /\
  (App.isAuthenticated p = true -> App.token q = App.token p) /\
  App.localStorage q = App.localStorage p /\
  App.PrivateRoute q element = App.PrivateRoute p element.
Proof.
  cbv zeta. set (p := fold_left perform calls (App.AuthProvider storage)).
  assert (Hp : mirrored p) by (apply session_mirrored, effect_mirrored).
  destruct (reload_mirrored p Hp) as [Hs Ht].
  assert (Ha : App.isAuthenticated (App.AuthProvider (App.localStorage p))
               = App.isAuthenticated p).
  { unfold App.isAuthenticated at 1. rewrite Ht. unfold App.isAuthenticated.
    destruct (App.token p) as [t|]; [destruct (truthy t) eqn:E1; [exact E1|]|]; reflexivity. }
  split; [exact Ha|]. split; [intros H; rewrite Ht, H; reflexivity|].
  split; [exact Hs|]. unfold App.PrivateRoute. rewrite Ha. reflexivity.
Qed.

(* ===================================================================== *)
(** ** Further properties: a line with bold text before the rest *)
(* ===================================================================== *)

Section BoldLine.

Lemma mismatch_startsWith (p s : jstring) :
  mismatch p s = true -> forall t, startsWith p (s ++ t) = false.
Proof.
  revert s. induction p as [|c p IH]; intros s H t; [destruct s; discriminate H|].
  destruct s as [|d s]; [discriminate H|]. cbn [mismatch] in H. cbn [app startsWith].
  destruct (N.eqb c d); [|reflexivity]. cbn [andb]. apply IH, H.
Qed.

Lemma mismatch_app (p s t : jstring) : mismatch p s = true -> mismatch p (s ++ t) = true.
Proof.
  revert s. induction p as [|c p IH]; intros s H; [destruct s; discriminate H|].
  destruct s as [|d s]; [discriminate H|]. cbn [mismatch app] in *.
  destruct (N.eqb c d); [apply IH, H|reflexivity].
Qed.

Lemma noStart_app (p u v : jstring) :
  noStart p u = true -> noStart p v = true -> noStart p (u ++ v) = true.
Proof.
  intros Hu Hv. induction u as [|c u IH]; [exact Hv|]. cbn [noStart] in Hu.
  apply andb_prop in Hu as [Hc Hu]. cbn [app noStart].
  rewrite (IH Hu), andb_true_r. apply (mismatch_app p (c :: u) v Hc).
Qed.

Lemma noStart_free (c : N) (l s : jstring) :
  forallb (fun d => negb (N.eqb d c)) s = true -> noStart (c :: l) s = true.
Proof.
  induction s as [|d s IH]; [reflexivity|]. cbn [forallb]. intros H.
  apply andb_prop in H as [Hd Hs]. cbn [noStart mismatch]. rewrite N.eqb_sym.
  apply negb_true_iff in Hd. rewrite Hd. apply IH, Hs.
Qed.

Lemma replacePure_over (f : flags) (r : re) (fn : list (nat * jstring) -> jstring)
    (u : jstring) :
  noStart (headLit r) u = true ->
  forall b t, replacePure f r fn 0 b (u ++ t) = u ++ replacePure f r fn 0 (lastBefore b u) t.
Proof.
  induction u as [|d u IH]; intros Hu b t; [reflexivity|].
  cbn [noStart] in Hu. apply andb_prop in Hu as [Hd Hu].
  cbn [app replacePure lastBefore].
  destruct (matchAt f r b (d :: u ++ t)) as [y|] eqn:Hm.
  - apply matchAt_headLit in Hm.
    change (d :: u ++ t) with ((d :: u) ++ t) in Hm.
    rewrite (mismatch_startsWith _ (d :: u) Hd t) in Hm. discriminate Hm.
  - f_equal. apply IH, Hu.
Qed.

Lemma includes_over (p u t : jstring) :
  noStart p u = true -> includes p (u ++ t) = includes p t.
Proof.
  induction u as [|d u IH]; [reflexivity|]. cbn [noStart]. intros Hu.
  apply andb_prop in Hu as [Hd Hu]. cbn [app includes].
  change (d :: u ++ t) with ((d :: u) ++ t).
  rewrite (mismatch_startsWith p (d :: u) Hd t). apply IH, Hu.
Qed.

Lemma lastBefore_app (b : option N) (u v : jstring) :
  lastBefore b (u ++ v) = lastBefore (lastBefore b u) v.
Proof. revert b. induction u as [|c u IH]; intros b; [reflexivity|]. apply IH. Qed.

(** A pass goes over a text in which it finds no start of a match and that
    ends with a line feed, and treats what follows as if it stood alone. *)
Lemma replace_over (f : flags) (r : re) (fn : list (nat * jstring) -> jstring)
    (u m : jstring) :
  noStart (headLit r) (u ++ [LF]) = true ->
  multiline f = true \/ noBol r = true ->
  replace f r fn ((u ++ [LF]) ++ m) = (u ++ [LF]) ++ replace f r fn m.
Proof.
  intros Hu Hr. unfold replace. rewrite (replacePure_over f r fn _ Hu). f_equal.
  destruct Hr as [Hr|Hr].
  - apply replacePure_sameAt. rewrite lastBefore_app. cbn [lastBefore atBol].
    rewrite Hr. reflexivity.
  - apply replacePure_before, Hr.
Qed.

(** An opening literal, an interior without the first character of the
    closing literal, the closing literal: the reluctant star stops at it. *)
Lemma matchAt_delimited (f : flags) (p : N -> bool) (op : jstring) (c0 : N) (cl : jstring)
    (b : option N) (interior post : jstring) :
  op <> [] ->
  forallb p interior = true ->
  forallb (fun d => negb (N.eqb d c0)) interior = true ->
  exists y,
    matchAt f (Seq (str op) (Seq (Group 1 (StarLazy p)) (str (c0 :: cl)))) b
      (op ++ interior ++ (c0 :: cl) ++ post) = Some y /\
    rest y = post /\ caps y = [(1%nat, interior)].
Proof.
  intros Hop Hp Hfree. unfold matchAt. cbn [run].
  rewrite (run_str f op Hop). cbn [rest before caps].
  rewrite startsWith_app, drop_app_length.
  match goal with |- exists y, reluctant p ?k ?b0 _ = _ /\ _ => set (k1 := k) end.
  assert (Hk : forall b' s,
            k1 b' s = if startsWith (c0 :: cl) s
                      then Some {| before := lastBefore b' (c0 :: cl);
                                   rest := drop (length (c0 :: cl)) s;
                                   caps := [(1%nat, between (interior ++ (c0 :: cl) ++ post) s)] |}
                      else None).
  { intros b' s. unfold k1. rewrite run_str by discriminate. reflexivity. }
  rewrite (reluctant_skip p k1 ((c0 :: cl) ++ post) interior Hp).
  - eexists. split.
    + apply reluctant_here. rewrite Hk, startsWith_app. reflexivity.
    + cbn [rest caps]. rewrite drop_app_length, between_app. split; reflexivity.
  - intros b' a1 c a2 ->. rewrite Hk. rewrite forallb_app in Hfree.
    apply andb_prop in Hfree as [_ Hfree]. cbn [forallb] in Hfree.
    apply andb_prop in Hfree as [Hc _]. cbn [startsWith]. rewrite N.eqb_sym.
    apply negb_true_iff in Hc. rewrite Hc. reflexivity.
Qed.

(** The bold pass on the first pair of double stars of a text. *)
Lemma bold_first (u x t : jstring) :
  forallb (fun d => negb (N.eqb d 42)) u = true ->
  forallb (fun d => negb (N.eqb d 42)) x = true ->
  forallb dot x = true ->
  replace noflags boldRegex (wrap "<strong>" "</strong>") (u ++ lit "**" ++ x ++ lit "**" ++ t)
  = u ++ lit "<strong>" ++ x ++ lit "</strong>"
      ++ replace noflags boldRegex (wrap "<strong>" "</strong>") t.
Proof.
  intros Hu Hx Hdot. unfold replace.
  rewrite (replacePure_copy noflags boldRegex _ 42%N [42%N] u eq_refl Hu). f_equal.
  destruct (matchAt_delimited noflags dot (lit "**") 42%N [42%N] (lastBefore None u) x t
              ltac:(discriminate) Hdot Hx) as (y & Hy & Hrest & Hcaps).
  change (matchAt noflags boldRegex (lastBefore None u) (lit "**" ++ x ++ lit "**" ++ t) = Some y)
    in Hy.
  assert (E : lit "**" ++ x ++ lit "**" ++ t = 42%N :: ([42%N] ++ x ++ lit "**") ++ t).
  { cbn [app]. rewrite <- app_assoc. reflexivity. }
  rewrite E in Hy |- *.
  rewrite (replacePure_step noflags boldRegex _ _ 42%N _ t y Hy Hrest), Hcaps.
  unfold wrap at 1. change (capture 1 [(1%nat, x)]) with x.
  rewrite <- !app_assoc. do 3 f_equal.
  apply replacePure_before. reflexivity.
Qed.

(** The passes of the renderer over a first part of the text that ends
    with a line feed, that only the bold pass changes, and in which no
    other pass finds the start of a match: the rest is rendered as if it
    stood alone. *)
Lemma render_over (u u1 u2 shown m : jstring) :
  forallb (fun d => negb (N.eqb d 96)) u = true ->
  forallb (fun d => negb (N.eqb d pipe)) u = true ->
  forallb (fun d => negb (N.eqb d 35)) u = true ->
  (forall t, replace noflags boldRegex (wrap "<strong>" "</strong>") ((u ++ [LF]) ++ t)
             = (u1 ++ [LF]) ++ replace noflags boldRegex (wrap "<strong>" "</strong>") t) ->
  forallb (fun d => negb (N.eqb d 42)) u1 = true ->
  (forall t, replace noflags ruleRegex (fun _ => lit "<hr>") ((u1 ++ [LF]) ++ t)
             = (u2 ++ [LF]) ++ replace noflags ruleRegex (fun _ => lit "<hr>") t) ->
  forallb (fun d => negb (N.eqb d 42)) u2 = true ->
  noStart (lit "<li>") (u2 ++ [LF]) = true ->
  noStart (lit "</ul><ul>") (u2 ++ [LF]) = true ->
  (forall t, normalizeNewlines ((u2 ++ [LF]) ++ t) = shown ++ normalizeNewlines t) ->
  MarkdownRenderer (JString ((u ++ [LF]) ++ m)) =
    html ← MarkdownRenderer (JString m); Some (shown ++ html).
Proof.
  intros H96 H124 H35 Hbold H42 Hrule H42' Hli Hul Hnl. cbn [MarkdownRenderer].
  assert (Hfree : forall (c : N) (l w : jstring), N.eqb LF c = false ->
            forallb (fun d => negb (N.eqb d c)) w = true ->
            noStart (c :: l) (w ++ [LF]) = true).
  { intros c l w Hc Hw. apply noStart_free. rewrite forallb_app, Hw. cbn [forallb].
    rewrite Hc. reflexivity. }
  unfold fencePass at 1.
  rewrite (replace_over noflags fenceRegex _ u m (Hfree 96%N _ u eq_refl H96) (or_intror eq_refl)).
  fold (fencePass m). set (m1 := fencePass m).
  unfold tablePass, replaceWith.
  rewrite (replaceFrom_copy noflags tableRegex _ pipe [] (u ++ [LF]) eq_refl)
    by (rewrite forallb_app, H124; reflexivity).
  rewrite (replaceFrom_before noflags tableRegex _ eq_refl m1 0 _ None).
  destruct (replaceFrom noflags tableRegex _ 0 None m1) as [m2|];
    cbn [mbind option_bind]; [|reflexivity].
  f_equal. unfold inlinePasses. cbv zeta.
  rewrite (replace_over noflags h4Regex _ u m2 (Hfree 35%N _ u eq_refl H35) (or_intror eq_refl)).
  rewrite (replace_over noflags h3Regex _ u _ (Hfree 35%N _ u eq_refl H35) (or_intror eq_refl)).
  rewrite Hbold.
  rewrite (replace_over noflags italicRegex _ u1 _ (Hfree 42%N _ u1 eq_refl H42)
             (or_intror eq_refl)).
  rewrite Hrule.
  unfold listPass. cbv zeta.
  rewrite (replace_over mflag bulletRegex _ u2 _ (Hfree 42%N _ u2 eq_refl H42')
             (or_introl eq_refl)).
  rewrite (includes_over (lit "<li>") (u2 ++ [LF]) _ Hli).
  match goal with |- context [includes ?p ?s] => destruct (includes p s) end.
  - rewrite (replace_over noflags liRegex _ u2 _ Hli (or_intror eq_refl)).
    rewrite (replace_over noflags ulJoinRegex _ u2 _ Hul (or_intror eq_refl)).
    rewrite !last_passes_scan. apply Hnl.
  - rewrite !last_passes_scan. apply Hnl.
Qed.

Lemma plain_line_free (c : N) (u x v : jstring) (tag1 tag2 : jstring) :
  isPlain c = false -> N.eqb LF c = false ->
  forallb isPlain u = true -> forallb isPlain x = true -> forallb isPlain v = true ->
  forallb (fun d => negb (N.eqb d c)) tag1 = true ->
  forallb (fun d => negb (N.eqb d c)) tag2 = true ->
  forallb (fun d => negb (N.eqb d c)) (u ++ tag1 ++ x ++ tag2 ++ v ++ [LF]) = true.
Proof.
  intros Hc Hlf Hu Hx Hv H1 H2.
  rewrite !forallb_app, (plain_without c u Hc Hu), (plain_without c x Hc Hx),
    (plain_without c v Hc Hv), H1, H2.
  cbn [forallb andb]. rewrite Hlf. reflexivity.
Qed.

Lemma bold_line_then_rest (u x v m : jstring) :
  forallb isPlain u = true -> forallb isPlain x = true -> forallb isPlain v = true ->
  forallb dot x = true ->
  MarkdownRenderer (JString (u ++ lit "**" ++ x ++ lit "**" ++ v ++ [LF; LF] ++ m)) =
    html ← MarkdownRenderer (JString m);
    Some (u ++ lit "<strong>" ++ x ++ lit "</strong>" ++ v ++ lit "<p></p>" ++ html).
Proof.
  intros Hu Hx Hv Hdot.
  assert (Hfree : forall c w, isPlain c = false -> forallb isPlain w = true ->
            forallb (fun d => negb (N.eqb d c)) w = true)
    by (intros c w Hc Hw; exact (plain_without c w Hc Hw)).
  set (line := u ++ lit "**" ++ x ++ lit "**" ++ v ++ [LF]).
  set (line' := u ++ lit "<strong>" ++ x ++ lit "</strong>" ++ v ++ [LF]).
  assert (E : u ++ lit "**" ++ x ++ lit "**" ++ v ++ [LF; LF] ++ m = (line ++ [LF]) ++ m).
  { unfold line. rewrite <- !app_assoc. reflexivity. }
  rewrite E.
  rewrite (render_over line line' line'
             (u ++ lit "<strong>" ++ x ++ lit "</strong>" ++ v ++ lit "<p></p>") m).
  - destruct (MarkdownRenderer (JString m)) as [html|]; cbn [mbind option_bind]; [|reflexivity].
    rewrite <- !app_assoc. reflexivity.
  - apply (plain_line_free 96%N u x v (lit "**") (lit "**")); auto.
  - apply (plain_line_free pipe u x v (lit "**") (lit "**")); auto.
  - apply (plain_line_free 35%N u x v (lit "**") (lit "**")); auto.
  - intros t. unfold line, line'. rewrite <- !app_assoc.
    rewrite (bold_first u x _ (Hfree 42%N u eq_refl Hu) (Hfree 42%N x eq_refl Hx) Hdot).
    do 4 f_equal.
    assert (Hv' : noStart (headLit boldRegex) ((v ++ [LF]) ++ [LF]) = true).
    { apply (noStart_free 42%N). rewrite !forallb_app, (Hfree 42%N v eq_refl Hv). reflexivity. }
    pose proof (replace_over noflags boldRegex (wrap "<strong>" "</strong>") (v ++ [LF]) t Hv'
                  (or_intror eq_refl)) as R.
    rewrite <- !app_assoc in R. exact R.
  - apply (plain_line_free 42%N u x v (lit "<strong>") (lit "</strong>")); auto.
  - intros t. apply replace_over; [|right; reflexivity]. apply (noStart_free 45%N).
    rewrite forallb_app. apply andb_true_intro. split; [|reflexivity].
    apply (plain_line_free 45%N u x v (lit "<strong>") (lit "</strong>")); auto.
  - apply (plain_line_free 42%N u x v (lit "<strong>") (lit "</strong>")); auto.
  - unfold line'. rewrite !app_assoc, <- !(app_assoc u).
    repeat apply noStart_app; try reflexivity;
      apply noStart_free; apply (Hfree 60%N); auto.
  - unfold line'. rewrite !app_assoc, <- !(app_assoc u).
    repeat apply noStart_app; try reflexivity;
      apply (noStart_free 60%N); apply (Hfree 60%N); auto.
  - intros t. unfold line'.
    replace ((u ++ lit "<strong>" ++ x ++ lit "</strong>" ++ v ++ [LF]) ++ [LF])
      with ((u ++ lit "<strong>" ++ x ++ lit "</strong>" ++ v) ++ [LF; LF])
      by (rewrite <- !app_assoc; reflexivity).
    rewrite normalizeNewlines_line.
    + rewrite <- !app_assoc. reflexivity.
    + rewrite !forallb_app, (Hfree LF u eq_refl Hu), (Hfree LF x eq_refl Hx),
        (Hfree LF v eq_refl Hv). reflexivity.
Qed.

End BoldLine.

(** X17. A line with one bold segment, followed by a blank line.  When the
    texts before, inside and after the pair of double stars are plain,
    the segment is wrapped in a strong element, the rest of the line is
    written as it is, the blank line becomes a paragraph break, and the
    text after it is rendered as if it stood alone. *)
Theorem X17_bold_line_then_rest (u x v m : jstring) :
  forallb isPlain u = true -> forallb isPlain x = true -> forallb isPlain v = true ->
  forallb dot x = true ->
  MarkdownRenderer (JString (u ++ lit "**" ++ x ++ lit "**" ++ v ++ [LF; LF] ++ m)) =
    html ← MarkdownRenderer (JString m);
    Some (u ++ lit "<strong>" ++ x ++ lit "</strong>" ++ v ++ lit "<p></p>" ++ html).
Proof. apply bold_line_then_rest. Qed.

Lemma X17_bold_line_then_rest_witness :
  let u := lit "Note: " in
  let x := lit "bring a calculator" in
  let v := lit " to the test." in
  let m := lit "# Plan" in
  (forallb isPlain u = true /\ forallb isPlain x = true /\ forallb isPlain v = true /\
   forallb dot x = true) /\
  MarkdownRenderer (JString (lit "Note: **bring a calculator** to the test." ++ [LF; LF] ++ m))
  = Some (lit "Note: <strong>bring a calculator</strong> to the test.<p></p><h3>Plan</h3>").
Proof.
  intros u x v m.
  assert (Hu : forallb isPlain u = true) by (vm_compute; reflexivity).
  assert (Hx : forallb isPlain x = true) by (vm_compute; reflexivity).
  assert (Hv : forallb isPlain v = true) by (vm_compute; reflexivity).
  assert (Hd : forallb dot x = true) by (vm_compute; reflexivity).
  split; [repeat split; assumption|].
  exact (X17_bold_line_then_rest u x v m Hu Hx Hv Hd).
Defined.

(** X18. What the timetable generator shows after a successful request.
    The text that handleGenerate hands to the renderer is rendered as the
    check mark, the title in a strong element, a paragraph break, the
    study period with its label in a strong element, a paragraph break,
    and then the rendering of the Markdown of the server taken by
    itself: the two lines put before it do not change how it is read.
    This holds when the text of the number of days is plain, as the text
    of a number of at least one is: digits, for a number too large digits
    with a period, e and +, or Infinity. *)
Theorem X18_generated_result_is_shown (totalDays timetable_markdown : jstring) :
  forallb isPlain totalDays = true ->
  MarkdownRenderer (JString (TimetableGenerator.generatedResult totalDays timetable_markdown)) =
    html ← MarkdownRenderer (JString timetable_markdown);
    Some ([9989%N] ++ lit " <strong>Timetable Generated Successfully!</strong><p></p>"
          ++ lit "<strong>Study Period:</strong> " ++ totalDays ++ lit " days.<p></p>" ++ html).
Proof.
  intros Hdays. unfold TimetableGenerator.generatedResult.
  set (m1 := lit "**Study Period:** " ++ totalDays ++ lit " days." ++ [LF; LF]
             ++ timetable_markdown).
  change ([9989%N] ++ lit " **Timetable Generated Successfully!**" ++ [LF; LF] ++ m1)
    with ([9989%N; 32%N] ++ lit "**" ++ lit "Timetable Generated Successfully!" ++ lit "**"
          ++ [] ++ [LF; LF] ++ m1).
  rewrite (bold_line_then_rest [9989%N; 32%N] (lit "Timetable Generated Successfully!") [] m1
             eq_refl eq_refl eq_refl eq_refl).
  assert (E : m1 = [] ++ lit "**" ++ lit "Study Period:" ++ lit "**"
                   ++ (32%N :: totalDays ++ lit " days.") ++ [LF; LF] ++ timetable_markdown).
  { unfold m1. rewrite (app_assoc totalDays (lit " days.")). reflexivity. }
  rewrite E.
  rewrite (bold_line_then_rest [] (lit "Study Period:") (32%N :: totalDays ++ lit " days.")
             timetable_markdown eq_refl eq_refl).
  - destruct (MarkdownRenderer (JString timetable_markdown)) as [html|];
      cbn [mbind option_bind]; [|reflexivity].
    f_equal. cbn [app]. rewrite <- !app_assoc. reflexivity.
  - cbn [forallb]. rewrite forallb_app, Hdays. reflexivity.
  - reflexivity.
Qed.

Lemma X18_generated_result_is_shown_witness :
  forallb isPlain (lit "7") = true /\
  MarkdownRenderer (JString (TimetableGenerator.generatedResult (lit "7") (timetableDocument carryForwardBlock))) =
    html ← MarkdownRenderer (JString (timetableDocument carryForwardBlock));
    Some ([9989%N] ++ lit " <strong>Timetable Generated Successfully!</strong><p></p>"
          ++ lit "<strong>Study Period:</strong> " ++ lit "7" ++ lit " days.<p></p>" ++ html).
Proof.
  split; [reflexivity|].
  exact (X18_generated_result_is_shown (lit "7") (timetableDocument carryForwardBlock) eq_refl).
Defined.

(* ===================================================================== *)
(** ** Further properties: a list of bullet lines *)
(* ===================================================================== *)

Section BulletLines.

(** A text ends here, or goes on with a line feed. *)
Let lineEnd (s : jstring) : Prop :=
  match s with [] => True | c :: _ => c = LF end.

(** A pass that turns each line [F t] into [G t], does not match at a
    line feed nor at the end, and takes the start of the text and the
    position after a line feed alike, turns lines into lines. *)
Lemma lines_pass (f : flags) (r : re) (fn : list (nat * jstring) -> jstring)
    (ok : option N -> Prop) (good : jstring -> Prop) (F G : jstring -> jstring) :
  (forall t b s, good t -> ok b -> lineEnd s ->
     replacePure f r fn 0 b (F t ++ s) = G t ++ replacePure f r fn 0 (lastBefore b (F t)) s) ->
  (forall b s, matchAt f r b (LF :: s) = None) ->
  (forall b, matchAt f r b [] = None) ->
  ok (Some LF) ->
  forall ts b, Forall good ts -> ok b ->
    replacePure f r fn 0 b (joinWith [LF] (map F ts)) = joinWith [LF] (map G ts).
Proof.
  intros Hline Hlf Hend Hok. induction ts as [|t ts IH]; intros b Hts Hb.
  - cbn [map joinWith replacePure]. rewrite Hend. reflexivity.
  - apply Forall_cons in Hts as [Ht Hts]. destruct ts as [|t' ts].
    + cbn [map joinWith]. rewrite <- (app_nil_r (F t)) at 1.
      rewrite (Hline t b [] Ht Hb I). cbn [replacePure]. rewrite Hend. apply app_nil_r.
    + change (joinWith [LF] (map F (t :: t' :: ts)))
        with (F t ++ LF :: joinWith [LF] (map F (t' :: ts))).
      change (joinWith [LF] (map G (t :: t' :: ts)))
        with (G t ++ LF :: joinWith [LF] (map G (t' :: ts))).
      rewrite (Hline t b (LF :: joinWith [LF] (map F (t' :: ts))) Ht Hb eq_refl). f_equal.
      cbn [replacePure]. rewrite Hlf. f_equal. apply (IH (Some LF) Hts Hok).
Qed.

Lemma forallb_joinWith (p : N -> bool) (ls : list jstring) :
  p LF = true -> Forall (fun l => forallb p l = true) ls ->
  forallb p (joinWith [LF] ls) = true.
Proof.
  intros Hlf. induction 1 as [|l ls Hl Hls IH]; [reflexivity|].
  destruct ls as [|l' ls]; [exact Hl|].
  change (joinWith [LF] (l :: l' :: ls)) with (l ++ LF :: joinWith [LF] (l' :: ls)).
  rewrite forallb_app, Hl. cbn [forallb]. rewrite Hlf. exact IH.
Qed.

Lemma reluctant_none_line (p : N -> bool) (k : option N -> jstring -> option pos)
    (w s : jstring) :
  (forall b' a1 c a2, w = a1 ++ c :: a2 -> k b' (c :: a2 ++ s) = None) ->
  (forall b', k b' s = None) ->
  match s with [] => True | c :: _ => p c = false end ->
  forall b, reluctant p k b (w ++ s) = None.
Proof.
  intros Hw Hs Hp. induction w as [|c w IH]; intros b.
  - cbn [app]. destruct s as [|c s]; cbn [reluctant]; rewrite Hs; [reflexivity|].
    rewrite Hp. reflexivity.
  - cbn [app reluctant]. rewrite (Hw b [] c w eq_refl).
    destruct (p c); [|reflexivity]. apply IH.
    intros b' a1 d a2 ->. apply (Hw b' (c :: a1) d a2). reflexivity.
Qed.

Lemma mismatch_short (p s t : jstring) :
  mismatch p (s ++ t) = true -> startsWith p s = false.
Proof.
  revert s. induction p as [|c p IH]; intros s H; [destruct (s ++ t); discriminate H|].
  destruct s as [|d s]; [reflexivity|]. cbn [app mismatch] in H. cbn [startsWith].
  destruct (N.eqb c d); [|reflexivity]. cbn [andb]. apply IH, H.
Qed.

(** Where no match can start, up to the end of the text, a pass changes
    nothing. *)
Lemma replace_noStart (f : flags) (r : re) (fn : list (nat * jstring) -> jstring)
    (s tl : jstring) :
  noStart (headLit r) (s ++ tl) = true -> headLit r <> [] ->
  replace f r fn s = s.
Proof.
  intros Hs Hne. apply replacePure_unmatched. intros b t [u ->].
  destruct (matchAt f r b t) as [y|] eqn:Hm; [|reflexivity].
  apply matchAt_headLit in Hm. exfalso. clear y b.
  induction u as [|c u IH].
  - destruct t as [|d t].
    + destruct (headLit r); [congruence|discriminate Hm].
    + cbn [app noStart] in Hs. apply andb_prop in Hs as [Hd _].
      change (d :: t ++ tl) with ((d :: t) ++ tl) in Hd.
      rewrite (mismatch_short _ _ _ Hd) in Hm. discriminate Hm.
  - apply IH. cbn [app noStart] in Hs. apply andb_prop in Hs as [_ Hs]. exact Hs.
Qed.

Lemma noStart_lines (p : jstring) (good : jstring -> Prop) (F : jstring -> jstring) :
  (forall t, good t -> noStart p (F t ++ [LF]) = true) ->
  forall ts t, Forall good (t :: ts) ->
    noStart p (joinWith [LF] (map F (t :: ts)) ++ [LF]) = true.
Proof.
  intros HF. induction ts as [|t' ts IH]; intros t Hts; apply Forall_cons in Hts as [Ht Hts].
  - exact (HF t Ht).
  - change (joinWith [LF] (map F (t :: t' :: ts)))
      with (F t ++ [LF] ++ joinWith [LF] (map F (t' :: ts))).
    rewrite <- !app_assoc, (app_assoc (F t)).
    apply noStart_app; [exact (HF t Ht)|exact (IH t' Hts)].
Qed.

(** No match of the italic pass starts at the star of a bullet. *)
Lemma italic_no_match (b : option N) (w s : jstring) :
  forallb (fun d => negb (N.eqb d 42)) w = true -> lineEnd s ->
  matchAt noflags italicRegex b (42%N :: w ++ s) = None.
Proof.
  intros Hw Hs. unfold matchAt, italicRegex. cbn [run rest before caps].
  change (N.eqb 42 42) with true. cbv iota.
  apply reluctant_none_line.
  - intros b' a1 c a2 ->. rewrite forallb_app in Hw. apply andb_prop in Hw as [_ Hw].
    cbn [forallb] in Hw. apply andb_prop in Hw as [Hc _]. apply negb_true_iff in Hc.
    cbn [rest]. rewrite Hc. reflexivity.
  - intros b'. destruct s as [|c s]; [reflexivity|]. cbn in Hs. subst c. reflexivity.
  - destruct s as [|c s]; [exact I|]. cbn in Hs. subst c. reflexivity.
Qed.

Lemma italic_line (t : jstring) (b : option N) (s : jstring) :
  forallb (fun d => negb (N.eqb d 42)) t = true -> lineEnd s ->
  replacePure noflags italicRegex (wrap "<em>" "</em>") 0 b ((lit "* " ++ t) ++ s)
  = (lit "* " ++ t) ++
    replacePure noflags italicRegex (wrap "<em>" "</em>") 0 (lastBefore b (lit "* " ++ t)) s.
Proof.
  intros Ht Hs. change ((lit "* " ++ t) ++ s) with (42%N :: (32%N :: t) ++ s).
  cbn [replacePure]. rewrite (italic_no_match b (32%N :: t) s Ht Hs).
  change (lit "* " ++ t) with (42%N :: 32%N :: t). cbn [app]. f_equal.
  exact (replacePure_copy noflags italicRegex _ 42%N [] (32%N :: t) eq_refl Ht (Some 42%N) s).
Qed.

(** The bullet pass on one line. *)
Lemma matchAt_bullet (b : option N) (t s : jstring) :
  atBol mflag b = true -> forallb dot t = true -> lineEnd s ->
  exists y,
    matchAt mflag bulletRegex b (lit "* " ++ t ++ s) = Some y /\
    rest y = s /\ caps y = [(1%nat, t)].
Proof.
  intros Hb Ht Hs. unfold matchAt, bulletRegex. cbn [run before]. rewrite Hb.
  rewrite run_str by discriminate. cbn [rest before caps].
  change (startsWith (lit "* ") (lit "* " ++ t ++ s)) with true. cbv iota.
  change (drop (length (lit "* ")) (lit "* " ++ t ++ s)) with (t ++ s).
  eexists. split.
  - apply (greedy_max dot _ t s); [exact Ht|reflexivity|].
    destruct s as [|c s]; [exact I|]. cbn in Hs. subst c. reflexivity.
  - cbn [rest caps]. rewrite between_app. split; reflexivity.
Qed.

Lemma bullet_line (t : jstring) (b : option N) (s : jstring) :
  forallb dot t = true -> atBol mflag b = true -> lineEnd s ->
  replacePure mflag bulletRegex (wrap "<li>" "</li>") 0 b ((lit "* " ++ t) ++ s)
  = (lit "<li>" ++ t ++ lit "</li>") ++
    replacePure mflag bulletRegex (wrap "<li>" "</li>") 0 (lastBefore b (lit "* " ++ t)) s.
Proof.
  intros Ht Hb Hs. destruct (matchAt_bullet b t s Hb Ht Hs) as (y & Hy & Hrest & Hcaps).
  change (lit "* " ++ t ++ s) with (42%N :: (32%N :: t) ++ s) in Hy.
  change ((lit "* " ++ t) ++ s) with (42%N :: (32%N :: t) ++ s).
  rewrite (replacePure_step mflag bulletRegex _ b 42%N (32%N :: t) s y Hy Hrest), Hcaps.
  reflexivity.
Qed.

(** The item pass on one line. *)
Lemma matchAt_li (b : option N) (t s : jstring) :
  forallb (fun d => negb (N.eqb d 60)) t = true ->
  exists y,
    matchAt noflags liRegex b (lit "<li>" ++ t ++ lit "</li>" ++ s) = Some y /\
    rest y = s /\ caps y = [(1%nat, lit "<li>" ++ t ++ lit "</li>")].
Proof.
  intros Ht. unfold matchAt, liRegex. cbn [run]. rewrite run_str by discriminate.
  cbn [rest before caps].
  change (startsWith (lit "<li>") (lit "<li>" ++ t ++ lit "</li>" ++ s)) with true. cbv iota.
  change (drop (length (lit "<li>")) (lit "<li>" ++ t ++ lit "</li>" ++ s))
    with (t ++ lit "</li>" ++ s).
  match goal with |- exists y, reluctant any ?k ?b0 _ = _ /\ _ => set (k1 := k) end.
  assert (Hk : forall b' s',
            k1 b' s' = if startsWith (lit "</li>") s'
                       then Some {| before := Some 62%N;
                                    rest := drop 5 s';
                                    caps := [(1%nat, between (lit "<li>" ++ t ++ lit "</li>" ++ s)
                                                       (drop 5 s'))] |}
                       else None).
  { intros b' s'. unfold k1. rewrite run_str by discriminate. cbn [rest before caps].
    destruct (startsWith (lit "</li>") s'); reflexivity. }
  rewrite (reluctant_skip any k1 (lit "</li>" ++ s) t).
  - eexists. split.
    + apply reluctant_here. rewrite Hk. reflexivity.
    + cbn [rest caps]. change (drop 5 (lit "</li>" ++ s)) with s. split; [reflexivity|].
      replace (lit "<li>" ++ t ++ lit "</li>" ++ s) with ((lit "<li>" ++ t ++ lit "</li>") ++ s)
        by (rewrite <- !app_assoc; reflexivity).
      rewrite between_app. reflexivity.
  - clear. induction t as [|c t IH]; [reflexivity|exact IH].
  - intros b' a1 c a2 ->. rewrite Hk. rewrite forallb_app in Ht.
    apply andb_prop in Ht as [_ Ht]. cbn [forallb] in Ht. apply andb_prop in Ht as [Hc _].
    change (lit "</li>") with (60%N :: lit "/li>"). cbn [startsWith]. rewrite N.eqb_sym.
    apply negb_true_iff in Hc. rewrite Hc. reflexivity.
Qed.

Lemma li_line (t : jstring) (b : option N) (s : jstring) :
  forallb (fun d => negb (N.eqb d 60)) t = true ->
  replacePure noflags liRegex (wrap "<ul>" "</ul>") 0 b ((lit "<li>" ++ t ++ lit "</li>") ++ s)
  = (lit "<ul>" ++ (lit "<li>" ++ t ++ lit "</li>") ++ lit "</ul>") ++
    replacePure noflags liRegex (wrap "<ul>" "</ul>") 0
      (lastBefore b (lit "<li>" ++ t ++ lit "</li>")) s.
Proof.
  intros Ht. destruct (matchAt_li b t s Ht) as (y & Hy & Hrest & Hcaps).
  assert (E : lit "<li>" ++ t ++ lit "</li>" ++ s = 60%N :: (lit "li>" ++ t ++ lit "</li>") ++ s).
  { cbn [app]. rewrite <- !app_assoc. reflexivity. }
  rewrite E in Hy.
  change ((lit "<li>" ++ t ++ lit "</li>") ++ s) with (60%N :: (lit "li>" ++ t ++ lit "</li>") ++ s).
  rewrite (replacePure_step noflags liRegex _ b 60%N _ s y Hy Hrest), Hcaps.
  reflexivity.
Qed.

Lemma normalizeNewlines_single (l : jstring) (d : N) (r : jstring) :
  forallb (fun c => negb (N.eqb c LF)) l = true -> N.eqb d LF = false ->
  normalizeNewlines (l ++ LF :: d :: r) = l ++ lit "<br>" ++ normalizeNewlines (d :: r).
Proof.
  intros Hl Hd. induction l as [|c l IH].
  - cbn [app normalizeNewlines]. change (N.eqb LF LF) with true. cbv iota.
    rewrite Hd. reflexivity.
  - cbn [forallb] in Hl. apply andb_prop in Hl as [Hc Hl]. apply negb_true_iff in Hc.
    cbn [app normalizeNewlines]. rewrite Hc. f_equal. apply IH, Hl.
Qed.

Lemma normalizeNewlines_lines (G : jstring -> jstring) (good : jstring -> Prop) :
  (forall t, good t -> forallb (fun c => negb (N.eqb c LF)) (G t) = true) ->
  (forall t, good t -> exists d r, G t = d :: r /\ N.eqb d LF = false) ->
  forall ts, Forall good ts ->
    normalizeNewlines (joinWith [LF] (map G ts)) = joinWith (lit "<br>") (map G ts).
Proof.
  intros Hlf Hhead. induction 1 as [|t ts Ht Hts IH]; [reflexivity|].
  destruct ts as [|t' ts].
  - cbn [map joinWith]. apply normalizeNewlines_id, Hlf, Ht.
  - change (joinWith [LF] (map G (t :: t' :: ts)))
      with (G t ++ LF :: joinWith [LF] (map G (t' :: ts))).
    change (joinWith (lit "<br>") (map G (t :: t' :: ts)))
      with (G t ++ lit "<br>" ++ joinWith (lit "<br>") (map G (t' :: ts))).
    rewrite <- IH. apply Forall_cons in Hts as [Ht' _].
    destruct (Hhead t' Ht') as (d & r & E & Hd).
    assert (E' : exists r', joinWith [LF] (map G (t' :: ts)) = d :: r').
    { cbn [map joinWith]. rewrite E. destruct (map G ts); cbn [app]; eauto. }
    destruct E' as [r' ->]. apply normalizeNewlines_single; [apply Hlf, Ht|exact Hd].
Qed.

Lemma italic_lines (ts : list jstring) :
  Forall (fun t => forallb (fun d => negb (N.eqb d 42)) t = true) ts ->
  replace noflags italicRegex (wrap "<em>" "</em>") (joinWith [LF] (map (fun t => lit "* " ++ t) ts))
  = joinWith [LF] (map (fun t => lit "* " ++ t) ts).
Proof.
  intros Hts.
  apply (lines_pass noflags italicRegex _ (fun _ => True)
           (fun t => forallb (fun d => negb (N.eqb d 42)) t = true)
           (fun t => lit "* " ++ t) (fun t => lit "* " ++ t)); [| | | |exact Hts|].
  - intros t b s Ht Hb Hs. apply italic_line; assumption.
  - intros b s. destruct (matchAt noflags italicRegex b (LF :: s)) as [y|] eqn:Hm; [|reflexivity].
    apply matchAt_headLit in Hm. discriminate Hm.
  - intros b. destruct (matchAt noflags italicRegex b []) as [y|] eqn:Hm; [|reflexivity].
    apply matchAt_headLit in Hm. discriminate Hm.
  - exact I.
  - exact I.
Qed.

Lemma bullet_lines (ts : list jstring) :
  Forall (fun t => forallb dot t = true) ts ->
  replace mflag bulletRegex (wrap "<li>" "</li>") (joinWith [LF] (map (fun t => lit "* " ++ t) ts))
  = joinWith [LF] (map (fun t => lit "<li>" ++ t ++ lit "</li>") ts).
Proof.
  intros Hts.
  apply (lines_pass mflag bulletRegex _ (fun b => atBol mflag b = true)
           (fun t => forallb dot t = true)
           (fun t => lit "* " ++ t) (fun t => lit "<li>" ++ t ++ lit "</li>")); [| | | |exact Hts|].
  - intros t b s Ht Hb Hs. apply bullet_line; assumption.
  - intros b s. destruct (matchAt mflag bulletRegex b (LF :: s)) as [y|] eqn:Hm; [|reflexivity].
    apply matchAt_headLit in Hm. discriminate Hm.
  - intros b. destruct (matchAt mflag bulletRegex b []) as [y|] eqn:Hm; [|reflexivity].
    apply matchAt_headLit in Hm. discriminate Hm.
  - reflexivity.
  - reflexivity.
Qed.

Lemma li_lines (ts : list jstring) :
  Forall (fun t => forallb (fun d => negb (N.eqb d 60)) t = true) ts ->
  replace noflags liRegex (wrap "<ul>" "</ul>")
    (joinWith [LF] (map (fun t => lit "<li>" ++ t ++ lit "</li>") ts))
  = joinWith [LF] (map (fun t => lit "<ul>" ++ (lit "<li>" ++ t ++ lit "</li>") ++ lit "</ul>") ts).
Proof.
  intros Hts.
  apply (lines_pass noflags liRegex _ (fun _ => True)
           (fun t => forallb (fun d => negb (N.eqb d 60)) t = true)
           (fun t => lit "<li>" ++ t ++ lit "</li>")
           (fun t => lit "<ul>" ++ (lit "<li>" ++ t ++ lit "</li>") ++ lit "</ul>")); [| | | |exact Hts|].
  - intros t b s Ht Hb Hs. apply li_line; assumption.
  - intros b s. destruct (matchAt noflags liRegex b (LF :: s)) as [y|] eqn:Hm; [|reflexivity].
    apply matchAt_headLit in Hm. discriminate Hm.
  - intros b. destruct (matchAt noflags liRegex b []) as [y|] eqn:Hm; [|reflexivity].
    apply matchAt_headLit in Hm. discriminate Hm.
  - exact I.
  - exact I.
Qed.

End BulletLines.

(** X19. A list of bullet lines.  When the text is made of lines that
    start with a star and a space and go on with a plain item, each item
    is wrapped in a list of its own, and the lists are separated by line
    breaks: the pass that joins adjacent lists never finds two of them
    side by side, however many items there are. *)
Theorem X19_each_item_gets_its_own_list (ts : list jstring) :
  Forall (fun t => forallb isPlain t = true /\ forallb dot t = true) ts ->
  MarkdownRenderer (JString (joinWith [LF] (map (fun t => lit "* " ++ t) ts)))
  = Some (joinWith (lit "<br>") (map (fun t => lit "<ul><li>" ++ t ++ lit "</li></ul>") ts)).
Proof.
  intros Hts. destruct ts as [|t0 ts0]; [reflexivity|].
  set (ts := t0 :: ts0) in *.
  assert (Hfree : forall c, isPlain c = false ->
            Forall (fun t => forallb (fun d => negb (N.eqb d c)) t = true) ts).
  { intros c Hc. apply (Forall_impl _ _ _ Hts). intros t [Ht _]. exact (plain_without c t Hc Ht). }
  assert (Hdot : Forall (fun t => forallb dot t = true) ts).
  { apply (Forall_impl _ _ _ Hts). intros t [_ Ht]. exact Ht. }
  assert (Hline : forall c, isPlain c = false -> N.eqb LF c = false ->
            N.eqb 42 c = false -> N.eqb 32 c = false ->
            forallb (fun d => negb (N.eqb d c))
              (joinWith [LF] (map (fun t => lit "* " ++ t) ts)) = true).
  { intros c Hc Hlf Hstar Hsp. apply forallb_joinWith; [rewrite Hlf; reflexivity|].
    apply Forall_map. apply (Forall_impl _ _ _ (Hfree c Hc)). intros t Ht.
    cbn [app forallb lit]. change (lit "* " ++ t) with (42%N :: 32%N :: t). cbn [forallb].
    rewrite Hstar, Hsp, Ht. reflexivity. }
  cbn [MarkdownRenderer]. unfold fencePass, tablePass, replaceWith.
  rewrite (replace_absent noflags fenceRegex _ 96%N _ _ eq_refl
             (Hline 96%N eq_refl eq_refl eq_refl eq_refl)).
  rewrite (replaceFrom_absent noflags tableRegex _ pipe _ _ eq_refl
             (Hline pipe eq_refl eq_refl eq_refl eq_refl)).
  cbn [mbind option_bind]. f_equal. unfold inlinePasses. cbv zeta.
  rewrite (replace_absent noflags h4Regex _ 35%N _ _ eq_refl
             (Hline 35%N eq_refl eq_refl eq_refl eq_refl)).
  rewrite (replace_absent noflags h3Regex _ 35%N _ _ eq_refl
             (Hline 35%N eq_refl eq_refl eq_refl eq_refl)).
  rewrite (replace_noStart noflags boldRegex _ _ [LF]); [| |discriminate].
  2: { apply (noStart_lines (headLit boldRegex)
                (fun t => forallb (fun d => negb (N.eqb d 42)) t = true)
                (fun t => lit "* " ++ t)); [|exact (Hfree 42%N eq_refl)].
       intros t Ht. rewrite <- app_assoc. apply noStart_app; [reflexivity|].
       apply (noStart_free 42%N). rewrite forallb_app, Ht. reflexivity. }
  rewrite (italic_lines ts (Hfree 42%N eq_refl)).
  rewrite (replace_absent noflags ruleRegex _ 45%N _ _ eq_refl
             (Hline 45%N eq_refl eq_refl eq_refl eq_refl)).
  unfold listPass. cbv zeta. rewrite (bullet_lines ts Hdot).
  replace (includes (lit "<li>")
             (joinWith [LF] (map (fun t => lit "<li>" ++ t ++ lit "</li>") ts))) with true
    by (unfold ts; destruct ts0; reflexivity).
  rewrite (li_lines ts (Hfree 60%N eq_refl)).
  rewrite (replace_noStart noflags ulJoinRegex _ _ [LF]); [| |discriminate].
  2: { apply (noStart_lines (headLit ulJoinRegex)
                (fun t => forallb (fun d => negb (N.eqb d 60)) t = true)
                (fun t => lit "<ul>" ++ (lit "<li>" ++ t ++ lit "</li>") ++ lit "</ul>"));
         [|exact (Hfree 60%N eq_refl)].
       intros t Ht. rewrite <- !app_assoc.
       change (lit "<ul>" ++ lit "<li>" ++ t ++ lit "</li>" ++ lit "</ul>" ++ [LF])
         with (lit "<ul><li>" ++ t ++ lit "</li></ul>" ++ [LF]).
       apply noStart_app; [reflexivity|]. apply noStart_app; [|reflexivity].
       apply (noStart_free 60%N). exact Ht. }
  rewrite last_passes_scan.
  rewrite (normalizeNewlines_lines
             (fun t => lit "<ul>" ++ (lit "<li>" ++ t ++ lit "</li>") ++ lit "</ul>")
             (fun t => forallb (fun d => negb (N.eqb d LF)) t = true)).
  - f_equal. apply map_ext. intros t. rewrite <- !app_assoc. reflexivity.
  - intros t Ht. rewrite !forallb_app, Ht. reflexivity.
  - intros t _. eexists _, _. split; reflexivity.
  - exact (Hfree LF eq_refl).
Qed.

Lemma X19_each_item_gets_its_own_list_witness :
  let ts := [lit "read chapter 2"; lit "solve the exercises"; lit "revise"] in
  Forall (fun t => forallb isPlain t = true /\ forallb dot t = true) ts /\
  MarkdownRenderer (JString (joinWith [LF] (map (fun t => lit "* " ++ t) ts)))
  = Some (lit "<ul><li>read chapter 2</li></ul><br><ul><li>solve the exercises</li></ul><br><ul><li>revise</li></ul>").
Proof.
  intros ts.
  assert (Hts : Forall (fun t => forallb isPlain t = true /\ forallb dot t = true) ts)
    by (repeat constructor).
  split; [exact Hts|]. exact (X19_each_item_gets_its_own_list ts Hts).
Defined.

(* ===================================================================== *)
(** ** Further properties: the form of the timetable generator *)
(* ===================================================================== *)

Section Subjects.

Import TimetableGenerator.

Lemma filteri_from_keep {A} (target : nat) (l : list A) :
  forall k, target < k -> filteri_from k (fun _ j => negb (j =? target)) l = l.
Proof.
  induction l as [|y l IH]; intros k Hk; cbn [filteri_from]; [reflexivity|].
  destruct (Nat.eqb_spec k target) as [->|_]; [lia|]. cbn [negb]. rewrite IH by lia. reflexivity.
Qed.

Lemma filteri_from_remove {A} (l : list A) :
  forall i index,
    filteri_from i (fun _ j => negb (j =? i + index)) l = take index l ++ drop (S index) l.
Proof.
  induction l as [|x l IH]; intros i index; [destruct index; reflexivity|].
  cbn [filteri_from]. destruct index as [|index].
  - rewrite Nat.add_0_r, Nat.eqb_refl. cbn [negb take drop app].
    apply filteri_from_keep. lia.
  - destruct (Nat.eqb_spec i (i + S index)) as [E|_]; [lia|]. cbn [negb take drop app].
    f_equal. replace (i + S index) with (S i + index) by lia. apply IH.
Qed.

Lemma handleRemoveSubject_spec (index : nat) (subjects : list entry) :
  handleRemoveSubject index subjects = take index subjects ++ drop (S index) subjects.
Proof. exact (filteri_from_remove subjects 0 index). Qed.

Lemma filter_insert_invalid (index : nat) (e' : entry) (subjects : list entry) :
  index < length subjects -> isValid e' = false ->
  List.filter isValid (<[ index := e' ]> subjects)
  = List.filter isValid (handleRemoveSubject index subjects).
Proof.
  intros Hi He. rewrite handleRemoveSubject_spec, (insert_take_drop subjects index e' Hi).
  rewrite !List.filter_app. cbn [List.filter]. rewrite He. reflexivity.
Qed.

End Subjects.

(** X20. The list of subjects of the form.  Removing the entry at an index
    keeps the entries before and after it, in their order, so an index
    past the end removes nothing; removing the last entry after adding
    one gives back the list; and a change at an index is refused with a
    TypeError exactly when the index is past the end. *)
Theorem X20_subject_list_handlers (parseInt : jstring -> TimetableGenerator.number)
    (index : nat) (f : TimetableGenerator.field) (value : jstring)
    (subjects : list TimetableGenerator.entry) :
  TimetableGenerator.handleRemoveSubject index subjects
    = take index subjects ++ drop (S index) subjects /\
  (length subjects <= index ->
     TimetableGenerator.handleRemoveSubject index subjects = subjects) /\
  TimetableGenerator.handleRemoveSubject (length subjects)
    (TimetableGenerator.handleAddSubject subjects) = subjects /\
  (TimetableGenerator.handleSubjectChange parseInt index f value subjects = None
     <-> length subjects <= index).
Proof.
  split; [apply handleRemoveSubject_spec|]. split; [|split].
  - intros Hi. rewrite handleRemoveSubject_spec, take_ge, drop_ge by lia. apply app_nil_r.
  - rewrite handleRemoveSubject_spec. unfold TimetableGenerator.handleAddSubject.
    rewrite take_app_length, drop_ge by (rewrite length_app; cbn [length]; lia).
    apply app_nil_r.
  - unfold TimetableGenerator.handleSubjectChange.
    destruct (subjects !! index) as [e|] eqn:He.
    + split; [discriminate|]. intros Hi. apply lookup_lt_Some in He. lia.
    + split; [|reflexivity]. intros _. apply lookup_ge_None. exact He.
Qed.

(** X21. A chapters field that does not parse to a number other than
    zero.  The change stores zero chapters for the entry; from then on
    handleGenerate treats the list as if the entry had been removed, save
    that the list is not empty: it rejects the form when the number of
    days is below one or no other entry is valid, and else sends the other
    valid entries, in their order, never the changed one. *)
Theorem X21_unparsable_chapters_drop_the_entry
    (parseInt : jstring -> TimetableGenerator.number) (index : nat) (value : jstring)
    (subjects : list TimetableGenerator.entry) (e : TimetableGenerator.entry)
    (totalDays : TimetableGenerator.number) :
  subjects !! index = Some e ->
  TimetableGenerator.falsy (parseInt value) = true ->
  exists subjects',
    TimetableGenerator.handleSubjectChange parseInt index TimetableGenerator.chapters_field
      value subjects = Some subjects' /\
    subjects' !! index
      = Some {| TimetableGenerator.subject := TimetableGenerator.subject e;
                TimetableGenerator.chapters := TimetableGenerator.Finite 0 |} /\
    let others :=
      List.filter TimetableGenerator.isValid
        (TimetableGenerator.handleRemoveSubject index subjects) in
    TimetableGenerator.handleGenerate subjects' totalDays =
      if TimetableGenerator.lt1 totalDays then
        TimetableGenerator.Rejected
          (lit "Please add at least one subject and specify total days.")
      else if length others =? 0 then
        TimetableGenerator.Rejected
          (lit "Please ensure all subjects have a name and positive number of chapters.")
      else TimetableGenerator.Request others totalDays.
Proof.
  intros He Hnan. unfold TimetableGenerator.handleSubjectChange. rewrite He, Hnan.
  eexists. split; [reflexivity|].
  pose proof (lookup_lt_Some _ _ _ He) as Hi.
  split; [apply list_lookup_insert_eq; exact Hi|].
  cbv zeta. unfold TimetableGenerator.handleGenerate. cbv zeta.
  rewrite length_insert.
  destruct subjects as [|s0 subjects]; [cbn [length] in Hi; lia|].
  cbn [length Nat.eqb orb].
  rewrite (filter_insert_invalid index _ (s0 :: subjects) Hi)
    by (unfold TimetableGenerator.isValid; cbn; apply andb_false_r).
  reflexivity.
Qed.

Lemma X21_unparsable_chapters_drop_the_entry_witness :
  let math := {| TimetableGenerator.subject := lit "Math";
                 TimetableGenerator.chapters := TimetableGenerator.Finite 10 |} in
  let science := {| TimetableGenerator.subject := lit "Science";
                    TimetableGenerator.chapters := TimetableGenerator.Finite 8 |} in
  let parseInt := fun _ : jstring => TimetableGenerator.NaN in
  ([math; science] !! 0 = Some math /\
   TimetableGenerator.falsy (parseInt (lit "ten")) = true) /\
  exists subjects',
    TimetableGenerator.handleSubjectChange parseInt 0 TimetableGenerator.chapters_field
      (lit "ten") [math; science] = Some subjects' /\
    TimetableGenerator.handleGenerate subjects' (TimetableGenerator.Finite 7)
      = TimetableGenerator.Request [science] (TimetableGenerator.Finite 7).
Proof.
  intros math science parseInt. split; [split; reflexivity|].
  destruct (X21_unparsable_chapters_drop_the_entry parseInt 0 (lit "ten") [math; science] math
              (TimetableGenerator.Finite 7) eq_refl eq_refl) as (subjects' & H1 & _ & H2).
  exists subjects'. split; [exact H1|exact H2].
Defined.

(* ===================================================================== *)
(** ** Further properties: the errors of the server *)
(* ===================================================================== *)

Section ErrorDetail.

Import TimetableGenerator.







End ErrorDetail.



(* ===================================================================== *)
(** ** Further properties: the result of a diagnosis *)
(* ===================================================================== *)

Section RuleLine.

(** The rule pass on the first three dashes of a text. *)
Lemma rule_first (u t : jstring) :
  forallb (fun d => negb (N.eqb d 45)) u = true ->
  replace noflags ruleRegex (fun _ => lit "<hr>") (u ++ lit "---" ++ t)
  = u ++ lit "<hr>" ++ replace noflags ruleRegex (fun _ => lit "<hr>") t.
Proof.
  intros Hu. unfold replace.
  rewrite (replacePure_copy noflags ruleRegex _ 45%N [45%N; 45%N] u eq_refl Hu). f_equal.
  assert (Hm : matchAt noflags ruleRegex (lastBefore None u) (45%N :: [45%N; 45%N] ++ t)
               = Some {| before := Some 45%N; rest := t; caps := [] |}).
  { unfold matchAt, ruleRegex. rewrite run_str by discriminate. reflexivity. }
  change (lit "---" ++ t) with (45%N :: [45%N; 45%N] ++ t).
  rewrite (replacePure_step noflags ruleRegex _ _ 45%N [45%N; 45%N] t _ Hm eq_refl).
  f_equal. apply replacePure_before. reflexivity.
Qed.

Lemma rule_head (t : jstring) :
  replace noflags ruleRegex (fun _ => lit "<hr>") (lit "---" ++ t)
  = lit "<hr>" ++ replace noflags ruleRegex (fun _ => lit "<hr>") t.
Proof. exact (rule_first [] t eq_refl). Qed.

(** A line between two runs of three dashes, followed by a blank line. *)
Lemma rule_line_then_rest (x m : jstring) :
  forallb isPlain x = true ->
  MarkdownRenderer (JString (lit "---" ++ x ++ lit "---" ++ [LF; LF] ++ m)) =
    html ← MarkdownRenderer (JString m);
    Some (lit "<hr>" ++ x ++ lit "<hr>" ++ lit "<p></p>" ++ html).
Proof.
  intros Hx.
  assert (Hfree : forall c, isPlain c = false ->
            forallb (fun d => negb (N.eqb d c)) x = true)
    by (intros c Hc; exact (plain_without c x Hc Hx)).
  set (line := lit "---" ++ x ++ lit "---" ++ [LF]).
  set (line' := lit "<hr>" ++ x ++ lit "<hr>" ++ [LF]).
  assert (E : lit "---" ++ x ++ lit "---" ++ [LF; LF] ++ m = (line ++ [LF]) ++ m).
  { unfold line. rewrite <- !app_assoc. reflexivity. }
  rewrite E.
  assert (Hline : forall c, isPlain c = false -> N.eqb LF c = false -> N.eqb 45 c = false ->
            forallb (fun d => negb (N.eqb d c)) line = true).
  { intros c Hc Hlf Hdash. unfold line. change (lit "---") with [45%N; 45%N; 45%N].
    rewrite !forallb_app, (Hfree c Hc). cbn [forallb]. rewrite Hlf, Hdash. reflexivity. }
  assert (Hline' : forall c, isPlain c = false -> N.eqb LF c = false ->
            forallb (fun d => negb (N.eqb d c)) (lit "<hr>") = true ->
            forallb (fun d => negb (N.eqb d c)) line' = true).
  { intros c Hc Hlf Htag. unfold line'.
    rewrite !forallb_app, (Hfree c Hc), Htag. cbn [forallb]. rewrite Hlf. reflexivity. }
  rewrite (render_over line line line' (lit "<hr>" ++ x ++ lit "<hr>" ++ lit "<p></p>") m).
  - destruct (MarkdownRenderer (JString m)) as [html|]; cbn [mbind option_bind]; [|reflexivity].
    rewrite <- !app_assoc. reflexivity.
  - apply (Hline 96%N); reflexivity.
  - apply (Hline pipe); reflexivity.
  - apply (Hline 35%N); reflexivity.
  - intros t. apply replace_over; [|right; reflexivity]. apply (noStart_free 42%N).
    rewrite forallb_app, (Hline 42%N eq_refl eq_refl eq_refl). reflexivity.
  - apply (Hline 42%N); reflexivity.
  - intros t. unfold line, line'. rewrite <- !app_assoc.
    rewrite rule_head. rewrite (rule_first x _ (Hfree 45%N eq_refl)).
    do 2 f_equal.
    assert (Hend : noStart (headLit ruleRegex) (([LF]) ++ [LF]) = true) by reflexivity.
    pose proof (replace_over noflags ruleRegex (fun _ => lit "<hr>") [LF] t Hend
                  (or_intror eq_refl)) as R.
    f_equal. exact R.
  - apply (Hline' 42%N); reflexivity.
  - unfold line'. rewrite !app_assoc, <- !(app_assoc (lit "<hr>")).
    repeat apply noStart_app; try reflexivity. apply noStart_free, (Hfree 60%N eq_refl).
  - unfold line'. rewrite !app_assoc, <- !(app_assoc (lit "<hr>")).
    repeat apply noStart_app; try reflexivity. apply (noStart_free 60%N), (Hfree 60%N eq_refl).
  - intros t. unfold line'.
    replace ((lit "<hr>" ++ x ++ lit "<hr>" ++ [LF]) ++ [LF])
      with ((lit "<hr>" ++ x ++ lit "<hr>") ++ [LF; LF])
      by (rewrite <- !app_assoc; reflexivity).
    rewrite normalizeNewlines_line.
    + rewrite <- !app_assoc. reflexivity.
    + rewrite !forallb_app, (Hfree LF eq_refl). reflexivity.
Qed.

End RuleLine.

(** X23. What the disease detector shows after a successful request.  The
    text that handleDetect hands to the renderer is rendered as the check
    mark, the title in a strong element, a paragraph break, the disease
    with its label in a strong element, a paragraph break, the line of the
    cure between two horizontal rules, which is what the renderer makes of
    the two runs of three dashes around it, a paragraph break, and then
    the rendering of the cure text taken by itself.  The name of the
    disease and the language, after their defaults, are taken to be
    plain. *)
Theorem X23_diagnosis_result_is_shown (disease cure_localized language_ : option jstring)
    (language : jstring) :
  let diseaseName := AgriTechHub.orElse disease (lit "N/A") in
  let cureText := AgriTechHub.orElse cure_localized (lit "No cure information available.") in
  let responseLang := AgriTechHub.orElse language_ language in
  forallb isPlain diseaseName = true -> forallb isPlain responseLang = true ->
  MarkdownRenderer
    (JString (AgriTechHub.diagnosisResult disease cure_localized language_ language)) =
    html ← MarkdownRenderer (JString cureText);
    Some ([9989%N] ++ lit " <strong>Diagnosis Complete</strong><p></p>"
          ++ lit "<strong>Disease Detected:</strong> " ++ diseaseName ++ lit "<p></p>"
          ++ lit "<hr> " ++ AgriTechHub.leaf ++ lit " CURE (Generated by ai in "
          ++ responseLang ++ lit ") " ++ AgriTechHub.leaf ++ lit " <hr><p></p>" ++ html).
Proof.
  unfold AgriTechHub.diagnosisResult. cbv zeta.
  set (d := AgriTechHub.orElse disease (lit "N/A")).
  set (c := AgriTechHub.orElse cure_localized (lit "No cure information available.")).
  set (l := AgriTechHub.orElse language_ language).
  intros Hd Hl.
  set (x := lit " " ++ AgriTechHub.leaf ++ lit " CURE (Generated by ai in " ++ l ++ lit ") "
            ++ AgriTechHub.leaf ++ lit " ").
  assert (E3 : lit "--- " ++ AgriTechHub.leaf ++ lit " CURE (Generated by ai in " ++ l
               ++ lit ") " ++ AgriTechHub.leaf ++ lit " ---" ++ [LF; LF] ++ c
               = lit "---" ++ x ++ lit "---" ++ [LF; LF] ++ c).
  { unfold x. rewrite <- !app_assoc. reflexivity. }
  rewrite E3. set (m2 := lit "---" ++ x ++ lit "---" ++ [LF; LF] ++ c).
  set (m1 := lit "**Disease Detected:** " ++ d ++ [LF; LF] ++ m2).
  change ([9989%N] ++ lit " **Diagnosis Complete**" ++ [LF; LF] ++ m1)
    with ([9989%N; 32%N] ++ lit "**" ++ lit "Diagnosis Complete" ++ lit "**"
          ++ [] ++ [LF; LF] ++ m1).
  rewrite (bold_line_then_rest [9989%N; 32%N] (lit "Diagnosis Complete") [] m1
             eq_refl eq_refl eq_refl eq_refl).
  change m1 with ([] ++ lit "**" ++ lit "Disease Detected:" ++ lit "**"
                  ++ (32%N :: d) ++ [LF; LF] ++ m2).
  rewrite (bold_line_then_rest [] (lit "Disease Detected:") (32%N :: d) m2 eq_refl eq_refl).
  - unfold m2. rewrite (rule_line_then_rest x c).
    + destruct (MarkdownRenderer (JString c)) as [html|]; cbn [mbind option_bind]; [|reflexivity].
      f_equal. unfold x. cbn [app]. rewrite <- !app_assoc. reflexivity.
    + unfold x. rewrite !forallb_app, Hl. reflexivity.
  - cbn [forallb]. rewrite Hd. reflexivity.
  - reflexivity.
Qed.

Lemma X23_diagnosis_result_is_shown_witness :
  let disease := Some (lit "Leaf rust") in
  let cure_localized := Some (lit "* remove the leaves" ++ [LF] ++ lit "* spray at dawn") in
  (forallb isPlain (AgriTechHub.orElse disease (lit "N/A")) = true /\
   forallb isPlain (AgriTechHub.orElse None (lit "Hindi")) = true) /\
  MarkdownRenderer (JString (AgriTechHub.diagnosisResult disease cure_localized None (lit "Hindi")))
  = Some ([9989%N] ++ lit " <strong>Diagnosis Complete</strong><p></p>"
          ++ lit "<strong>Disease Detected:</strong> Leaf rust<p></p>"
          ++ lit "<hr> " ++ AgriTechHub.leaf ++ lit " CURE (Generated by ai in Hindi) "
          ++ AgriTechHub.leaf ++ lit " <hr><p></p>"
          ++ lit "<ul><li>remove the leaves</li></ul><br><ul><li>spray at dawn</li></ul>").
Proof.
  intros disease cure_localized. split; [split; reflexivity|].
  exact (X23_diagnosis_result_is_shown disease cure_localized None (lit "Hindi")
           eq_refl eq_refl).
Defined.
